(** * Fetch take-home: the cleaning, join and reporting pipeline

    A shallow embedding of [Fetch_Data_Analyst_Take_Home.py]: the three
    cleaning procedures (users, transactions, products), the two left
    joins, the three queries and the counts reported on the duplicated
    barcodes, followed by the properties of the specification that hold
    of them, the inputs on which the others fail, and further properties
    of the script.

    Conventions.
    - A pandas DataFrame is a list of rows, each paired with its index
      label.  [read_csv] labels the rows 0, 1, 2, ...; boolean selection
      keeps labels, [sort_index] orders by them.
    - A cell is missing ([NaN], which also stands for [None] and [NaT]),
      a text or a number.  A float is the rational it equals, in
      canonical form ([Qc]), so equal floats are equal terms; infinities
      are outside the model, and the one place where the script has
      floats added, SQLite's [SUM], is left to the runtime.
    - The script is read with the pandas 2.x it was written for (March
      2025).  pandas, numpy, dateutil and SQLite behaviour that the script
      relies on but does not define (number and date parsing, the clock,
      [relativedelta], the order in which an unstable sort leaves ties) is
      a field of the class [Runtime]; the theorems hold for every
      instance, under the stated contracts only. *)

From Stdlib Require Import QArith Qcanon Ascii String.
From stdpp Require Import base tactics decidable option list strings numbers sorting.

Close Scope Q_scope.
Close Scope Qc_scope.
Open Scope string_scope.
Open Scope list_scope.
Open Scope nat_scope.

(** ** Cells, exceptions *)

Inductive cell : Type :=
| NaN
| Str (s : string)
| Num (q : Qc).

#[global] Instance cell_eq_dec : EqDecision cell.
Proof. solve_decision. Defined.

(** [Series.notna] on one cell. *)
Definition notna (c : cell) : Prop := c ≠ NaN.

#[global] Instance notna_dec c : Decision (notna c).
Proof. unfold notna. apply _. Defined.

Inductive exn : Type := ValueError | TypeError | AssertionError.

Inductive result (A : Type) : Type :=
| OK (a : A)
| Raise (e : exn).
Arguments OK {A} a.
Arguments Raise {A} e.

#[global] Instance result_ret : MRet result := λ A a, OK a.
#[global] Instance result_bind : MBind result :=
  λ A B f m, match m with OK a => f a | Raise e => Raise e end.
#[global] Instance result_fmap : FMap result :=
  λ A B f m, match m with OK a => OK (f a) | Raise e => Raise e end.

(** A column-wise conversion that raises at the first cell it cannot
    convert. *)
Fixpoint traverse {A B} (f : A → result B) (l : list A) : result (list B) :=
  match l with
  | [] => OK []
  | x :: l' =>
      match f x with
      | Raise e => Raise e
      | OK y => match traverse f l' with
                | Raise e => Raise e
                | OK k => OK (y :: k)
                end
      end
  end.

(** ** DataFrames *)

Abbreviation frame R := (list (nat * R)).

(** [pd.read_csv]: a RangeIndex 0..n-1. *)
Definition read_csv {R} (rows : list R) : frame R := imap pair rows.

Definition index_lt {R} : relation (nat * R) := λ x y, x.1 < y.1.
Definition index_le {R} : relation (nat * R) := λ x y, x.1 ≤ y.1.

#[global] Instance index_le_dec {R} : RelDecision (@index_le R).
Proof. intros x y. unfold index_le. apply _. Defined.

(** The shape of every frame the script builds by selection from a
    frame read from a file: labels strictly increase. *)
Definition index_increasing {R} (df : frame R) : Prop :=
  StronglySorted index_lt df.

(** [df.loc[mask]] / [df[mask]] for a mask computed row by row. *)
Definition loc {R} (P : R → Prop) `{∀ r, Decision (P r)} (df : frame R) : frame R :=
  filter (λ x, P x.2) df.

(** [df[col] = f(df[col])], element-wise. *)
Definition assign {R S} (f : R → S) (df : frame R) : frame S :=
  prod_map id f <$> df.

(** Element-wise conversion that may raise. *)
Definition assignM {R S} (f : R → result S) (df : frame R) : result (frame S) :=
  traverse (λ x, match f x.2 with OK s => OK (x.1, s) | Raise e => Raise e end) df.

(** [df.drop_duplicates(subset=key, keep='first')]: a row is dropped when
    an earlier row has the same key.  pandas compares missing values as
    equal here, as term equality does on [NaN]. *)
Fixpoint drop_duplicates_from {R K} `{EqDecision K}
    (key : R → K) (seen : list K) (df : frame R) : frame R :=
  match df with
  | [] => []
  | x :: df' =>
      if decide (key x.2 ∈ seen) then drop_duplicates_from key seen df'
      else x :: drop_duplicates_from key (key x.2 :: seen) df'
  end.

Definition drop_duplicates_subset {R K} `{EqDecision K}
    (key : R → K) (df : frame R) : frame R :=
  drop_duplicates_from key [] df.

Definition drop_duplicates {R} `{EqDecision R} (df : frame R) : frame R :=
  drop_duplicates_subset id df.

(** [df.duplicated(subset=key, keep=False)]: the mask of the rows whose
    key occurs in some other row too. *)
Definition duplicated {R K} `{EqDecision K}
    (key : R → K) (df : frame R) (x : nat * R) : Prop :=
  1 < length (filter (λ y, key y.2 = key x.2) df).

#[global] Instance duplicated_dec {R K} `{EqDecision K}
    (key : R → K) (df : frame R) x : Decision (duplicated key df x).
Proof. unfold duplicated. apply _. Defined.

(** [df.sort_index()]. *)
Definition sort_index {R} (df : frame R) : frame R := merge_sort index_le df.

(** [pd.merge(left, right, left_on=, right_on=, how='left')]: every left
    row once per matching right row, in left order; a left row without a
    match is kept once, the right columns missing ([None]).  Missing keys
    match each other, as in pandas. *)
Definition merge_left {L R K} `{EqDecision K}
    (left_on : L → K) (right_on : R → K)
    (left : list L) (right : list R) : list (L * option R) :=
  left ≫= λ l,
    match filter (λ r, right_on r = left_on l) right with
    | [] => [(l, None)]
    | ms => (λ r, (l, Some r)) <$> ms
    end.

(** ** The three tables *)

(** Dates as [pd.to_datetime] yields them once the time zone is dropped;
    [tod] is the time of day in microseconds. *)
Record datetime : Type := mk_datetime { year : Z; month : Z; day : Z; tod : Z }.

#[global] Instance datetime_eq_dec : EqDecision datetime.
Proof. solve_decision. Defined.

(** Chronological order, as a boolean. *)
Definition datetime_leb (a b : datetime) : bool :=
  if decide (year a = year b) then
    if decide (month a = month b) then
      if decide (day a = day b) then (tod a <=? tod b)%Z
      else (day a <? day b)%Z
    else (month a <? month b)%Z
  else (year a <? year b)%Z.

(** USER_TAKEHOME.csv.  The two date columns change type while the table
    is cleaned and AGE and ACCOUNT_AGE_MONTHS are added, so the row is
    parameterised by the types of these four columns; [user_other] holds
    the columns the script never names. *)
Record user_row (C B A M : Type) : Type := mk_user {
  ID : cell;
  CREATED_DATE : C;
  BIRTH_DATE : B;
  GENDER : cell;
  user_other : list cell;
  AGE : A;
  ACCOUNT_AGE_MONTHS : M }.
Arguments mk_user {C B A M}.
Arguments ID {C B A M}.
Arguments CREATED_DATE {C B A M}.
Arguments BIRTH_DATE {C B A M}.
Arguments GENDER {C B A M}.
Arguments user_other {C B A M}.
Arguments AGE {C B A M}.
Arguments ACCOUNT_AGE_MONTHS {C B A M}.

#[global] Instance user_row_eq_dec `{EqDecision C, EqDecision B, EqDecision A, EqDecision M} :
  EqDecision (user_row C B A M).
Proof. solve_decision. Defined.

(** A user row as read: both dates are text or missing. *)
Abbreviation user_raw := (user_row (option string) (option string) unit unit).
(** A user row of the cleaned table. *)
Abbreviation user_clean :=
  (user_row (option datetime) (option datetime) (option Z) (option Z)).

(** TRANSACTION_TAKEHOME.csv; [txn_other] holds the columns the script
    never names (dates, store name). *)
Record transaction_row : Type := mk_transaction {
  RECEIPT_ID : cell;
  USER_ID : cell;
  BARCODE : cell;
  FINAL_QUANTITY : cell;
  FINAL_SALE : cell;
  txn_other : list cell }.

#[global] Instance transaction_row_eq_dec : EqDecision transaction_row.
Proof. solve_decision. Defined.

(** PRODUCTS_TAKEHOME.csv.  The script renames BARCODE to
    BARCODE_products before it uses it. *)
Record product_row : Type := mk_product {
  CATEGORY_1 : cell;
  CATEGORY_2 : cell;
  CATEGORY_3 : cell;
  CATEGORY_4 : cell;
  MANUFACTURER : cell;
  BRAND : cell;
  BARCODE_products : cell }.

#[global] Instance product_row_eq_dec : EqDecision product_row.
Proof. solve_decision. Defined.

(** ** What the script takes from its libraries *)

Class Runtime : Type := {
  (** Python's [float(s)], [None] when it raises ValueError. *)
  py_float : string → option Qc;
  (** [pd.to_numeric] on one text, [None] when it is not a number. *)
  to_numeric : string → option Qc;
  (** [str(x)] of a float. *)
  float_repr : Qc → string;
  (** [pd.to_datetime(col, errors='coerce')] on one text of the column
      [col] (pandas guesses the format from the column), [None] for NaT. *)
  to_datetime : list (option string) → string → option datetime;
  (** The reading of [datetime.now()] at its k-th call. *)
  now : nat → datetime;
  (** [relativedelta(dt1, dt2)]: its [years] and [months]. *)
  relativedelta : datetime → datetime → Z * Z;
  (** What [calculate_age_precise] and [calculate_account_age_months]
      do with NaT, which they hand to [relativedelta]. *)
  calculate_age_NaT : result (option Z);
  calculate_account_age_months_NaT : result (option Z);
  (** [df.sort_values(col, ascending=False)] with the default
      [kind='quicksort'], [col] given as a function of the row. *)
  sort_values : (product_row → nat) → frame product_row → frame product_row;
  (** SQLite's [ORDER BY total_sales DESC] on (BRAND, total_sales) rows. *)
  order_by_desc : list (cell * Qc) → list (cell * Qc);
  (** SQLite's [SUM] over the REAL values of one group, given in the
      order of the table: a sum of doubles, rounded as SQLite rounds it,
      which need not be the exact sum of the values. *)
  sql_sum : list Qc → Qc }.

(** The contract of [sort_values]: the same rows, in descending order of
    the column.  pandas promises nothing on the order of equal values
    unless [kind] is 'stable' or 'mergesort'. *)
Definition sort_values_contract `{Runtime} : Prop :=
  ∀ by_ df, sort_values by_ df ≡ₚ df ∧
            Sorted (λ x y, by_ y.2 ≤ by_ x.2) (sort_values by_ df).

(** [x] comes before [y] in [l]. *)
Definition comes_before {A} (x y : A) (l : list A) : Prop :=
  ∃ l1 l2 l3, l = l1 ++ x :: l2 ++ y :: l3.

(** What [kind='stable'] would add: rows with equal values keep their
    order. *)
Definition sort_values_stable `{Runtime} : Prop :=
  ∀ by_ df x y, comes_before x y df → by_ x.2 = by_ y.2 →
                comes_before x y (sort_values by_ df).

(** The contract of [ORDER BY ... DESC]. *)
Definition order_by_contract `{Runtime} : Prop :=
  ∀ l, order_by_desc l ≡ₚ l ∧ Sorted (λ x y, (y.2 ≤ x.2)%Qc) (order_by_desc l).

(** ** Cleaning *)

Definition qc (n : Z) (d : positive) : Qc := Q2Qc (n # d).

(** [Series.replace(to_replace, value)] on one cell: a cell equal to one
    of [to_replace] becomes [value], any other is left as it is. *)
Definition replace (to_replace : list cell) (value : cell) (c : cell) : cell :=
  if decide (c ∈ to_replace) then value else c.

(** [Series.astype(str)]: pandas 2.x turns a missing value into the text
    'nan'. *)
Definition astype_str `{Runtime} (c : cell) : cell :=
  match c with
  | NaN => Str "nan"
  | Str s => Str s
  | Num q => Str (float_repr q)
  end.

(** [Series.astype(float)]: raises on a text that is not a number. *)
Definition astype_float `{Runtime} (c : cell) : result cell :=
  match c with
  | NaN => OK NaN
  | Num q => OK (Num q)
  | Str s => match py_float s with
             | Some q => OK (Num q)
             | None => Raise ValueError
             end
  end.

(** [pd.to_numeric(_, errors='coerce')]. *)
Definition to_numeric_coerce `{Runtime} (c : cell) : cell :=
  match c with
  | NaN => NaN
  | Num q => Num q
  | Str s => match to_numeric s with
             | Some q => Num q
             | None => NaN
             end
  end.

(** [pd.to_datetime(_, errors='coerce')] on one cell of the column [col]. *)
Definition to_datetime_coerce `{Runtime}
    (col : list (option string)) (c : option string) : option datetime :=
  match c with
  | None => None
  | Some s => to_datetime col s
  end.

(** [Series.apply(f)] for an [f] that reads the clock: the rows are
    visited in order, [k] counts the calls made so far. *)
Fixpoint applyM {R T} (f : nat → R → result T) (k : nat) (df : frame R)
    : result (frame T) :=
  match df with
  | [] => OK []
  | x :: df' =>
      match f k x.2 with
      | Raise e => Raise e
      | OK t => match applyM f (S k) df' with
                | Raise e => Raise e
                | OK out => OK ((x.1, t) :: out)
                end
      end
  end.

(** *** Users *)

Definition texts_to_replace_missing : list cell :=
  [Str "prefer_not_to_say"; Str "Prefer not to say"; Str "unknown";
   Str "not_listed"; Str "not_specified"; Str "My gender isn't listed"].

Definition texts_to_replace_non_binary : list cell :=
  [Str "non_binary"; Str "Non-Binary"].

(** The two [replace] calls on GENDER, in the script's order. *)
Definition normalize_gender (g : cell) : cell :=
  replace texts_to_replace_non_binary (Str "non_binary")
    (replace texts_to_replace_missing NaN g).

(** [user['BIRTH_DATE'] >= '1925-01-01'] on the column as read: a
    comparison of texts, code point by code point; false on a missing
    value. *)
Definition birth_date_ge_1925 (b : option string) : Prop :=
  match b with
  | Some s => String.leb "1925-01-01" s = true
  | None => False
  end.

#[global] Instance birth_date_ge_1925_dec b : Decision (birth_date_ge_1925 b).
Proof. destruct b; simpl; apply _. Defined.

Definition calculate_age_precise `{Runtime}
    (k : nat) (birthdate : option datetime) : result (option Z) :=
  match birthdate with
  | Some d => OK (Some (relativedelta (now k) d).1)
  | None => calculate_age_NaT
  end.

Definition calculate_account_age_months `{Runtime}
    (k : nat) (creation_date : option datetime) : result (option Z) :=
  match creation_date with
  | Some d => let rd := relativedelta (now k) d in OK (Some (rd.1 * 12 + rd.2)%Z)
  | None => calculate_account_age_months_NaT
  end.

(** [user['AGE'] >= 13]: false on a missing age. *)
Definition age_ge_13 (a : option Z) : Prop :=
  match a with
  | Some n => (13 ≤ n)%Z
  | None => False
  end.

#[global] Instance age_ge_13_dec a : Decision (age_ge_13 a).
Proof. destruct a; simpl; apply _. Defined.

(** A user row once BIRTH_DATE is a date. *)
Abbreviation user_parsed := (user_row (option string) (option datetime) unit unit).
(** A user row once AGE is there. *)
Abbreviation user_aged := (user_row (option string) (option datetime) (option Z) unit).

(** [read_csv] types a column in which no row has a text as float64,
    and line 102, which compares the column with a text, then raises
    TypeError.  (A table without rows has its columns typed object.  The
    dates of the file are texts or missing: a column that [read_csv]
    would type as numbers is outside the model.) *)
Definition birth_date_column_is_float (user : frame user_raw) : Prop :=
  user ≠ [] ∧ Forall (λ x, BIRTH_DATE x.2 = None) user.

#[global] Instance birth_date_column_is_float_dec user :
  Decision (birth_date_column_is_float user).
Proof. unfold birth_date_column_is_float. apply _. Defined.

(** The rows of the user table up to the conversion of BIRTH_DATE, when
    line 102 does not raise. *)
Definition users_parsed `{Runtime} (user : frame user_raw) : frame user_parsed :=
  (* Drop duplicate rows *)
  let user := drop_duplicates user in
  (* Remove birthdays prior to 1925 *)
  let user := loc (λ r, birth_date_ge_1925 (BIRTH_DATE r)) user in
  (* GENDER: both replacements *)
  let user :=
    assign (λ r : user_raw,
      mk_user (ID r) (CREATED_DATE r) (BIRTH_DATE r)
        (replace texts_to_replace_missing NaN (GENDER r)) (user_other r) () ()) user in
  let user :=
    assign (λ r : user_raw,
      mk_user (ID r) (CREATED_DATE r) (BIRTH_DATE r)
        (replace texts_to_replace_non_binary (Str "non_binary") (GENDER r))
        (user_other r) () ()) user in
  (* BIRTH_DATE to datetime *)
  let birth_col := (λ x : nat * user_raw, BIRTH_DATE x.2) <$> user in
  assign (λ r : user_raw,
    mk_user (ID r) (CREATED_DATE r) (to_datetime_coerce birth_col (BIRTH_DATE r))
      (GENDER r) (user_other r) () ()) user.

(** The user table with its AGE column, before the age filter. *)
Definition users_aged `{Runtime} (user : frame user_raw) : result (frame user_aged) :=
  if decide (birth_date_column_is_float user) then
    (* line 102: a float column compared with a text *)
    Raise TypeError
  else
    applyM (λ k (r : user_parsed),
      match calculate_age_precise k (BIRTH_DATE r) with
      | Raise e => Raise e
      | OK a => OK (mk_user (ID r) (CREATED_DATE r) (BIRTH_DATE r)
                      (GENDER r) (user_other r) a ())
      end) 0 (users_parsed user).

Definition clean_users `{Runtime} (user : frame user_raw) : result (frame user_clean) :=
  match users_aged user with
  | Raise e => Raise e
  | OK [] =>
      (* line 127: [apply] on a column without rows returns it as it is, a
         datetime column, which cannot be compared with 13 *)
      Raise TypeError
  | OK aged =>
      (* Drop users under age 13 *)
      let user := loc (λ r : user_aged, age_ge_13 (AGE r)) aged in
      (* CREATED_DATE to datetime *)
      let created_col := (λ x : nat * user_aged, CREATED_DATE x.2) <$> user in
      let user :=
        assign (λ r : user_aged,
          mk_user (ID r) (to_datetime_coerce created_col (CREATED_DATE r))
            (BIRTH_DATE r) (GENDER r) (user_other r) (AGE r) ()) user in
      (* ACCOUNT_AGE_MONTHS; the clock has been read once per aged row *)
      applyM (λ k (r : user_row (option datetime) (option datetime) (option Z) unit),
        match calculate_account_age_months k (CREATED_DATE r) with
        | Raise e => Raise e
        | OK m => OK (mk_user (ID r) (CREATED_DATE r) (BIRTH_DATE r)
                        (GENDER r) (user_other r) (AGE r) m)
        end) (length aged) user
  end.

(** *** Transactions *)

Definition set_FINAL_QUANTITY (q : cell) (r : transaction_row) : transaction_row :=
  mk_transaction (RECEIPT_ID r) (USER_ID r) (BARCODE r) q (FINAL_SALE r) (txn_other r).

Definition set_FINAL_SALE (s : cell) (r : transaction_row) : transaction_row :=
  mk_transaction (RECEIPT_ID r) (USER_ID r) (BARCODE r) (FINAL_QUANTITY r) s (txn_other r).

Definition set_BARCODE (b : cell) (r : transaction_row) : transaction_row :=
  mk_transaction (RECEIPT_ID r) (USER_ID r) b (FINAL_QUANTITY r) (FINAL_SALE r) (txn_other r).

(** The three steps on one FINAL_QUANTITY cell: [replace({'zero': '0'})],
    [astype(float)], [replace({276: 2.76})]. *)
Definition clean_quantity `{Runtime} (c : cell) : result cell :=
  match astype_float (replace [Str "zero"] (Str "0") c) with
  | Raise e => Raise e
  | OK f => OK (replace [Num (qc 276 1)] (Num (qc 276 100)) f)
  end.

(** [df.drop('FINAL_SALE', axis=1)] on one row. *)
Definition subset_no_sales (r : transaction_row) :
    cell * cell * cell * cell * list cell :=
  (RECEIPT_ID r, USER_ID r, BARCODE r, FINAL_QUANTITY r, txn_other r).

Definition remove_duplicate_missing_sales (df : frame transaction_row)
    : frame transaction_row :=
  let duplicates := duplicated subset_no_sales df in
  let valid_sales_duplicates :=
    filter (λ x, duplicates x ∧ notna (FINAL_SALE x.2)) df in
  let non_duplicates := filter (λ x, ¬ duplicates x) df in
  sort_index (non_duplicates ++ valid_sales_duplicates).

(** The column conversions of the transaction table on one row, in the
    script's order. *)
Definition coerce_transaction `{Runtime} (r : transaction_row) : result transaction_row :=
  match clean_quantity (FINAL_QUANTITY r) with
  | Raise e => Raise e
  | OK q =>
      OK (mk_transaction (RECEIPT_ID r) (USER_ID r) (astype_str (BARCODE r)) q
            (to_numeric_coerce (FINAL_SALE r)) (txn_other r))
  end.

(** The transaction table up to the call of
    [remove_duplicate_missing_sales]. *)
Definition transactions_coerced `{Runtime} (transaction : frame transaction_row)
    : result (frame transaction_row) :=
  (* Drop duplicate rows *)
  let transaction := drop_duplicates transaction in
  (* FINAL_QUANTITY: 'zero', float, 276 *)
  let transaction :=
    assign (λ r, set_FINAL_QUANTITY (replace [Str "zero"] (Str "0") (FINAL_QUANTITY r)) r)
      transaction in
  match assignM (λ r,
          match astype_float (FINAL_QUANTITY r) with
          | Raise e => Raise e
          | OK q => OK (set_FINAL_QUANTITY q r)
          end) transaction with
  | Raise e => Raise e
  | OK transaction =>
      let transaction :=
        assign (λ r, set_FINAL_QUANTITY
                       (replace [Num (qc 276 1)] (Num (qc 276 100)) (FINAL_QUANTITY r)) r)
          transaction in
      (* FINAL_SALE to numeric *)
      let transaction :=
        assign (λ r, set_FINAL_SALE (to_numeric_coerce (FINAL_SALE r)) r) transaction in
      (* BARCODE to string *)
      OK (assign (λ r, set_BARCODE (astype_str (BARCODE r)) r) transaction)
  end.

Definition clean_transactions `{Runtime} (transaction : frame transaction_row)
    : result (frame transaction_row) :=
  match transactions_coerced transaction with
  | Raise e => Raise e
  | OK transaction => OK (remove_duplicate_missing_sales transaction)
  end.

(** *** Products *)

Definition set_BARCODE_products (b : cell) (r : product_row) : product_row :=
  mk_product (CATEGORY_1 r) (CATEGORY_2 r) (CATEGORY_3 r) (CATEGORY_4 r)
    (MANUFACTURER r) (BRAND r) b.

(** [row.notna().sum()] over all the columns. *)
Definition non_missing_count (r : product_row) : nat :=
  length (filter notna
    [CATEGORY_1 r; CATEGORY_2 r; CATEGORY_3 r; CATEGORY_4 r;
     MANUFACTURER r; BRAND r; BARCODE_products r]).

Definition get_duplicate_barcode_products (products_df : frame product_row)
    : frame product_row :=
  let duplicate_barcodes := duplicated BARCODE_products products_df in
  filter duplicate_barcodes products_df.

(** The script's own notion of a missing barcode:
    [isin([np.nan, 'N/A', '', 'nan'])]. *)
Definition barcode_is_missing (c : cell) : Prop :=
  c ∈ [NaN; Str "N/A"; Str EmptyString; Str "nan"].

#[global] Instance barcode_is_missing_dec c : Decision (barcode_is_missing c).
Proof. unfold barcode_is_missing. apply _. Defined.

(** The rows [keep_most_complete_duplicates] selects among the
    duplicated ones.  The helper column non_missing_count is a function
    of the row; it is added before the sort and dropped after it. *)
Definition most_complete_rows `{Runtime} {K} `{EqDecision K}
    (df : frame product_row) (duplicate_column : product_row → K)
    : frame product_row :=
  let duplicate_rows := filter (duplicated duplicate_column df) df in
  drop_duplicates_subset duplicate_column
    (sort_values non_missing_count duplicate_rows).

Definition keep_most_complete_duplicates `{Runtime} {K} `{EqDecision K}
    (df : frame product_row) (duplicate_column : product_row → K)
    : frame product_row :=
  let duplicates := duplicated duplicate_column df in
  let duplicate_rows := filter duplicates df in
  let non_duplicate_rows := filter (λ x, ¬ duplicates x) df in
  if decide (duplicate_rows = []) then df
  else
    sort_index (non_duplicate_rows ++ most_complete_rows df duplicate_column).

(** The products table up to the renaming of BARCODE, which is where the
    script takes [duplicate_products_df] from. *)
Definition products_prepared `{Runtime} (products : frame product_row)
    : frame product_row :=
  (* Drop duplicate rows *)
  let products := drop_duplicates products in
  (* Drop the 'Needs Review' placeholder *)
  let products := loc (λ r, CATEGORY_1 r ≠ Str "Needs Review") products in
  (* BARCODE to string *)
  assign (λ r, set_BARCODE_products (astype_str (BARCODE_products r)) r) products.

Definition duplicate_products_df `{Runtime} (products : frame product_row)
    : frame product_row :=
  get_duplicate_barcode_products (products_prepared products).

Definition clean_products `{Runtime} (products : frame product_row)
    : frame product_row :=
  let products := products_prepared products in
  (* Drop missing BARCODE rows *)
  let products := loc (λ r, notna (BARCODE_products r)) products in
  keep_most_complete_duplicates products BARCODE_products.

(** ** Join *)

(** A row of the joined table: the transaction's columns, the matched
    user's and the matched product's; an unmatched side is all missing. *)
Record merged_row : Type := mk_merged {
  m_transaction : transaction_row;
  m_user : option user_clean;
  m_product : option product_row }.

(** The two merges; the right key column dropped after each merge
    repeats the left key of the matched rows. *)
Definition merged_data (transaction : frame transaction_row)
    (user : frame user_clean) (products : frame product_row) : list merged_row :=
  let merged := merge_left USER_ID ID (transaction.*2) (user.*2) in
  let merged :=
    merge_left (λ x : transaction_row * option user_clean, BARCODE x.1)
      BARCODE_products merged (products.*2) in
  (λ x, mk_merged x.1.1 x.1.2 x.2) <$> merged.

(** A product column of the joined table. *)
Definition product_col (col : product_row → cell) (m : merged_row) : cell :=
  from_option col NaN (m_product m).

(** ** Query 3: the leading brand of Dips & Salsa *)

(** The WHERE clause; a comparison with NULL is not true. *)
Definition dips_salsa_where (m : merged_row) : Prop :=
  (product_col CATEGORY_2 m = Str "Dips & Salsa" ∨
   product_col CATEGORY_3 m = Str "Dips & Salsa") ∧
  product_col BRAND m ≠ NaN ∧
  FINAL_SALE (m_transaction m) ≠ NaN.

#[global] Instance dips_salsa_where_dec m : Decision (dips_salsa_where m).
Proof. unfold dips_salsa_where. apply _. Defined.

(** FINAL_SALE as SUM reads it; it is a number or missing once cleaned. *)
Definition sale_amount (m : merged_row) : Qc :=
  match FINAL_SALE (m_transaction m) with
  | Num q => q
  | _ => Q2Qc 0
  end.

(** [SUM(FINAL_SALE)] over the rows of one group. *)
Definition total_sales `{Runtime} (rows : list merged_row) : Qc :=
  sql_sum (sale_amount <$> rows).

(** GROUP BY BRAND with SUM(FINAL_SALE). *)
Definition group_by_brand `{Runtime} (rows : list merged_row) : list (cell * Qc) :=
  (λ b, (b, total_sales (filter (λ m, product_col BRAND m = b) rows)))
    <$> remove_dups (product_col BRAND <$> rows).

Definition get_leading_dips_salsa_brand `{Runtime} (merged_df : list merged_row)
    : list (cell * Qc) :=
  take 1 (order_by_desc (group_by_brand (filter dips_salsa_where merged_df))).

(** ** Queries 1 and 2: the top five brands *)

(** A column that the joined table takes from the users table: missing
    when no user matched the transaction. *)
Definition user_col (col : user_clean → option Z) (m : merged_row) : option Z :=
  m_user m ≫= col.

(** [col >= n] in a WHERE clause; a comparison with NULL is not true. *)
Definition sql_ge (v : option Z) (n : Z) : Prop :=
  match v with
  | Some a => (n ≤ a)%Z
  | None => False
  end.

#[global] Instance sql_ge_dec v n : Decision (sql_ge v n).
Proof. destruct v; simpl; apply _. Defined.

(** GROUP BY BRAND with an aggregate over the rows of each brand. *)
Definition group_by_brand_with {V} (aggregate : list merged_row → V)
    (rows : list merged_row) : list (cell * V) :=
  (λ b, (b, aggregate (filter (λ m, product_col BRAND m = b) rows)))
    <$> remove_dups (product_col BRAND <$> rows).

(** Query 1's WHERE clause: [AGE >= 21 AND BRAND IS NOT NULL]. *)
Definition users_over_21_where (m : merged_row) : Prop :=
  sql_ge (user_col AGE m) 21 ∧ product_col BRAND m ≠ NaN.

#[global] Instance users_over_21_where_dec m : Decision (users_over_21_where m).
Proof. unfold users_over_21_where. apply _. Defined.

(** [COUNT(DISTINCT RECEIPT_ID)]: the distinct values, NULL not counted. *)
Definition count_distinct_receipt_id (rows : list merged_row) : nat :=
  length (remove_dups (filter notna ((λ m, RECEIPT_ID (m_transaction m)) <$> rows))).

(** SQLite's [ORDER BY receipt_count DESC] on (BRAND, receipt_count)
    rows. *)
Class CountOrder : Type := {
  order_by_count_desc : list (cell * nat) → list (cell * nat) }.

(** Its contract, as for [order_by_desc]. *)
Definition order_by_count_contract `{CountOrder} : Prop :=
  ∀ l, order_by_count_desc l ≡ₚ l ∧ Sorted (λ x y, y.2 ≤ x.2) (order_by_count_desc l).

Definition get_top_5_brands_by_receipts_users_over_21 `{CountOrder}
    (merged_df : list merged_row) : list (cell * nat) :=
  take 5 (order_by_count_desc
            (group_by_brand_with count_distinct_receipt_id
               (filter users_over_21_where merged_df))).

(** Query 2's WHERE clause: [ACCOUNT_AGE_MONTHS >= 6 AND BRAND IS NOT NULL
    AND FINAL_SALE IS NOT NULL]. *)
Definition account_over_6_months_where (m : merged_row) : Prop :=
  sql_ge (user_col ACCOUNT_AGE_MONTHS m) 6 ∧
  product_col BRAND m ≠ NaN ∧
  FINAL_SALE (m_transaction m) ≠ NaN.

#[global] Instance account_over_6_months_where_dec m :
  Decision (account_over_6_months_where m).
Proof. unfold account_over_6_months_where. apply _. Defined.

Definition get_top_5_brands_by_sales_account_over_6_months `{Runtime}
    (merged_df : list merged_row) : list (cell * Qc) :=
  take 5 (order_by_desc (group_by_brand (filter account_over_6_months_where merged_df))).

(** ** The counts reported on the duplicated barcodes *)

(** [Series.nunique()]: the number of distinct values, missing ones
    aside. *)
Definition nunique (col : list cell) : nat :=
  length (remove_dups (filter notna col)).

(** [duplicate_products_df['BARCODE_products'].nunique()]. *)
Definition duplicate_count `{Runtime} (products : frame product_row) : nat :=
  nunique ((λ x, BARCODE_products x.2) <$> duplicate_products_df products).

(** [duplicate_products_df['BARCODE_products'].isin([np.nan, 'N/A', '',
    'nan']).sum()]. *)
Definition missing_count `{Runtime} (products : frame product_row) : nat :=
  length (filter (λ x, barcode_is_missing (BARCODE_products x.2))
            (duplicate_products_df products)).

(** ** A reference runtime

    One concrete choice for the library behaviour, used to run the
    pipeline on examples: plain decimal literals for numbers, ISO
    (YYYY-MM-DD...) and day-first (DD/MM/YYYY) dates, a clock started on
    the day the script is dated, merge sort, and sums without rounding
    (what a sum of doubles is when every partial sum is a double, as in
    the examples). *)

Definition digit_of (a : ascii) : option Z :=
  let n := Z.of_N (N_of_ascii a) in
  if decide (48 ≤ n ≤ 57)%Z then Some (n - 48)%Z else None.

(** The longest run of digits at the head of [s]: its value, its length
    and the rest of [s]. *)
Fixpoint digits_from (acc : Z) (n : nat) (s : string) : Z * nat * string :=
  match s with
  | String a s' =>
      match digit_of a with
      | Some d => digits_from (10 * acc + d) (S n) s'
      | None => (acc, n, s)
      end
  | EmptyString => (acc, n, s)
  end.

Definition decimal_of_string (s : string) : option Qc :=
  let '(neg, s) :=
    match s with
    | String "-" s' => (true, s')
    | _ => (false, s)
    end in
  let '(ip, ni, rest) := digits_from 0 0 s in
  let '(fp, nf, rest) :=
    match rest with
    | String "." r => digits_from 0 0 r
    | _ => (0%Z, 0, rest)
    end in
  if decide (rest = EmptyString ∧ 0 < ni + nf) then
    let scale := (10 ^ Z.of_nat nf)%Z in
    let v := (ip * scale + fp)%Z in
    Some (qc (if neg then - v else v) (Z.to_pos scale))
  else None.

Fixpoint fraction_digits (fuel : nat) (r d : Z) : string :=
  match fuel with
  | 0 => EmptyString
  | S fuel' =>
      if decide (r = 0%Z) then EmptyString
      else String (ascii_of_N (Z.to_N (48 + (10 * r) / d)))
             (fraction_digits fuel' ((10 * r) mod d) d)
  end.

Fixpoint natural_digits (fuel : nat) (n : Z) (acc : string) : string :=
  match fuel with
  | 0 => acc
  | S fuel' =>
      let acc := String (ascii_of_N (Z.to_N (48 + n mod 10))) acc in
      if decide (n / 10 = 0)%Z then acc else natural_digits fuel' (n / 10) acc
  end.

Definition decimal_repr (q : Qc) : string :=
  let n := Qnum q in
  let d := Zpos (Qden q) in
  let a := Z.abs n in
  let frac := fraction_digits 17 (a mod d) d in
  (if decide (n < 0)%Z then "-" else EmptyString) +:+
  natural_digits 40 (a / d) EmptyString +:+ "." +:+
  (if decide (frac = EmptyString) then "0" else frac).

Fixpoint read_digits (n : nat) (acc : Z) (s : string) : option (Z * string) :=
  match n with
  | 0 => Some (acc, s)
  | S n' =>
      match s with
      | String a s' =>
          match digit_of a with
          | Some d => read_digits n' (10 * acc + d) s'
          | None => None
          end
      | EmptyString => None
      end
  end.

Definition expect (c : ascii) (s : string) : option string :=
  match s with
  | String a s' => if decide (a = c) then Some s' else None
  | EmptyString => None
  end.

Definition valid_date (y m d : Z) : bool :=
  bool_decide (1 ≤ m ≤ 12 ∧ 1 ≤ d ≤ 31)%Z.

(** YYYY-MM-DD, whatever follows (the data carries a time and a zone). *)
Definition parse_iso (s : string) : option datetime :=
  '(y, s) ← read_digits 4 0 s;
  s ← expect "-" s;
  '(m, s) ← read_digits 2 0 s;
  s ← expect "-" s;
  '(d, s) ← read_digits 2 0 s;
  if valid_date y m d then Some (mk_datetime y m d 0) else None.

(** DD/MM/YYYY. *)
Definition parse_day_first (s : string) : option datetime :=
  '(d, s) ← read_digits 2 0 s;
  s ← expect "/" s;
  '(m, s) ← read_digits 2 0 s;
  s ← expect "/" s;
  '(y, s) ← read_digits 4 0 s;
  if decide (s = EmptyString) then
    if valid_date y m d then Some (mk_datetime y m d 0) else None
  else None.

Definition parse_date (s : string) : option datetime :=
  match parse_iso s with
  | Some d => Some d
  | None => parse_day_first s
  end.

(** Whole years and months from [dt2] to a later [dt1] (the clipping of
    the day at the end of a month left aside). *)
Definition months_between (dt1 dt2 : datetime) : Z * Z :=
  let months := ((year dt1 - year dt2) * 12 + (month dt1 - month dt2))%Z in
  let months :=
    if decide (day dt1 < day dt2 ∨ (day dt1 = day dt2 ∧ tod dt1 < tod dt2))%Z
    then (months - 1)%Z else months in
  (Z.quot months 12, Z.rem months 12).

Definition count_ge (by_ : product_row → nat) : relation (nat * product_row) :=
  λ x y, by_ y.2 ≤ by_ x.2.

#[global] Instance count_ge_dec by_ : RelDecision (count_ge by_).
Proof. intros x y. unfold count_ge. apply _. Defined.

Definition total_ge : relation (cell * Qc) := λ x y, (y.2 ≤ x.2)%Qc.

#[global] Instance total_ge_dec : RelDecision total_ge.
Proof. intros x y. unfold total_ge. apply _. Defined.

(** The reference runtime, for a given [sort_values]. *)
Definition runtime_with (sort : (product_row → nat) → frame product_row → frame product_row)
    : Runtime := {|
  py_float := decimal_of_string;
  to_numeric := decimal_of_string;
  float_repr := decimal_repr;
  to_datetime := λ _ s, parse_date s;
  now := λ k, mk_datetime 2025 3 6 (43200000000 + Z.of_nat k);
  relativedelta := months_between;
  calculate_age_NaT := Raise AssertionError;
  calculate_account_age_months_NaT := Raise AssertionError;
  sort_values := sort;
  order_by_desc := merge_sort total_ge;
  sql_sum := foldr Qcplus (Q2Qc 0) |}.

Definition reference_runtime : Runtime :=
  runtime_with (λ by_ df, merge_sort (count_ge by_) df).

(** A [sort_values] that leaves equal counts in the opposite order, as an
    unstable sort may. *)
Definition ties_reversed_runtime : Runtime :=
  runtime_with (λ by_ df, merge_sort (count_ge by_) (reverse df)).

(** A stable [sort_values], an insertion sort. *)
Fixpoint insert_descending (by_ : product_row → nat) (x : nat * product_row)
    (sorted : frame product_row) : frame product_row :=
  match sorted with
  | [] => [x]
  | y :: sorted' =>
      if decide (by_ x.2 < by_ y.2) then y :: insert_descending by_ x sorted'
      else x :: y :: sorted'
  end.

Definition stable_sort_values (by_ : product_row → nat) (df : frame product_row)
    : frame product_row :=
  foldr (insert_descending by_) [] df.

Definition stable_runtime : Runtime := runtime_with stable_sort_values.

(** *** numpy's quicksort

    What [sort_values] does with its default [kind='quicksort'] when
    numpy runs its scalar introsort (npysort/quicksort.cpp) on the
    counts: pandas' [nargsort] reverses the column for a descending sort,
    asks numpy for the ascending [argsort] and reverses the answer; numpy
    partitions around a median of three while a run has more than 17
    elements and sorts shorter runs by insertion.  The heapsort that
    takes over past the depth limit and the vectorised variants are left
    out. *)

(** [tosort] holds positions of [v]; [key_at v tosort i] is
    [v[tosort[i]]]. *)
Definition key_at (v tosort : list nat) (i : nat) : nat :=
  default 0 (v !! default 0 (tosort !! i)).

(** [INTP_SWAP(tosort[i], tosort[j])]. *)
Definition intp_swap (i j : nat) (tosort : list nat) : list nat :=
  match tosort !! i, tosort !! j with
  | Some a, Some b => <[i:=b]> (<[j:=a]> tosort)
  | _, _ => tosort
  end.

(** [do ++pi; while (v[*pi] < vp)]. *)
Fixpoint scan_up (fuel : nat) (v tosort : list nat) (vp pi : nat) : nat :=
  match fuel with
  | 0 => pi
  | S fuel' =>
      let pi := S pi in
      if decide (key_at v tosort pi < vp) then scan_up fuel' v tosort vp pi else pi
  end.

(** [do --pj; while (vp < v[*pj])]. *)
Fixpoint scan_down (fuel : nat) (v tosort : list nat) (vp pj : nat) : nat :=
  match fuel with
  | 0 => pj
  | S fuel' =>
      let pj := pred pj in
      if decide (vp < key_at v tosort pj) then scan_down fuel' v tosort vp pj else pj
  end.

Fixpoint partition_loop (fuel : nat) (v tosort : list nat) (vp pi pj : nat)
    : list nat * nat :=
  match fuel with
  | 0 => (tosort, pi)
  | S fuel' =>
      let pi := scan_up (length tosort) v tosort vp pi in
      let pj := scan_down (length tosort) v tosort vp pj in
      if decide (pj ≤ pi) then (tosort, pi)
      else partition_loop fuel' v (intp_swap pi pj tosort) vp pi pj
  end.

(** One partition of [tosort[pl..pr]]: the new [tosort] and the place of
    the pivot. *)
Definition quicksort_partition (v tosort : list nat) (pl pr : nat) : list nat * nat :=
  let pm := pl + (pr - pl) / 2 in
  let tosort :=
    if decide (key_at v tosort pm < key_at v tosort pl)
    then intp_swap pm pl tosort else tosort in
  let tosort :=
    if decide (key_at v tosort pr < key_at v tosort pm)
    then intp_swap pr pm tosort else tosort in
  let tosort :=
    if decide (key_at v tosort pm < key_at v tosort pl)
    then intp_swap pm pl tosort else tosort in
  let vp := key_at v tosort pm in
  let tosort := intp_swap pm (pr - 1) tosort in
  let '(tosort, pi) := partition_loop (length tosort) v tosort vp pl (pr - 1) in
  (intp_swap pi (pr - 1) tosort, pi).

(** Insertion of one position into a sorted run, after the positions
    whose value is not larger. *)
Fixpoint insert_position (v : list nat) (x : nat) (run : list nat) : list nat :=
  match run with
  | [] => [x]
  | y :: run' =>
      if decide (default 0 (v !! x) < default 0 (v !! y)) then x :: y :: run'
      else y :: insert_position v x run'
  end.

(** The insertion sort of [tosort[pl..pr]]. *)
Definition insertion_sort_run (v tosort : list nat) (pl pr : nat) : list nat :=
  let run := take (S pr - pl) (drop pl tosort) in
  take pl tosort ++ foldl (λ sorted x, insert_position v x sorted) [] run
    ++ drop (S pr) tosort.

Fixpoint aquicksort (fuel : nat) (v tosort : list nat) (pl pr : nat) : list nat :=
  match fuel with
  | 0 => tosort
  | S fuel' =>
      if decide (16 < pr - pl) then
        let '(tosort, pi) := quicksort_partition v tosort pl pr in
        let tosort := aquicksort fuel' v tosort pl (pi - 1) in
        aquicksort fuel' v tosort (pi + 1) pr
      else insertion_sort_run v tosort pl pr
  end.

(** [v.argsort(kind='quicksort')]. *)
Definition numpy_argsort (v : list nat) : list nat :=
  aquicksort (length v) v (seq 0 (length v)) 0 (length v - 1).

(** pandas' [nargsort(items, ascending=False)]. *)
Definition nargsort_descending (items : list nat) : list nat :=
  let non_nans := reverse items in
  let non_nan_idx := reverse (seq 0 (length items)) in
  reverse (omap (λ k, non_nan_idx !! k) (numpy_argsort non_nans)).

Definition numpy_sort_values (by_ : product_row → nat) (df : frame product_row)
    : frame product_row :=
  omap (λ i, df !! i) (nargsort_descending ((λ x, by_ x.2) <$> df)).

(** numpy's scalar quicksort for [sort_values]. *)
Definition numpy_runtime : Runtime := runtime_with numpy_sort_values.

(** ** Example tables *)

Definition example_transaction (quantity sale : cell) : transaction_row :=
  mk_transaction (Str "receipt-1") (Str "user-1") (Num (qc 123 1)) quantity sale
    [Str "2024-08-21"; Str "WALMART"].

Definition example_product (barcode brand category_2 : cell) : product_row :=
  mk_product (Str "Snacks") category_2 NaN NaN NaN brand barcode.

Definition example_user (id : string) (birth : string) (gender : cell) : user_raw :=
  mk_user (Str id) (Some "2020-01-01 00:00:00.000 Z") (Some birth) gender
    [Str "CA"; Str "en"] () ().

Definition example_user_clean (id : string) : user_clean :=
  mk_user (Str id) (Some (mk_datetime 2020 1 1 0)) (Some (mk_datetime 1990 5 17 0))
    (Str "female") [Str "CA"; Str "en"] (Some 34%Z) (Some 62%Z).

Definition example_merged (brand category_2 sale : cell) : merged_row :=
  mk_merged (set_BARCODE (Str "123.0") (example_transaction (Num (qc 1 1)) sale))
    (Some (example_user_clean "user-1"))
    (Some (example_product (Str "123.0") brand category_2)).

(** Nine barcodes, each on two rows that differ in the brand only, so
    that all eighteen rows have three non-missing fields. *)
Definition tied_products : list product_row :=
  ["101"; "102"; "103"; "104"; "105"; "106"; "107"; "108"; "109"] ≫= λ barcode,
    [example_product (Str barcode) (Str "FIRST") NaN;
     example_product (Str barcode) (Str "SECOND") NaN].

(** A merge sort for [ORDER BY receipt_count DESC]. *)
Definition count_order_ge : relation (cell * nat) := λ x y, y.2 ≤ x.2.

#[global] Instance count_order_ge_dec : RelDecision count_order_ge.
Proof. intros x y. unfold count_order_ge. apply _. Defined.

Definition reference_count_order : CountOrder :=
  {| order_by_count_desc := merge_sort count_order_ge |}.

(** A row of the joined table: a receipt of a user of a given age and
    account age, for a product of a given brand. *)
Definition example_receipt (receipt : string) (age months : Z) (brand sale : cell)
    : merged_row :=
  mk_merged
    (mk_transaction (Str receipt) (Str "user-1") (Str "123.0") (Num (qc 1 1)) sale
       [Str "2024-08-21"; Str "WALMART"])
    (Some (mk_user (Str "user-1") (Some (mk_datetime 2020 1 1 0))
             (Some (mk_datetime 1990 5 17 0)) (Str "female") [Str "CA"; Str "en"]
             (Some age) (Some months)))
    (Some (example_product (Str "123.0") brand NaN)).

(** A joined table with seven brands: TRIDENT bought by a user of 20,
    NERDS CANDY by an account of three months, one row without a brand,
    one without a sale amount, and receipt r1 and r7 on two rows each. *)
Definition example_joined : list merged_row :=
  [example_receipt "r1" 34 62 (Str "DOVE") (Num (qc 3 1));
   example_receipt "r1" 34 62 (Str "DOVE") (Num (qc 3 1));
   example_receipt "r2" 34 62 (Str "DOVE") (Num (qc 1 1));
   example_receipt "r3" 20 62 (Str "TRIDENT") (Num (qc 9 1));
   example_receipt "r4" 21 3 (Str "NERDS CANDY") (Num (qc 9 1));
   example_receipt "r5" 40 7 NaN (Num (qc 9 1));
   example_receipt "r6" 40 7 (Str "CVS") NaN;
   example_receipt "r7" 40 7 (Str "CVS") (Num (qc 5 2));
   example_receipt "r7" 40 7 (Str "CVS") (Num (qc 1 2));
   example_receipt "r8" 50 12 (Str "COORS LIGHT") (Num (qc 2 1));
   example_receipt "r9" 50 12 (Str "TOSTITOS") (Num (qc 4 1));
   example_receipt "r10" 50 12 (Str "FRITOS") (Num (qc 1 1))].

(** A transaction without a barcode, as read and as cleaned, and a
    products table with a row without a barcode. *)
Definition example_no_barcode : transaction_row :=
  set_BARCODE NaN (example_transaction (Str "1") (Str "1.50")).

Definition example_no_barcode_cleaned : transaction_row :=
  mk_transaction (Str "receipt-1") (Str "user-1") (Str "nan") (Num (qc 1 1))
    (Num (qc 150 100)) [Str "2024-08-21"; Str "WALMART"].

Definition example_no_barcode_products : list product_row :=
  [example_product (Str "111") NaN NaN; example_product NaN (Str "DOVE") NaN].

(** * Properties *)

Example decimal_of_string_ex :
  decimal_of_string "2.76" = Some (qc 276 100) ∧
  decimal_of_string "276" = Some (qc 276 1) ∧
  decimal_of_string "0" = Some (qc 0 1) ∧
  decimal_of_string "zero" = None ∧
  decimal_of_string EmptyString = None.
Proof. vm_compute. repeat split; reflexivity. Qed.

(** ** Frames *)

Section frames.
Context {R : Type}.
Implicit Types df l : frame R.

#[local] Instance index_le_trans : Transitive (@index_le R).
Proof. intros x y z. unfold index_le. lia. Qed.

#[local] Instance index_le_total : Total (@index_le R).
Proof. intros x y. unfold index_le. lia. Qed.

Lemma index_increasing_sublist l df :
  l `sublist_of` df → index_increasing df → index_increasing l.
Proof.
  unfold index_increasing. intros Hsub. induction Hsub as [|x l1 l2 Hsub IH|x l1 l2 Hsub IH];
    intros Hs.
  - constructor.
  - apply StronglySorted_inv in Hs as [Hs Hall]. constructor; [by apply IH|].
    rewrite Forall_forall in Hall |- *. intros y Hy. apply Hall.
    by apply (sublist_subseteq _ _ Hsub).
  - apply StronglySorted_inv in Hs as [Hs _]. by apply IH.
Qed.

Lemma index_increasing_filter (P : nat * R → Prop) `{∀ x, Decision (P x)} df :
  index_increasing df → index_increasing (filter P df).
Proof. apply index_increasing_sublist, sublist_filter. Qed.

Lemma index_increasing_inj df x y :
  index_increasing df → x ∈ df → y ∈ df → x.1 = y.1 → x = y.
Proof.
  unfold index_increasing. induction 1 as [|a l Hs IH Hall]; intros Hx Hy Heq.
  - by apply elem_of_nil in Hx.
  - rewrite Forall_forall in Hall.
    apply elem_of_cons in Hx as [->|Hx]; apply elem_of_cons in Hy as [->|Hy].
    + done.
    + specialize (Hall _ Hy). unfold index_lt in Hall. lia.
    + specialize (Hall _ Hx). unfold index_lt in Hall. lia.
    + by apply IH.
Qed.

Lemma index_increasing_NoDup df : index_increasing df → NoDup df.
Proof.
  unfold index_increasing. induction 1 as [|a l Hs IH Hall]; constructor; [|done].
  intros Ha. rewrite Forall_forall in Hall. specialize (Hall _ Ha).
  unfold index_lt in Hall. lia.
Qed.

Lemma index_increasing_le df : index_increasing df → StronglySorted index_le df.
Proof.
  unfold index_increasing. induction 1 as [|a l Hs IH Hall]; constructor; [done|].
  eapply Forall_impl; [exact Hall|]. unfold index_lt, index_le. intros; lia.
Qed.

(** Sorting by label any rearrangement of an increasing frame gives the
    frame back. *)
Lemma sort_index_increasing l df :
  index_increasing df → l ≡ₚ df → sort_index l = df.
Proof.
  intros Hs Hp. unfold sort_index.
  apply (StronglySorted_unique_strong index_le).
  - intros x1 x2 H1 H2 Hle1 Hle2.
    rewrite (merge_sort_Permutation index_le l), Hp in H1.
    apply (index_increasing_inj df); [done..|].
    unfold index_le in *. lia.
  - apply StronglySorted_merge_sort; apply _.
  - by apply index_increasing_le.
  - by rewrite merge_sort_Permutation.
Qed.

Lemma filter_or_Permutation (P Q : nat * R → Prop)
    `{∀ x, Decision (P x), ∀ x, Decision (Q x)} df :
  (∀ x, P x → Q x → False) →
  filter P df ++ filter Q df ≡ₚ filter (λ x, P x ∨ Q x) df.
Proof.
  intros Hdisj. induction df as [|x df IH]; [done|].
  rewrite !filter_cons.
  destruct (decide (P x)) as [HP|HP], (decide (Q x)) as [HQ|HQ].
  - destruct (Hdisj x HP HQ).
  - rewrite decide_True by auto. simpl. by rewrite IH.
  - rewrite decide_True by auto. rewrite <- Permutation_middle. by rewrite IH.
  - rewrite decide_False by tauto. done.
Qed.

(** [pd.concat([df[P], df[Q]]).sort_index()] for two disjoint masks is
    the selection [df[P | Q]]. *)
Lemma sort_index_concat (P Q : nat * R → Prop)
    `{∀ x, Decision (P x), ∀ x, Decision (Q x)} df :
  index_increasing df → (∀ x, P x → Q x → False) →
  sort_index (filter P df ++ filter Q df) = filter (λ x, P x ∨ Q x) df.
Proof.
  intros Hs Hdisj. apply sort_index_increasing.
  - by apply index_increasing_filter.
  - by apply filter_or_Permutation.
Qed.

Lemma read_csv_from_increasing (rows : list R) (k : nat) :
  index_increasing (imap (λ i r, (k + i, r)) rows).
Proof.
  unfold index_increasing. revert k. induction rows as [|r rows IH]; intros k; simpl.
  - constructor.
  - constructor.
    + specialize (IH (S k)). erewrite imap_ext; [exact IH|].
      intros i x _. simpl. f_equal. lia.
    + rewrite Forall_forall. intros [j y] Hy.
      apply elem_of_lookup_imap in Hy as (i & x & Heq & _).
      simpl in Heq. injection Heq as -> ->. unfold index_lt. simpl. lia.
Qed.

Lemma read_csv_increasing (rows : list R) : index_increasing (read_csv rows).
Proof. apply (read_csv_from_increasing rows 0). Qed.

Lemma assign_index_increasing {T} (f : R → T) df :
  index_increasing df → index_increasing (assign f df).
Proof.
  unfold index_increasing, assign. induction 1 as [|a l Hs IH Hall]; simpl.
  - constructor.
  - constructor; [done|]. rewrite Forall_fmap. eapply Forall_impl; [exact Hall|].
    intros [j y]. unfold index_lt. simpl. done.
Qed.

End frames.

(** ** Duplicates *)

Section duplicates.
Context {R K : Type} `{EqDecision K} (key : R → K).
Implicit Types df l : frame R.

Lemma drop_duplicates_from_sublist seen df :
  drop_duplicates_from key seen df `sublist_of` df.
Proof.
  revert seen. induction df as [|x df IH]; intros seen; simpl; [done|].
  case_decide.
  - by apply sublist_cons.
  - by apply sublist_skip.
Qed.

(** A row is kept exactly when no earlier row has its key. *)
Lemma elem_of_drop_duplicates_from seen df x :
  x ∈ drop_duplicates_from key seen df ↔
  ∃ l1 l2, df = l1 ++ x :: l2 ∧ (key x.2 ∉ seen) ∧ ∀ y, y ∈ l1 → key y.2 ≠ key x.2.
Proof.
  split.
  - revert seen. induction df as [|a df IH]; intros seen; simpl.
    { intros Hx. by apply elem_of_nil in Hx. }
    case_decide as Ha.
    + intros Hx. destruct (IH _ Hx) as (l1 & l2 & -> & Hseen & Hl1).
      exists (a :: l1), l2. split_and!; [done..|].
      intros y Hy. apply elem_of_cons in Hy as [->|Hy]; [|by apply Hl1].
      intros Heq. by rewrite Heq in Ha.
    + intros Hx. apply elem_of_cons in Hx as [->|Hx].
      * exists [], df. split_and!; [done..|]. intros y Hy. by apply elem_of_nil in Hy.
      * destruct (IH _ Hx) as (l1 & l2 & -> & Hseen & Hl1).
        apply not_elem_of_cons in Hseen as [Hne Hseen].
        exists (a :: l1), l2. split_and!; [done..|].
        intros y Hy. apply elem_of_cons in Hy as [->|Hy]; [done|by apply Hl1].
  - intros (l1 & l2 & -> & Hseen & Hl1). revert seen Hseen.
    induction l1 as [|a l1 IH]; intros seen Hseen; simpl.
    + rewrite decide_False by done. apply list_elem_of_here.
    + assert (key a.2 ≠ key x.2) as Hne by (apply Hl1; apply list_elem_of_here).
      case_decide.
      * apply IH; [|done]. intros y Hy. apply Hl1. by apply list_elem_of_further.
      * apply list_elem_of_further. apply IH.
        -- intros y Hy. apply Hl1. by apply list_elem_of_further.
        -- apply not_elem_of_cons. split; [done|done].
Qed.

Lemma drop_duplicates_from_keys_NoDup seen df :
  NoDup ((λ x, key x.2) <$> drop_duplicates_from key seen df).
Proof.
  revert seen. induction df as [|a df IH]; intros seen; simpl; [constructor|].
  case_decide as Ha; [apply IH|].
  rewrite fmap_cons. constructor; [|apply IH].
  intros Hin. apply list_elem_of_fmap in Hin as (y & Heq & Hy).
  apply elem_of_drop_duplicates_from in Hy as (_ & _ & _ & Hseen & _).
  apply Hseen. rewrite <- Heq. apply list_elem_of_here.
Qed.

Lemma drop_duplicates_subset_keys_NoDup df :
  NoDup ((λ x, key x.2) <$> drop_duplicates_subset key df).
Proof. apply drop_duplicates_from_keys_NoDup. Qed.

Lemma drop_duplicates_subset_sublist df :
  drop_duplicates_subset key df `sublist_of` df.
Proof. apply drop_duplicates_from_sublist. Qed.

(** Every key of the frame survives. *)
Lemma drop_duplicates_subset_covers df x :
  x ∈ df → ∃ y, y ∈ drop_duplicates_subset key df ∧ key y.2 = key x.2.
Proof.
  unfold drop_duplicates_subset.
  assert (∀ seen, x ∈ df → key x.2 ∉ seen →
    ∃ y, y ∈ drop_duplicates_from key seen df ∧ key y.2 = key x.2) as Hgen.
  { induction df as [|a df IH]; intros seen Hx Hseen; simpl.
    { by apply elem_of_nil in Hx. }
    apply elem_of_cons in Hx as [->|Hx].
    - rewrite decide_False by done. exists a. split; [apply list_elem_of_here|done].
    - case_decide as Ha; [by apply IH|].
      destruct (decide (key a.2 = key x.2)) as [Heq|Hne].
      + exists a. split; [apply list_elem_of_here|done].
      + destruct (IH (key a.2 :: seen) Hx) as (y & Hy & Heq).
        { apply not_elem_of_cons. split; [congruence|done]. }
        exists y. split; [by apply list_elem_of_further|done]. }
  intros Hx. apply Hgen; [done|]. apply not_elem_of_nil.
Qed.

(** The rows with one key, and the mask [duplicated(keep=False)]. *)
Lemma duplicated_iff df x :
  NoDup df → x ∈ df →
  duplicated key df x ↔ ∃ y, y ∈ df ∧ y ≠ x ∧ key y.2 = key x.2.
Proof.
  intros Hnd Hx. unfold duplicated.
  set (P := λ y : nat * R, key y.2 = key x.2).
  assert (x ∈ filter P df) as Hxf by (apply list_elem_of_filter; done).
  assert (NoDup (filter P df)) as Hndf by (by apply NoDup_filter).
  split.
  - intros Hlen. destruct (filter P df) as [|a [|b l]] eqn:Hf; simpl in Hlen; [lia..|].
    apply NoDup_cons in Hndf as [Hab _].
    assert (a ∈ filter P df) as Ha by (rewrite Hf; apply list_elem_of_here).
    assert (b ∈ filter P df) as Hb
      by (rewrite Hf; apply list_elem_of_further, list_elem_of_here).
    apply list_elem_of_filter in Ha as [Pa Ha], Hb as [Pb Hb].
    apply elem_of_cons in Hxf as [->|Hxf].
    + exists b. split_and!; [done| |done]. intros ->. apply Hab, list_elem_of_here.
    + exists a. split_and!; [done| |done]. by intros ->.
  - intros (y & Hy & Hne & Heq).
    assert (y ∈ filter P df) as Hyf by (apply list_elem_of_filter; done).
    destruct (filter P df) as [|a [|b l]]; simpl; [by apply elem_of_nil in Hxf| |lia].
    apply list_elem_of_singleton in Hxf, Hyf. congruence.
Qed.

End duplicates.

(** ** Element-wise conversions *)

Section conversions.
Context {R T : Type}.

Lemma assignM_cons (f : R → result T) x (df : frame R) :
  assignM f (x :: df) =
  match f x.2 with
  | Raise e => Raise e
  | OK t => match assignM f df with
            | Raise e => Raise e
            | OK out => OK ((x.1, t) :: out)
            end
  end.
Proof. unfold assignM. simpl. by destruct (f x.2). Qed.

Lemma assignM_OK (f : R → result T) (df : frame R) out :
  assignM f df = OK out →
  Forall2 (λ x y, y.1 = x.1 ∧ f x.2 = OK y.2) df out.
Proof.
  revert out. induction df as [|x df IH]; intros out.
  - intros [= <-]. constructor.
  - rewrite assignM_cons. destruct (f x.2) as [t|e] eqn:Hf; [|done].
    destruct (assignM f df) as [k|e]; [|done].
    intros [= <-]. constructor; [done|by apply IH].
Qed.

(** The conversion raises as soon as one cell does. *)
Lemma assignM_Raise (f : R → result T) (df : frame R) x e :
  x ∈ df → f x.2 = Raise e →
  (∀ y e', y ∈ df → f y.2 = Raise e' → e' = e) →
  assignM f df = Raise e.
Proof.
  induction df as [|a df IH]; intros Hx Hf Hall.
  - by apply elem_of_nil in Hx.
  - rewrite assignM_cons. destruct (f a.2) as [t|e'] eqn:Ha.
    + apply elem_of_cons in Hx as [->|Hx]; [congruence|].
      rewrite IH; [done..|]. intros y e'' Hy. apply Hall. by apply list_elem_of_further.
    + f_equal. apply (Hall a); [apply list_elem_of_here|done].
Qed.

Lemma Forall2_same_index_elem_of (P : R → T → Prop) (df : frame R) (out : frame T) :
  Forall2 (λ x y, y.1 = x.1 ∧ P x.2 y.2) df out →
  (∀ i t, (i, t) ∈ out → ∃ r, (i, r) ∈ df ∧ P r t) ∧
  (∀ i r, (i, r) ∈ df → ∃ t, (i, t) ∈ out ∧ P r t).
Proof.
  induction 1 as [|[i r] [j t] df out [Hi HP] _ [IH1 IH2]]; simpl in *; subst.
  - split; intros ?? Hin; by apply elem_of_nil in Hin.
  - split.
    + intros i' t' Hin. apply elem_of_cons in Hin as [[= -> ->]|Hin].
      * exists r. split; [apply list_elem_of_here|done].
      * destruct (IH1 _ _ Hin) as (r' & ? & ?). exists r'.
        split; [by apply list_elem_of_further|done].
    + intros i' r' Hin. apply elem_of_cons in Hin as [[= -> ->]|Hin].
      * exists t. split; [apply list_elem_of_here|done].
      * destruct (IH2 _ _ Hin) as (t' & ? & ?). exists t'.
        split; [by apply list_elem_of_further|done].
Qed.

Lemma Forall2_same_index_increasing (P : R → T → Prop) (df : frame R) (out : frame T) :
  Forall2 (λ x y, y.1 = x.1 ∧ P x.2 y.2) df out →
  index_increasing df → index_increasing out.
Proof.
  unfold index_increasing.
  induction 1 as [|x y df out [Hi HP] Hrest IH]; intros Hs; [constructor|].
  apply StronglySorted_inv in Hs as [Hs Hall]. constructor; [by apply IH|].
  rewrite Forall_forall in Hall. rewrite Forall_forall. intros [j t] Hin.
  destruct (Forall2_same_index_elem_of P df out Hrest) as [H1 _].
  destruct (H1 _ _ Hin) as (r & Hr & _). specialize (Hall _ Hr).
  unfold index_lt in *. simpl in *. lia.
Qed.


End conversions.

Lemma elem_of_read_csv {R} (rows : list R) i r :
  (i, r) ∈ read_csv rows ↔ rows !! i = Some r.
Proof.
  unfold read_csv. rewrite elem_of_lookup_imap. split.
  - by intros (j & y & [= -> ->] & Hy).
  - intros Hr. by exists i, r.
Qed.

Lemma NoDup_fmap_eq {A B} (f : A → B) (l : list A) x y :
  NoDup (f <$> l) → x ∈ l → y ∈ l → f x = f y → x = y.
Proof.
  induction l as [|a l IH]; intros Hnd Hx Hy Heq.
  - by apply elem_of_nil in Hx.
  - rewrite fmap_cons in Hnd. apply NoDup_cons in Hnd as [Ha Hnd].
    apply elem_of_cons in Hx as [->|Hx]; apply elem_of_cons in Hy as [->|Hy].
    + done.
    + destruct Ha. rewrite Heq. by apply list_elem_of_fmap_2.
    + destruct Ha. rewrite <- Heq. by apply list_elem_of_fmap_2.
    + by apply IH.
Qed.


Lemma drop_duplicates_increasing {R} `{EqDecision R} (df : frame R) :
  index_increasing df → index_increasing (drop_duplicates df).
Proof. apply index_increasing_sublist, drop_duplicates_subset_sublist. Qed.

(** [drop_duplicates] on a table as read keeps the rows that no earlier
    row equals. *)
Lemma elem_of_drop_duplicates_read_csv {R} `{EqDecision R} (rows : list R) i r :
  (i, r) ∈ drop_duplicates (read_csv rows) ↔
  rows !! i = Some r ∧ ∀ j, j < i → rows !! j ≠ Some r.
Proof.
  unfold drop_duplicates, drop_duplicates_subset.
  rewrite elem_of_drop_duplicates_from. split.
  - intros (l1 & l2 & Heq & _ & Hl1).
    assert (read_csv rows !! length l1 = Some (i, r)) as Hlook
      by (rewrite Heq; apply list_lookup_middle; done).
    unfold read_csv in Hlook. rewrite list_lookup_imap in Hlook.
    destruct (rows !! length l1) as [r'|] eqn:Hr; [|done].
    simpl in Hlook. injection Hlook as <- ->. split; [done|].
    intros j Hj Hrj. apply (Hl1 (j, r)); [|done].
    apply (list_elem_of_lookup_2 _ j).
    rewrite <- (lookup_app_l l1 ((length l1, r) :: l2)) by done.
    rewrite <- Heq. unfold read_csv. rewrite list_lookup_imap, Hrj. done.
  - intros [Hi Hfirst].
    exists (take i (read_csv rows)), (drop (S i) (read_csv rows)). split_and!.
    + symmetry. apply take_drop_middle. unfold read_csv.
      rewrite list_lookup_imap, Hi. done.
    + apply not_elem_of_nil.
    + intros [j y] Hy. simpl. intros ->.
      apply elem_of_take in Hy as (k & Hk & Hlt).
      unfold read_csv in Hk. rewrite list_lookup_imap in Hk.
      destruct (rows !! k) as [y|] eqn:Hy; [|done].
      simpl in Hk. injection Hk as <- ->. by apply (Hfirst k).
Qed.

(** ** Transactions *)

Section transactions.
Context `{Runtime}.

Lemma transactions_coerced_eq df :
  transactions_coerced df = assignM coerce_transaction (drop_duplicates df).
Proof.
  unfold transactions_coerced. generalize (drop_duplicates df). intros l.
  induction l as [|[i r] l IH].
  - done.
  - rewrite assignM_cons. unfold assign in *. rewrite fmap_cons, assignM_cons. simpl.
    unfold coerce_transaction at 1, clean_quantity.
    destruct (astype_float (replace [Str "zero"] (Str "0") (FINAL_QUANTITY r)))
      as [q|e]; [|done].
    rewrite <- IH.
    match goal with |- context [assignM ?f ?l] => destruct (assignM f l) end; done.
Qed.

Lemma transactions_coerced_rows df d :
  transactions_coerced df = OK d →
  Forall2 (λ x y, y.1 = x.1 ∧ coerce_transaction x.2 = OK y.2) (drop_duplicates df) d.
Proof. rewrite transactions_coerced_eq. apply assignM_OK. Qed.

Lemma transactions_coerced_increasing rows d :
  transactions_coerced (read_csv rows) = OK d → index_increasing d.
Proof.
  intros Hd. apply transactions_coerced_rows in Hd.
  eapply (Forall2_same_index_increasing (λ r t, coerce_transaction r = OK t)); [exact Hd|].
  apply drop_duplicates_increasing, read_csv_increasing.
Qed.

Lemma remove_duplicate_missing_sales_eq df :
  index_increasing df →
  remove_duplicate_missing_sales df =
  filter (λ x, ¬ duplicated subset_no_sales df x ∨
               (duplicated subset_no_sales df x ∧ notna (FINAL_SALE x.2))) df.
Proof.
  intros Hs. unfold remove_duplicate_missing_sales.
  apply (sort_index_concat (λ x, ¬ duplicated subset_no_sales df x)
           (λ x, duplicated subset_no_sales df x ∧ notna (FINAL_SALE x.2))); [done|].
  intros x Hn [Hd _]. by apply Hn.
Qed.

Lemma elem_of_remove_duplicate_missing_sales df x :
  index_increasing df →
  x ∈ remove_duplicate_missing_sales df ↔
  x ∈ df ∧ (notna (FINAL_SALE x.2) ∨
            ¬ ∃ y, y ∈ df ∧ y ≠ x ∧ subset_no_sales y.2 = subset_no_sales x.2).
Proof.
  intros Hs. rewrite remove_duplicate_missing_sales_eq by done.
  rewrite list_elem_of_filter. split.
  - intros [Hcase Hx]. split; [done|].
    destruct Hcase as [Hnd|[_ Hsale]]; [right|by left].
    rewrite <- duplicated_iff; [done| |done]. by apply index_increasing_NoDup.
  - intros [Hx Hcase]. split; [|done].
    destruct (decide (duplicated subset_no_sales df x)) as [Hd|Hd]; [|by left].
    right. split; [done|]. destruct Hcase as [?|Hno]; [done|].
    destruct Hno. rewrite <- duplicated_iff; [done| |done].
    by apply index_increasing_NoDup.
Qed.

Lemma remove_duplicate_missing_sales_sublist df :
  index_increasing df → remove_duplicate_missing_sales df `sublist_of` df.
Proof.
  intros Hs. rewrite remove_duplicate_missing_sales_eq by done. apply sublist_filter.
Qed.

End transactions.

(** ** Products *)

Lemma filter_all {A} (P : A → Prop) `{∀ x, Decision (P x)} (l : list A) :
  (∀ x, x ∈ l → P x) → filter P l = l.
Proof.
  induction l as [|a l IH]; intros Hall; [done|].
  rewrite filter_cons_True by (apply Hall, list_elem_of_here).
  f_equal. apply IH. intros x Hx. by apply Hall, list_elem_of_further.
Qed.

Section products.
Context `{Runtime} {K : Type} `{EqDecision K} (key : product_row → K).
Hypothesis sort_ok : sort_values_contract.
Implicit Types df : frame product_row.

Lemma sort_values_elem_of by_ df x : x ∈ sort_values by_ df ↔ x ∈ df.
Proof. destruct (sort_ok by_ df) as [Hp _]. by rewrite Hp. Qed.

Lemma sort_values_StronglySorted by_ df :
  StronglySorted (λ x y, by_ y.2 ≤ by_ x.2) (sort_values by_ df).
Proof.
  destruct (sort_ok by_ df) as [_ Hs].
  apply Sorted_StronglySorted; [|done]. intros x y z. lia.
Qed.

Lemma most_complete_rows_duplicated df x :
  x ∈ most_complete_rows df key → x ∈ df ∧ duplicated key df x.
Proof.
  unfold most_complete_rows. intros Hx.
  apply (sublist_subseteq _ _ (drop_duplicates_subset_sublist key _)) in Hx.
  apply sort_values_elem_of, list_elem_of_filter in Hx. tauto.
Qed.

Lemma most_complete_rows_NoDup df : NoDup df → NoDup (most_complete_rows df key).
Proof.
  intros Hnd. unfold most_complete_rows.
  eapply sublist_NoDup; [|apply drop_duplicates_subset_sublist].
  destruct (sort_ok non_missing_count (filter (duplicated key df) df)) as [Hp _].
  rewrite Hp. by apply NoDup_filter.
Qed.

(** The result as a selection from the input. *)
Lemma keep_most_complete_duplicates_eq df :
  index_increasing df →
  keep_most_complete_duplicates df key =
  filter (λ x, ¬ duplicated key df x ∨ x ∈ most_complete_rows df key) df.
Proof.
  intros Hs. unfold keep_most_complete_duplicates. case_decide as Hempty.
  - symmetry. apply filter_all. intros x Hx. left. intros Hd.
    assert (x ∈ filter (duplicated key df) df) as Hin by (by apply list_elem_of_filter).
    rewrite Hempty in Hin. by apply elem_of_nil in Hin.
  - apply sort_index_increasing; [by apply index_increasing_filter|].
    rewrite <- (filter_or_Permutation (λ x, ¬ duplicated key df x)
                  (λ x, x ∈ most_complete_rows df key)).
    + apply Permutation_app; [done|].
      apply NoDup_Permutation.
      * apply most_complete_rows_NoDup. by apply index_increasing_NoDup.
      * apply NoDup_filter. by apply index_increasing_NoDup.
      * intros x. rewrite list_elem_of_filter. split; [|tauto].
        intros Hx. split; [done|]. by apply most_complete_rows_duplicated.
    + intros x Hn Hx. apply most_complete_rows_duplicated in Hx. tauto.
Qed.

Lemma keep_most_complete_duplicates_sublist df :
  index_increasing df → keep_most_complete_duplicates df key `sublist_of` df.
Proof.
  intros Hs. rewrite keep_most_complete_duplicates_eq by done. apply sublist_filter.
Qed.

Lemma elem_of_keep_most_complete_duplicates df x :
  index_increasing df →
  x ∈ keep_most_complete_duplicates df key ↔
  x ∈ df ∧ (¬ duplicated key df x ∨ x ∈ most_complete_rows df key).
Proof.
  intros Hs. rewrite keep_most_complete_duplicates_eq by done.
  rewrite list_elem_of_filter. tauto.
Qed.

(** No two retained rows share a key. *)
Lemma keep_most_complete_duplicates_unique df x y :
  index_increasing df →
  x ∈ keep_most_complete_duplicates df key →
  y ∈ keep_most_complete_duplicates df key →
  key x.2 = key y.2 → x = y.
Proof.
  intros Hs Hx Hy Heq.
  apply elem_of_keep_most_complete_duplicates in Hx as [Hx Hcx]; [|done].
  apply elem_of_keep_most_complete_duplicates in Hy as [Hy Hcy]; [|done].
  pose proof (index_increasing_NoDup _ Hs) as Hnd.
  destruct (decide (x = y)) as [|Hne]; [done|exfalso].
  assert (duplicated key df x) as Hdx by (apply duplicated_iff; [done..|by exists y]).
  assert (duplicated key df y) as Hdy by (apply duplicated_iff; [done..|by exists x]).
  destruct Hcx as [?|Hmx]; [done|]. destruct Hcy as [?|Hmy]; [done|].
  apply Hne.
  apply (NoDup_fmap_eq (λ z : nat * product_row, key z.2) (most_complete_rows df key));
    [|done..].
  apply drop_duplicates_subset_keys_NoDup.
Qed.

(** Every key of the input is still there. *)
Lemma keep_most_complete_duplicates_covers df x :
  index_increasing df → x ∈ df →
  ∃ y, y ∈ keep_most_complete_duplicates df key ∧ key y.2 = key x.2.
Proof.
  intros Hs Hx. destruct (decide (duplicated key df x)) as [Hd|Hd].
  - destruct (drop_duplicates_subset_covers key
                (sort_values non_missing_count (filter (duplicated key df) df)) x)
      as (y & Hy & Heq).
    { apply sort_values_elem_of, list_elem_of_filter. done. }
    exists y. split; [|done]. apply elem_of_keep_most_complete_duplicates; [done|].
    split; [|by right]. by apply (most_complete_rows_duplicated df y).
  - exists x. split; [|done]. apply elem_of_keep_most_complete_duplicates; [done|].
    split; [done|by left].
Qed.

(** The retained row of a key has the most non-missing fields. *)
Lemma keep_most_complete_duplicates_max df x y :
  index_increasing df →
  y ∈ keep_most_complete_duplicates df key → x ∈ df → key x.2 = key y.2 →
  non_missing_count x.2 ≤ non_missing_count y.2.
Proof.
  intros Hs Hy Hx Heq.
  apply elem_of_keep_most_complete_duplicates in Hy as [Hy Hcy]; [|done].
  pose proof (index_increasing_NoDup _ Hs) as Hnd.
  destruct (decide (x = y)) as [->|Hne]; [done|].
  assert (duplicated key df x) as Hdx by (apply duplicated_iff; [done..|by exists y]).
  assert (duplicated key df y) as Hdy by (apply duplicated_iff; [done..|by exists x]).
  destruct Hcy as [?|Hmy]; [done|].
  unfold most_complete_rows in Hmy.
  apply elem_of_drop_duplicates_from in Hmy as (l1 & l2 & Hsplit & _ & Hl1).
  pose proof (sort_values_StronglySorted non_missing_count
                (filter (duplicated key df) df)) as Hsorted.
  assert (x ∈ sort_values non_missing_count (filter (duplicated key df) df)) as Hxs.
  { apply sort_values_elem_of, list_elem_of_filter. done. }
  rewrite Hsplit in Hsorted, Hxs.
  apply StronglySorted_app_1_r in Hsorted. apply StronglySorted_inv in Hsorted as [_ Hall].
  rewrite Forall_forall in Hall.
  apply elem_of_app in Hxs as [Hxs|Hxs]; [by destruct (Hl1 _ Hxs)|].
  apply elem_of_cons in Hxs as [->|Hxs]; [done|]. by apply Hall.
Qed.

End products.

(** *** A stable sort keeps the first of the most complete rows *)

Lemma comes_before_cons {A} (x y z : A) l :
  comes_before x y l → comes_before x y (z :: l).
Proof. intros (l1 & l2 & l3 & ->). by exists (z :: l1), l2, l3. Qed.

Lemma comes_before_head {A} (x y : A) l : y ∈ l → comes_before x y (x :: l).
Proof.
  intros Hy. apply list_elem_of_split in Hy as (l2 & l3 & ->). by exists [], l2, l3.
Qed.

Lemma NoDup_split_unique {A} (a b c d : list A) z :
  NoDup (a ++ z :: b) → a ++ z :: b = c ++ z :: d → a = c.
Proof.
  revert c. induction a as [|h a IH]; intros c Hnd Heq.
  - destruct c as [|h' c]; [done|]. simpl in *. injection Heq as <- ->.
    apply NoDup_cons in Hnd as [Hz _]. destruct Hz. apply elem_of_app. right.
    apply list_elem_of_here.
  - destruct c as [|h' c]; simpl in *.
    + injection Heq as -> <-. apply NoDup_cons in Hnd as [Hz _]. destruct Hz.
      apply elem_of_app. right. apply list_elem_of_here.
    + injection Heq as <- Heq. f_equal. apply NoDup_cons in Hnd as [_ Hnd].
      by apply IH.
Qed.

Lemma index_increasing_comes_before {R} (df : frame R) x y :
  index_increasing df → x ∈ df → y ∈ df → x.1 < y.1 → comes_before x y df.
Proof.
  intros Hs Hx Hy Hlt. apply list_elem_of_split in Hx as (l1 & r & ->).
  unfold index_increasing in Hs.
  apply elem_of_app in Hy as [Hy|Hy].
  - pose proof (StronglySorted_app_1_elem_of _ _ _ y x Hs Hy) as Hcross.
    unfold index_lt in Hcross.
    assert (y.1 < x.1); [|lia]. apply Hcross, list_elem_of_here.
  - apply elem_of_cons in Hy as [->|Hy]; [lia|].
    apply list_elem_of_split in Hy as (l2 & l3 & ->). by exists l1, l2, l3.
Qed.

Section stable.
Context `{Runtime} {K : Type} `{EqDecision K} (key : product_row → K).
Hypothesis sort_ok : sort_values_contract.
Hypothesis sort_stable : sort_values_stable.

(** With a stable [sort_values], among the rows of a key with as many
    non-missing fields as the retained one, the retained one is the
    first. *)
Lemma keep_most_complete_duplicates_first df x y :
  index_increasing df →
  y ∈ keep_most_complete_duplicates df key → x ∈ df → key x.2 = key y.2 →
  non_missing_count x.2 = non_missing_count y.2 → y.1 ≤ x.1.
Proof.
  intros Hs Hy Hx Hkey Hcount.
  destruct (decide (y.1 ≤ x.1)) as [|Hlt]; [done|exfalso].
  apply (elem_of_keep_most_complete_duplicates key sort_ok) in Hy as [Hy Hcy]; [|done].
  pose proof (index_increasing_NoDup _ Hs) as Hnd.
  assert (x ≠ y) as Hne by (intros ->; lia).
  assert (duplicated key df x) as Hdx by (apply duplicated_iff; [done..|by exists y]).
  assert (duplicated key df y) as Hdy by (apply duplicated_iff; [done..|by exists x]).
  destruct Hcy as [?|Hmy]; [done|].
  unfold most_complete_rows in Hmy.
  apply elem_of_drop_duplicates_from in Hmy as (l1 & l2 & Hsplit & _ & Hl1).
  assert (comes_before x y (filter (duplicated key df) df)) as Hbefore.
  { apply index_increasing_comes_before; [by apply index_increasing_filter| | |lia];
      by apply list_elem_of_filter. }
  apply (sort_stable non_missing_count) in Hbefore as (k1 & k2 & k3 & Hsorted); [|done].
  assert (l1 = k1 ++ x :: k2) as ->.
  { apply (NoDup_split_unique _ l2 _ k3 y).
    - rewrite <- Hsplit.
      destruct (sort_ok non_missing_count (filter (duplicated key df) df)) as [Hp _].
      rewrite Hp. by apply NoDup_filter.
    - rewrite <- Hsplit, Hsorted. by rewrite <- app_assoc. }
  apply (Hl1 x); [|done]. apply elem_of_app. right. apply list_elem_of_here.
Qed.

End stable.

Lemma insert_descending_Permutation by_ x l : insert_descending by_ x l ≡ₚ x :: l.
Proof.
  induction l as [|y l IH]; simpl; [done|]. case_decide; [|done].
  rewrite IH. apply Permutation_swap.
Qed.

Lemma insert_descending_sorted by_ x l :
  StronglySorted (count_ge by_) l →
  StronglySorted (count_ge by_) (insert_descending by_ x l).
Proof.
  induction 1 as [|y l Hs IH Hall]; simpl; [repeat constructor|].
  case_decide as Hlt.
  - constructor; [done|]. rewrite insert_descending_Permutation.
    constructor; [unfold count_ge; lia|done].
  - constructor; [by constructor|]. constructor; [unfold count_ge; lia|].
    eapply Forall_impl; [exact Hall|]. unfold count_ge. intros; lia.
Qed.

Lemma insert_descending_comes_before by_ x y z l :
  comes_before x y l → comes_before x y (insert_descending by_ z l).
Proof.
  induction l as [|a l IH]; intros Hb; simpl.
  - destruct Hb as ([|??] & ? & ? & ?); done.
  - case_decide; [|by apply comes_before_cons].
    destruct Hb as ([|b l1] & l2 & l3 & Heq); simpl in Heq; injection Heq as -> ->.
    + apply comes_before_head. rewrite insert_descending_Permutation.
      apply list_elem_of_further, elem_of_app. right. apply list_elem_of_here.
    + apply comes_before_cons, IH. by exists l1, l2, l3.
Qed.

Lemma insert_descending_before_equal by_ x y l :
  y ∈ l → by_ x.2 = by_ y.2 → comes_before x y (insert_descending by_ x l).
Proof.
  induction l as [|a l IH]; intros Hy Heq; simpl.
  - by apply elem_of_nil in Hy.
  - case_decide as Hlt; [|by apply comes_before_head].
    apply elem_of_cons in Hy as [->|Hy]; [lia|]. by apply comes_before_cons, IH.
Qed.

Lemma stable_sort_values_contract : @sort_values_contract stable_runtime.
Proof.
  intros by_ df. simpl. unfold stable_sort_values. split.
  - induction df as [|x df IH]; simpl; [done|].
    by rewrite insert_descending_Permutation, IH.
  - apply StronglySorted_Sorted. induction df as [|x df IH]; simpl; [constructor|].
    by apply insert_descending_sorted.
Qed.

Lemma stable_sort_values_stable : @sort_values_stable stable_runtime.
Proof.
  intros by_ df x y (l1 & l2 & l3 & ->) Heq. simpl. unfold stable_sort_values.
  induction l1 as [|z l1 IH]; simpl.
  - apply insert_descending_before_equal; [|done].
    assert (foldr (insert_descending by_) [] (l2 ++ y :: l3) ≡ₚ l2 ++ y :: l3) as ->.
    { generalize (l2 ++ y :: l3). intros l. induction l as [|a l IHl]; simpl; [done|].
      by rewrite insert_descending_Permutation, IHl. }
    apply elem_of_app. right. apply list_elem_of_here.
  - by apply insert_descending_comes_before.
Qed.

(** ** The reference runtime meets the contracts *)

#[local] Instance count_ge_total by_ : Total (count_ge by_).
Proof. intros x y. unfold count_ge. lia. Qed.

#[local] Instance total_ge_total : Total total_ge.
Proof.
  intros x y. unfold total_ge.
  destruct (Qclt_le_dec x.2 y.2) as [Hlt|Hle]; [right; by apply Qclt_le_weak|by left].
Qed.

Lemma reference_sort_values_contract : @sort_values_contract reference_runtime.
Proof.
  intros by_ df. simpl. split.
  - apply merge_sort_Permutation.
  - apply (Sorted_merge_sort (count_ge by_)).
Qed.

Lemma ties_reversed_sort_values_contract : @sort_values_contract ties_reversed_runtime.
Proof.
  intros by_ df. simpl. split.
  - rewrite merge_sort_Permutation. apply reverse_Permutation.
  - apply (Sorted_merge_sort (count_ge by_)).
Qed.

Lemma reference_order_by_contract : @order_by_contract reference_runtime.
Proof.
  intros l. simpl. split.
  - apply merge_sort_Permutation.
  - apply (Sorted_merge_sort total_ge).
Qed.

(** ** Order of the retained rows (C10) *)

(** C10.  Both [remove_duplicate_missing_sales] and
    [keep_most_complete_duplicates] return the rows they retain in the
    order these rows have in the input, which is a frame whose labels
    increase, as the frames the script passes them are
    ([transactions_coerced_increasing], [products_prepared_increasing]):
    the output is a subsequence of the input. *)
Theorem retained_rows_keep_their_order `{Runtime}
    (transaction : frame transaction_row) (products : frame product_row) :
  sort_values_contract →
  index_increasing transaction →
  index_increasing products →
  remove_duplicate_missing_sales transaction `sublist_of` transaction ∧
  keep_most_complete_duplicates products BARCODE_products `sublist_of` products.
Proof.
  intros Hsort Ht Hp. split.
  - by apply remove_duplicate_missing_sales_sublist.
  - by apply keep_most_complete_duplicates_sublist.
Qed.

Lemma retained_rows_keep_their_order_witness :
  @sort_values_contract reference_runtime ∧
  index_increasing
    (read_csv [example_transaction (Num (qc 1 1)) NaN;
               example_transaction (Num (qc 1 1)) (Num (qc 3 2));
               example_transaction (Num (qc 2 1)) NaN]) ∧
  index_increasing
    (read_csv [example_product (Str "111") NaN NaN;
               example_product (Str "222") NaN NaN;
               example_product (Str "111") (Str "DOVE") NaN]) ∧
  remove_duplicate_missing_sales
    (read_csv [example_transaction (Num (qc 1 1)) NaN;
               example_transaction (Num (qc 1 1)) (Num (qc 3 2));
               example_transaction (Num (qc 2 1)) NaN])
  `sublist_of`
    read_csv [example_transaction (Num (qc 1 1)) NaN;
              example_transaction (Num (qc 1 1)) (Num (qc 3 2));
              example_transaction (Num (qc 2 1)) NaN] ∧
  @keep_most_complete_duplicates reference_runtime _ _
    (read_csv [example_product (Str "111") NaN NaN;
               example_product (Str "222") NaN NaN;
               example_product (Str "111") (Str "DOVE") NaN]) BARCODE_products
  `sublist_of`
    read_csv [example_product (Str "111") NaN NaN;
              example_product (Str "222") NaN NaN;
              example_product (Str "111") (Str "DOVE") NaN].
Proof.
  pose proof reference_sort_values_contract as Hsort.
  pose proof (read_csv_increasing
    [example_transaction (Num (qc 1 1)) NaN;
     example_transaction (Num (qc 1 1)) (Num (qc 3 2));
     example_transaction (Num (qc 2 1)) NaN]) as Ht.
  pose proof (read_csv_increasing
    [example_product (Str "111") NaN NaN;
     example_product (Str "222") NaN NaN;
     example_product (Str "111") (Str "DOVE") NaN]) as Hp.
  split; [exact Hsort|]. split; [exact Ht|]. split; [exact Hp|].
  exact (@retained_rows_keep_their_order reference_runtime _ _ Hsort Ht Hp).
Defined.

(** ** Gender (C9) *)

(** C9.  Gender normalization is idempotent; it maps "Prefer not to say"
    to missing, "Non-Binary" to the canonical "non_binary", and leaves
    "female" as it is. *)
Theorem normalize_gender_idempotent :
  (∀ g, normalize_gender (normalize_gender g) = normalize_gender g) ∧
  normalize_gender (Str "Prefer not to say") = NaN ∧
  normalize_gender (Str "Non-Binary") = Str "non_binary" ∧
  normalize_gender (Str "female") = Str "female".
Proof.
  split; [|by vm_compute].
  intros g. unfold normalize_gender, replace.
  destruct (decide (g ∈ texts_to_replace_missing)) as [Hm|Hm].
  - by vm_compute.
  - destruct (decide (g ∈ texts_to_replace_non_binary)) as [Hn|Hn].
    + by vm_compute.
    + rewrite (decide_False (P := g ∈ texts_to_replace_missing)) by done.
      by rewrite (decide_False (P := g ∈ texts_to_replace_non_binary)) by done.
Qed.

(** ** Join cardinality (C4) *)

Lemma filter_unique_key_length {A K} `{EqDecision K} (f : A → K) (l : list A) k :
  NoDup (f <$> l) → length (filter (λ r, f r = k) l) ≤ 1.
Proof.
  induction l as [|a l IH]; intros Hnd; simpl; [lia|].
  rewrite fmap_cons in Hnd. apply NoDup_cons in Hnd as [Ha Hnd].
  rewrite filter_cons. case_decide as Hk; [|by apply IH].
  assert (filter (λ r, f r = k) l = []) as ->; [|simpl; lia].
  apply elem_of_nil_inv. intros r Hr. apply list_elem_of_filter in Hr as [Hr Hin].
  apply Ha. rewrite Hk, <- Hr. by apply list_elem_of_fmap_2.
Qed.

Lemma merge_left_length {L R K} `{EqDecision K}
    (left_on : L → K) (right_on : R → K) (left : list L) (right : list R) :
  NoDup (right_on <$> right) →
  length (merge_left left_on right_on left right) = length left.
Proof.
  intros Hnd. unfold merge_left. induction left as [|l left IH]; [done|].
  rewrite bind_cons, length_app, IH. simpl. f_equal.
  pose proof (filter_unique_key_length right_on right (left_on l) Hnd) as Hle.
  destruct (filter (λ r, right_on r = left_on l) right) as [|a [|b ms]]; simpl in *;
    [done..|lia].
Qed.

(** C4.  If user identifier is a unique key of the cleaned users table
    and barcode a unique key of the cleaned products table, the joined
    table has exactly as many rows as the cleaned transactions table. *)
Theorem join_cardinality (transaction : frame transaction_row)
    (user : frame user_clean) (products : frame product_row) :
  NoDup (ID <$> user.*2) →
  NoDup (BARCODE_products <$> products.*2) →
  length (merged_data transaction user products) = length transaction.
Proof.
  intros Hu Hp. unfold merged_data.
  rewrite length_fmap, merge_left_length by done.
  rewrite merge_left_length by done. by rewrite length_fmap.
Qed.

Lemma join_cardinality_witness :
  NoDup (ID <$> (read_csv [example_user_clean "user-1"; example_user_clean "user-2"]).*2) ∧
  NoDup (BARCODE_products <$>
           (read_csv [example_product (Str "123.0") (Str "DOVE") NaN;
                      example_product (Str "456.0") NaN NaN]).*2) ∧
  length (merged_data
            (read_csv [example_transaction (Num (qc 1 1)) (Num (qc 3 2));
                       set_BARCODE (Str "123.0") (example_transaction (Num (qc 1 1)) NaN);
                       set_BARCODE (Str "789.0") (example_transaction (Num (qc 1 1)) NaN)])
            (read_csv [example_user_clean "user-1"; example_user_clean "user-2"])
            (read_csv [example_product (Str "123.0") (Str "DOVE") NaN;
                       example_product (Str "456.0") NaN NaN])) =
  length (read_csv [example_transaction (Num (qc 1 1)) (Num (qc 3 2));
                    set_BARCODE (Str "123.0") (example_transaction (Num (qc 1 1)) NaN);
                    set_BARCODE (Str "789.0") (example_transaction (Num (qc 1 1)) NaN)]).
Proof.
  assert (NoDup (ID <$> (read_csv [example_user_clean "user-1";
                                   example_user_clean "user-2"]).*2)) as Hu.
  { apply (bool_decide_unpack _). vm_compute. reflexivity. }
  assert (NoDup (BARCODE_products <$>
                   (read_csv [example_product (Str "123.0") (Str "DOVE") NaN;
                              example_product (Str "456.0") NaN NaN]).*2)) as Hp.
  { apply (bool_decide_unpack _). vm_compute. reflexivity. }
  split; [exact Hu|]. split; [exact Hp|].
  exact (join_cardinality _ _ _ Hu Hp).
Defined.

(** ** Transactions: quantity, duplicates, unparseable fields *)

Section transaction_claims.
Context `{Runtime}.

Lemma astype_float_not_Str c v : astype_float c = OK v → ∀ s, v ≠ Str s.
Proof.
  destruct c as [|s'|q]; simpl.
  - by intros [= <-].
  - destruct (py_float s'); [|done]. by intros [= <-].
  - by intros [= <-].
Qed.

Lemma astype_float_Raise c e : astype_float c = Raise e → e = ValueError.
Proof.
  destruct c as [|s|q]; simpl; [done| |done].
  destruct (py_float s); [done|]. by intros [= <-].
Qed.

Lemma clean_quantity_not_zero c :
  c ≠ Str "zero" →
  clean_quantity c =
  match astype_float c with
  | Raise e => Raise e
  | OK v => OK (if decide (v = Num (qc 276 1)) then Num (qc 276 100) else v)
  end.
Proof.
  intros Hc. unfold clean_quantity, replace.
  rewrite (decide_False (P := c ∈ [Str "zero"])) by (by rewrite list_elem_of_singleton).
  destruct (astype_float c) as [v|e]; [|done]. f_equal.
  destruct (decide (v = Num (qc 276 1))) as [->|Hv].
  - by rewrite decide_True by (by apply list_elem_of_singleton).
  - by rewrite decide_False by (by rewrite list_elem_of_singleton).
Qed.

Lemma clean_quantity_not_Str c v : clean_quantity c = OK v → ∀ s, v ≠ Str s.
Proof.
  unfold clean_quantity.
  destruct (astype_float _) as [f|e] eqn:Hf; [|done]. intros [= <-] s.
  unfold replace. case_decide; [done|]. by eapply astype_float_not_Str.
Qed.

Lemma coerce_transaction_Raise r e : coerce_transaction r = Raise e → e = ValueError.
Proof.
  unfold coerce_transaction, clean_quantity.
  destruct (astype_float _) as [f|e'] eqn:Hf; [done|].
  intros [= <-]. by eapply astype_float_Raise.
Qed.

Lemma coerce_transaction_OK r t :
  coerce_transaction r = OK t →
  clean_quantity (FINAL_QUANTITY r) = OK (FINAL_QUANTITY t) ∧
  FINAL_SALE t = to_numeric_coerce (FINAL_SALE r) ∧
  BARCODE t = astype_str (BARCODE r) ∧
  RECEIPT_ID t = RECEIPT_ID r ∧ USER_ID t = USER_ID r ∧ txn_other t = txn_other r.
Proof.
  unfold coerce_transaction. destruct (clean_quantity _) as [q|e]; [|done].
  by intros [= <-].
Qed.


Lemma coerced_row_origin rows d i r :
  transactions_coerced (read_csv rows) = OK d → (i, r) ∈ d →
  ∃ r0, (i, r0) ∈ drop_duplicates (read_csv rows) ∧ rows !! i = Some r0 ∧
        coerce_transaction r0 = OK r.
Proof.
  intros Hd Hin. apply transactions_coerced_rows in Hd.
  destruct (Forall2_same_index_elem_of (λ r t, coerce_transaction r = OK t) _ _ Hd)
    as [Hback _].
  destruct (Hback _ _ Hin) as (r0 & Hr0 & Hc). exists r0. split_and!; [done| |done].
  apply elem_of_read_csv.
  by apply (sublist_subseteq _ _ (drop_duplicates_subset_sublist id (read_csv rows))).
Qed.

Lemma coerced_row_image rows d i r0 :
  transactions_coerced (read_csv rows) = OK d →
  (i, r0) ∈ drop_duplicates (read_csv rows) →
  ∃ r, (i, r) ∈ d ∧ coerce_transaction r0 = OK r.
Proof.
  intros Hd Hin. apply transactions_coerced_rows in Hd.
  destruct (Forall2_same_index_elem_of (λ r t, coerce_transaction r = OK t) _ _ Hd)
    as [_ Hfwd].
  by apply Hfwd.
Qed.

End transaction_claims.

(** C8.  In every cleaned transaction row the quantity is a float (a
    number or NaN, never a text), obtained from the raw quantity of the
    same row: the token "zero" becomes 0, a value equal to 276 becomes
    2.76, and any other value is its float, unchanged.  ([float('0')] is
    0.0.)  And the rows are there: when the cleaning succeeds, every raw
    row that no earlier raw row equals is in the cleaned table with its
    quantity so converted, unless it has no sale amount and another row
    agrees with it on every other column. *)
Theorem quantity_is_cleaned `{Runtime} :
  py_float "0" = Some (qc 0 1) →
  (∀ rows out i r,
     clean_transactions (read_csv rows) = OK out → (i, r) ∈ out →
     (∀ s, FINAL_QUANTITY r ≠ Str s) ∧
     ∃ r0, rows !! i = Some r0 ∧
           clean_quantity (FINAL_QUANTITY r0) = OK (FINAL_QUANTITY r)) ∧
  (∀ rows out i r0,
     clean_transactions (read_csv rows) = OK out →
     rows !! i = Some r0 → (∀ j, j < i → rows !! j ≠ Some r0) →
     ∃ r, coerce_transaction r0 = OK r ∧
          clean_quantity (FINAL_QUANTITY r0) = OK (FINAL_QUANTITY r) ∧
          ((i, r) ∈ out ∨
           (FINAL_SALE r = NaN ∧
            ∃ j r1 t1, j ≠ i ∧ rows !! j = Some r1 ∧ coerce_transaction r1 = OK t1 ∧
                       subset_no_sales t1 = subset_no_sales r))) ∧
  clean_quantity (Str "zero") = OK (Num (qc 0 1)) ∧
  (∀ c, c ≠ Str "zero" → astype_float c = OK (Num (qc 276 1)) →
        clean_quantity c = OK (Num (qc 276 100))) ∧
  (∀ c v, c ≠ Str "zero" → astype_float c = OK v → v ≠ Num (qc 276 1) →
          clean_quantity c = OK v).
Proof.
  intros Hzero. split_and!.
  - intros rows out i r Hclean Hin. unfold clean_transactions in Hclean.
    destruct (transactions_coerced (read_csv rows)) as [d|e] eqn:Hd; [|done].
    injection Hclean as <-.
    pose proof (transactions_coerced_increasing _ _ Hd) as Hinc.
    apply (sublist_subseteq _ _ (remove_duplicate_missing_sales_sublist d Hinc)) in Hin.
    destruct (coerced_row_origin _ _ _ _ Hd Hin) as (r0 & _ & Hr0 & Hc).
    apply coerce_transaction_OK in Hc as [Hq _].
    split; [by eapply clean_quantity_not_Str|]. by exists r0.
  - intros rows out i r0 Hclean Hi Hfirst. unfold clean_transactions in Hclean.
    destruct (transactions_coerced (read_csv rows)) as [d|e] eqn:Hd; [|done].
    injection Hclean as <-.
    pose proof (transactions_coerced_increasing _ _ Hd) as Hinc.
    assert ((i, r0) ∈ drop_duplicates (read_csv rows)) as Hin
      by (by apply elem_of_drop_duplicates_read_csv).
    destruct (coerced_row_image _ _ _ _ Hd Hin) as (r & Hr & Hc).
    exists r. split; [done|].
    split; [by apply coerce_transaction_OK in Hc as [Hq _]|].
    destruct (decide ((i, r) ∈ remove_duplicate_missing_sales d)) as [|Hout]; [by left|].
    right. rewrite elem_of_remove_duplicate_missing_sales in Hout by done.
    destruct (decide (FINAL_SALE r = NaN)) as [Hsale|Hsale];
      [|destruct Hout; split; [done|by left]].
    split; [done|].
    destruct (decide (duplicated subset_no_sales d (i, r))) as [Hdup|Hdup].
    + apply duplicated_iff in Hdup; [|by apply index_increasing_NoDup|done].
      destruct Hdup as ([j t1] & Hj & Hne & Hkey).
      destruct (coerced_row_origin _ _ _ _ Hd Hj) as (r1 & _ & Hr1 & Hc1).
      exists j, r1, t1. split_and!; [|done..].
      intros ->. apply Hne. f_equal.
      rewrite Hi in Hr1. injection Hr1 as <-. congruence.
    + destruct Hout. split; [done|]. right. intros Hex. apply Hdup.
      apply duplicated_iff; [|done..]. by apply index_increasing_NoDup.
  - unfold clean_quantity, replace.
    rewrite decide_True by (by apply list_elem_of_singleton).
    simpl. rewrite Hzero.
    rewrite decide_False; [done|].
    rewrite list_elem_of_singleton. by intros [=].
  - intros c Hc Hf. rewrite clean_quantity_not_zero by done. rewrite Hf.
    by rewrite decide_True.
  - intros c v Hc Hf Hv. rewrite clean_quantity_not_zero by done. rewrite Hf.
    by rewrite decide_False.
Qed.

Lemma quantity_is_cleaned_witness :
  @py_float reference_runtime "0" = Some (qc 0 1) ∧
  @clean_quantity reference_runtime (Str "zero") = OK (Num (qc 0 1)) ∧
  @clean_quantity reference_runtime (Str "276") = OK (Num (qc 276 100)) ∧
  @clean_quantity reference_runtime (Str "1.5") = OK (Num (qc 15 10)) ∧
  ∃ out,
    @clean_transactions reference_runtime
      (read_csv [example_transaction (Str "zero") NaN;
                 example_transaction (Str "276") NaN;
                 example_transaction (Num (qc 3 1)) NaN]) = OK out ∧
    (λ x : nat * transaction_row, (x.1, FINAL_QUANTITY x.2)) <$> out
    = [(0, Num (qc 0 1)); (1, Num (qc 276 100)); (2, Num (qc 3 1))] ∧
    (∀ i r, (i, r) ∈ out → ∀ s, FINAL_QUANTITY r ≠ Str s) ∧
    ∃ r, @coerce_transaction reference_runtime (example_transaction (Str "276") NaN)
         = OK r ∧
         @clean_quantity reference_runtime (Str "276") = OK (FINAL_QUANTITY r) ∧
         ((1, r) ∈ out ∨
          (FINAL_SALE r = NaN ∧
           ∃ j r1 t1, j ≠ 1 ∧
             [example_transaction (Str "zero") NaN;
              example_transaction (Str "276") NaN;
              example_transaction (Num (qc 3 1)) NaN] !! j = Some r1 ∧
             @coerce_transaction reference_runtime r1 = OK t1 ∧
             subset_no_sales t1 = subset_no_sales r)).
Proof.
  assert (@py_float reference_runtime "0" = Some (qc 0 1)) as Hzero by reflexivity.
  destruct (@quantity_is_cleaned reference_runtime Hzero)
    as (Hrows & Hforward & Hz & H276 & Hother).
  split; [exact Hzero|]. split; [exact Hz|]. split; [|split].
  - apply H276; [discriminate|reflexivity].
  - apply Hother; [discriminate|reflexivity|]. by intros [=].
  - set (rows := [example_transaction (Str "zero") NaN;
                   example_transaction (Str "276") NaN;
                   example_transaction (Num (qc 3 1)) NaN]).
    assert (∃ out, @clean_transactions reference_runtime (read_csv rows) = OK out ∧
                   (λ x : nat * transaction_row, (x.1, FINAL_QUANTITY x.2)) <$> out
                   = [(0, Num (qc 0 1)); (1, Num (qc 276 100)); (2, Num (qc 3 1))])
      as (out & Hout & Hq).
    { eexists. split; vm_compute; reflexivity. }
    exists out. split; [exact Hout|]. split; [exact Hq|]. split.
    + intros i r Hin. exact (proj1 (Hrows rows out i r Hout Hin)).
    + apply (Hforward rows out 1 (example_transaction (Str "276") NaN) Hout eq_refl).
      intros [|[|j]] Hj; [discriminate|lia|lia].
Defined.




(** ** Users *)

Lemma elem_of_assign {R T} (f : R → T) (df : frame R) i t :
  (i, t) ∈ assign f df ↔ ∃ r, (i, r) ∈ df ∧ t = f r.
Proof.
  unfold assign. rewrite list_elem_of_fmap. split.
  - intros ([j r] & [= -> ->] & Hin). by exists r.
  - intros (r & Hin & ->). by exists (i, r).
Qed.

Lemma elem_of_loc {R} (P : R → Prop) `{∀ r, Decision (P r)} (df : frame R) x :
  x ∈ loc P df ↔ P x.2 ∧ x ∈ df.
Proof. unfold loc. by rewrite list_elem_of_filter. Qed.

Lemma loc_increasing {R} (P : R → Prop) `{∀ r, Decision (P r)} (df : frame R) :
  index_increasing df → index_increasing (loc P df).
Proof. apply index_increasing_filter. Qed.

Section apply.
Context {R T : Type} (f : nat → R → result T).

Lemma applyM_OK k (df : frame R) out :
  applyM f k df = OK out →
  Forall2 (λ x y, y.1 = x.1 ∧ ∃ j, f j x.2 = OK y.2) df out.
Proof.
  revert k out. induction df as [|x df IH]; intros k out; simpl.
  - intros [= <-]. constructor.
  - destruct (f k x.2) as [t|e] eqn:Hf; [|done].
    destruct (applyM f (S k) df) as [o|e] eqn:Hrest; [|done].
    intros [= <-]. constructor; [eauto|by eapply IH].
Qed.

(** [apply] raises when a row does, whatever the clock reads. *)
Lemma applyM_Raise k (df : frame R) x e :
  x ∈ df → (∀ j, f j x.2 = Raise e) →
  (∀ y j e', y ∈ df → f j y.2 = Raise e' → e' = e) →
  applyM f k df = Raise e.
Proof.
  revert k. induction df as [|a df IH]; intros k Hx Hf Hall; simpl.
  - by apply elem_of_nil in Hx.
  - destruct (f k a.2) as [t|e'] eqn:Ha.
    + apply elem_of_cons in Hx as [->|Hx]; [by rewrite Hf in Ha|].
      rewrite IH; [done..|]. intros y j e'' Hy. apply Hall. by apply list_elem_of_further.
    + f_equal. apply (Hall a k); [apply list_elem_of_here|done].
Qed.


End apply.

Section users.
Context `{Runtime}.

Lemma users_parsed_rows (raw : frame user_raw) :
  ∃ col, ∀ i r,
    (i, r) ∈ users_parsed raw ↔
    ∃ r0, (i, r0) ∈ drop_duplicates raw ∧ birth_date_ge_1925 (BIRTH_DATE r0) ∧
          r = mk_user (ID r0) (CREATED_DATE r0)
                (to_datetime_coerce col (BIRTH_DATE r0))
                (normalize_gender (GENDER r0)) (user_other r0) () ().
Proof.
  unfold users_parsed. eexists. intros i r.
  rewrite elem_of_assign. setoid_rewrite elem_of_assign. setoid_rewrite elem_of_assign.
  setoid_rewrite elem_of_loc. simpl. split.
  - intros (r2 & (r1 & (r0 & [Hb Hin] & ->) & ->) & ->). exists r0. done.
  - intros (r0 & Hin & Hb & ->).
    exists (mk_user (ID r0) (CREATED_DATE r0) (BIRTH_DATE r0)
              (normalize_gender (GENDER r0)) (user_other r0) () ()).
    split; [|reflexivity].
    exists (mk_user (ID r0) (CREATED_DATE r0) (BIRTH_DATE r0)
              (replace texts_to_replace_missing NaN (GENDER r0)) (user_other r0) () ()).
    split; [|reflexivity]. exists r0. done.
Qed.

Lemma users_parsed_increasing (rows : list user_raw) :
  index_increasing (users_parsed (read_csv rows)).
Proof.
  unfold users_parsed. do 3 apply assign_index_increasing.
  apply loc_increasing, drop_duplicates_increasing, read_csv_increasing.
Qed.

Lemma users_aged_unfold raw :
  ¬ birth_date_column_is_float raw →
  users_aged raw =
  applyM (λ k (r : user_parsed),
    match calculate_age_precise k (BIRTH_DATE r) with
    | Raise e => Raise e
    | OK a => OK (mk_user (ID r) (CREATED_DATE r) (BIRTH_DATE r)
                    (GENDER r) (user_other r) a ())
    end) 0 (users_parsed raw).
Proof. intros Hf. unfold users_aged. by rewrite decide_False. Qed.

Lemma users_aged_OK raw aged :
  users_aged raw = OK aged → ¬ birth_date_column_is_float raw.
Proof. unfold users_aged. by case_decide. Qed.

Lemma clean_users_unfold raw aged :
  users_aged raw = OK aged → aged ≠ [] →
  clean_users raw =
  applyM (λ k (r : user_row (option datetime) (option datetime) (option Z) unit),
    match calculate_account_age_months k (CREATED_DATE r) with
    | Raise e => Raise e
    | OK m => OK (mk_user (ID r) (CREATED_DATE r) (BIRTH_DATE r)
                    (GENDER r) (user_other r) (AGE r) m)
    end) (length aged)
    (assign (λ r : user_aged,
       mk_user (ID r)
         (to_datetime_coerce
            ((λ x : nat * user_aged, CREATED_DATE x.2) <$>
               loc (λ r : user_aged, age_ge_13 (AGE r)) aged) (CREATED_DATE r))
         (BIRTH_DATE r) (GENDER r) (user_other r) (AGE r) ())
       (loc (λ r : user_aged, age_ge_13 (AGE r)) aged)).
Proof.
  intros Ha Hne. unfold clean_users. rewrite Ha. by destruct aged.
Qed.

Lemma clean_users_OK raw aged out :
  users_aged raw = OK aged → clean_users raw = OK out → aged ≠ [].
Proof. intros Ha Hc ->. unfold clean_users in Hc. by rewrite Ha in Hc. Qed.

(** A frame that has a row with a birth date is not one whose
    BIRTH_DATE column is float. *)
Lemma birth_date_column_is_text (raw : frame user_raw) x s :
  x ∈ raw → BIRTH_DATE x.2 = Some s → ¬ birth_date_column_is_float raw.
Proof.
  intros Hx Hb [_ Hall]. rewrite Forall_forall in Hall.
  specialize (Hall x Hx). congruence.
Qed.

Lemma users_parsed_is_text (raw : frame user_raw) x :
  x ∈ users_parsed raw → ¬ birth_date_column_is_float raw.
Proof.
  destruct (users_parsed_rows raw) as [col Hparsed].
  destruct x as [i r]. intros Hin.
  apply Hparsed in Hin as (r0 & Hr0 & Hb & Hr).
  apply (sublist_subseteq _ _ (drop_duplicates_subset_sublist id raw)) in Hr0.
  destruct (BIRTH_DATE r0) as [s|] eqn:Hs; [|done].
  by apply (birth_date_column_is_text raw (i, r0) s).
Qed.

Lemma users_aged_rows raw aged :
  users_aged raw = OK aged →
  (∀ i y, (i, y) ∈ aged →
     ∃ r, (i, r) ∈ users_parsed raw ∧
          ∃ k a, calculate_age_precise k (BIRTH_DATE r) = OK a ∧
                 y = mk_user (ID r) (CREATED_DATE r) (BIRTH_DATE r)
                       (GENDER r) (user_other r) a ()) ∧
  (∀ i r, (i, r) ∈ users_parsed raw →
     ∃ y, (i, y) ∈ aged ∧
          ∃ k a, calculate_age_precise k (BIRTH_DATE r) = OK a ∧
                 y = mk_user (ID r) (CREATED_DATE r) (BIRTH_DATE r)
                       (GENDER r) (user_other r) a ()).
Proof.
  intros Ha. rewrite (users_aged_unfold _ (users_aged_OK _ _ Ha)) in Ha.
  apply applyM_OK in Ha.
  apply (Forall2_same_index_elem_of
           (λ (r : user_parsed) (y : user_aged),
              ∃ k a, calculate_age_precise k (BIRTH_DATE r) = OK a ∧
                     y = mk_user (ID r) (CREATED_DATE r) (BIRTH_DATE r)
                           (GENDER r) (user_other r) a ())).
  eapply Forall2_impl; [exact Ha|].
  intros x y [Hi [k Hk]]. split; [done|]. exists k.
  destruct (calculate_age_precise k (BIRTH_DATE x.2)) as [a|e]; [|done].
  exists a. split; [done|]. by injection Hk as <-.
Qed.

Lemma clean_users_rows raw aged out :
  users_aged raw = OK aged → clean_users raw = OK out →
  ∃ col,
  (∀ i y, (i, y) ∈ out →
     ∃ x, (i, x) ∈ loc (λ r : user_aged, age_ge_13 (AGE r)) aged ∧
          ∃ k m, calculate_account_age_months k
                   (to_datetime_coerce col (CREATED_DATE x)) = OK m ∧
                 y = mk_user (ID x) (to_datetime_coerce col (CREATED_DATE x))
                       (BIRTH_DATE x) (GENDER x) (user_other x) (AGE x) m) ∧
  (∀ i x, (i, x) ∈ loc (λ r : user_aged, age_ge_13 (AGE r)) aged →
     ∃ y, (i, y) ∈ out ∧
          ∃ k m, calculate_account_age_months k
                   (to_datetime_coerce col (CREATED_DATE x)) = OK m ∧
                 y = mk_user (ID x) (to_datetime_coerce col (CREATED_DATE x))
                       (BIRTH_DATE x) (GENDER x) (user_other x) (AGE x) m).
Proof.
  intros Ha Hc. rewrite (clean_users_unfold _ _ Ha (clean_users_OK _ _ _ Ha Hc)) in Hc.
  apply applyM_OK in Hc.
  exists ((λ x : nat * user_aged, CREATED_DATE x.2) <$>
            loc (λ r : user_aged, age_ge_13 (AGE r)) aged).
  set (col := (λ x : nat * user_aged, CREATED_DATE x.2) <$>
                loc (λ r : user_aged, age_ge_13 (AGE r)) aged) in *.
  apply (Forall2_same_index_elem_of
           (λ (x : user_aged) (y : user_clean),
              ∃ k m, calculate_account_age_months k
                       (to_datetime_coerce col (CREATED_DATE x)) = OK m ∧
                     y = mk_user (ID x) (to_datetime_coerce col (CREATED_DATE x))
                           (BIRTH_DATE x) (GENDER x) (user_other x) (AGE x) m)).
  unfold assign in Hc. apply Forall2_fmap_l in Hc.
  eapply Forall2_impl; [exact Hc|].
  intros [i x] y [Hi [k Hk]]. simpl in *. split; [done|]. exists k.
  destruct (calculate_account_age_months k _) as [m|e]; [|done].
  exists m. split; [done|]. by injection Hk as <-.
Qed.

End users.

Section user_claims.
Context `{Runtime}.

(** What holds of every cleaned user: the age is at least 13, the birth
    date as read compares at or above the text '1925-01-01', the gender
    is normalized. *)
Lemma clean_users_row (rows : list user_raw) out i (u : user_clean) :
  clean_users (read_csv rows) = OK out → (i, u) ∈ out →
  age_ge_13 (AGE u) ∧
  ∃ r0 col, rows !! i = Some r0 ∧
        birth_date_ge_1925 (BIRTH_DATE r0) ∧
        BIRTH_DATE u = to_datetime_coerce col (BIRTH_DATE r0) ∧
        GENDER u = normalize_gender (GENDER r0) ∧
        ID u = ID r0.
Proof.
  intros Hc Hin. pose proof Hc as Hc'. unfold clean_users in Hc'.
  destruct (users_aged (read_csv rows)) as [aged|e] eqn:Ha; [|done]. clear Hc'.
  destruct (clean_users_rows _ _ _ Ha Hc) as [ccol [Hback _]].
  destruct (Hback _ _ Hin) as (x & Hx & k & m & _ & ->). simpl.
  apply elem_of_loc in Hx as [Hage Hx]. simpl in Hage. split; [done|].
  destruct (users_aged_rows _ _ Ha) as [Hback' _].
  destruct (Hback' _ _ Hx) as (r & Hr & k' & a & _ & ->). simpl.
  destruct (users_parsed_rows (read_csv rows)) as [col Hparsed].
  apply Hparsed in Hr as (r0 & Hr0 & Hb & ->). simpl.
  exists r0, col. split_and!; [|done..].
  apply elem_of_read_csv.
  by apply (sublist_subseteq _ _ (drop_duplicates_subset_sublist id (read_csv rows))).
Qed.

(** A birth date that [to_datetime] cannot read becomes NaT, the row
    staying in the table. *)
Lemma unparseable_birth_date_is_NaT (rows : list user_raw) i r0 s :
  (i, r0) ∈ drop_duplicates (read_csv rows) →
  BIRTH_DATE r0 = Some s → String.leb "1925-01-01" s = true →
  (∀ col, to_datetime col s = None) →
  ∃ r, (i, r) ∈ users_parsed (read_csv rows) ∧ BIRTH_DATE r = None.
Proof.
  intros Hin Hb Hge Hparse.
  destruct (users_parsed_rows (read_csv rows)) as [col Hparsed].
  eexists. split.
  - apply Hparsed. exists r0. split_and!; [done| |reflexivity].
    rewrite Hb. done.
  - simpl. rewrite Hb. simpl. apply Hparse.
Qed.

(** What becomes of a row whose birth date is NaT is what
    [calculate_age_precise] makes of NaT. *)
Lemma birth_date_NaT (rows : list user_raw) i (r : user_parsed) :
  (i, r) ∈ users_parsed (read_csv rows) → BIRTH_DATE r = None →
  match calculate_age_NaT with
  | Raise e => clean_users (read_csv rows) = Raise e
  | OK a => ∀ out, clean_users (read_csv rows) = OK out →
                   ((∃ u, (i, u) ∈ out) ↔ age_ge_13 a)
  end.
Proof.
  intros Hin Hb. destruct calculate_age_NaT as [a|e] eqn:HNaT.
  - intros out Hc. pose proof Hc as Hc'. unfold clean_users in Hc'.
    destruct (users_aged (read_csv rows)) as [aged|e] eqn:Ha; [|done]. clear Hc'.
    destruct (clean_users_rows _ _ _ Ha Hc) as [ccol [Hback Hfwd]].
    destruct (users_aged_rows _ _ Ha) as [Hback' Hfwd'].
    split.
    + intros [u Hu]. destruct (Hback _ _ Hu) as (x & Hx & _).
      apply elem_of_loc in Hx as [Hage Hx]. simpl in Hage.
      destruct (Hback' _ _ Hx) as (r' & Hr' & k & a' & Hcalc & ->).
      assert ((i, r') = (i, r)) as [= ->].
      { by apply (index_increasing_inj _ _ _ (users_parsed_increasing rows)). }
      unfold calculate_age_precise in Hcalc. rewrite Hb, HNaT in Hcalc.
      by injection Hcalc as ->.
    + intros Hage. destruct (Hfwd' _ _ Hin) as (x & Hx & k & a' & Hcalc & ->).
      unfold calculate_age_precise in Hcalc. rewrite Hb, HNaT in Hcalc.
      injection Hcalc as <-.
      destruct (Hfwd i (mk_user (ID r) (CREATED_DATE r) (BIRTH_DATE r) (GENDER r)
                          (user_other r) a ())) as (u & Hu & _).
      { by apply elem_of_loc. }
      by exists u.
  - unfold clean_users.
    rewrite (users_aged_unfold _ (users_parsed_is_text _ _ Hin)).
    erewrite (applyM_Raise _ 0 _ (i, r) e); [done|done| |].
    + intros j. simpl. unfold calculate_age_precise. by rewrite Hb, HNaT.
    + intros y j e' _. unfold calculate_age_precise.
      destruct (BIRTH_DATE y.2); [done|]. rewrite HNaT. by intros [= <-].
Qed.

(** What becomes of a row whose creation date cannot be read is what
    [calculate_account_age_months] makes of NaT. *)
Lemma created_date_NaT (rows : list user_raw) aged i (a : user_aged) :
  users_aged (read_csv rows) = OK aged → (i, a) ∈ aged → age_ge_13 (AGE a) →
  (∀ col, to_datetime_coerce col (CREATED_DATE a) = None) →
  match calculate_account_age_months_NaT with
  | Raise e => clean_users (read_csv rows) = Raise e
  | OK m => ∀ out, clean_users (read_csv rows) = OK out →
                   ∃ u, (i, u) ∈ out ∧ CREATED_DATE u = None ∧ ACCOUNT_AGE_MONTHS u = m
  end.
Proof.
  intros Ha Hin Hage Hparse.
  destruct calculate_account_age_months_NaT as [m|e] eqn:HNaT.
  - intros out Hc. destruct (clean_users_rows _ _ _ Ha Hc) as [ccol [_ Hfwd]].
    destruct (Hfwd i a) as (u & Hu & k & m' & Hcalc & ->); [by apply elem_of_loc|].
    eexists. split; [exact Hu|]. simpl. rewrite Hparse in Hcalc |- *.
    simpl in Hcalc. rewrite HNaT in Hcalc. by injection Hcalc as ->.
  - assert (aged ≠ []) as Hne by (intros ->; by apply elem_of_nil in Hin).
    rewrite (clean_users_unfold _ _ Ha Hne).
    set (col := (λ x : nat * user_aged, CREATED_DATE x.2) <$>
                  loc (λ r : user_aged, age_ge_13 (AGE r)) aged).
    erewrite (applyM_Raise _ _ _
               (i, mk_user (ID a) (to_datetime_coerce col (CREATED_DATE a))
                     (BIRTH_DATE a) (GENDER a) (user_other a) (AGE a) ()) e);
      [done| | |].
    + apply elem_of_assign. exists a. split; [by apply elem_of_loc|done].
    + intros j. simpl. rewrite Hparse. simpl. by rewrite HNaT.
    + intros y j e' _. unfold calculate_account_age_months.
      destruct (CREATED_DATE y.2); [done|]. rewrite HNaT. by intros [= <-].
Qed.

End user_claims.

(** ** Unparseable fields (C3) *)

(** C3, as the code has it.  A FINAL_SALE that is not a number is
    coerced to NaN and its row retained, unless another row agrees with
    it on every other column.  A BIRTH_DATE or CREATED_DATE that is not a
    date is coerced to NaT and its row retained by the conversion; the
    row then goes through [calculate_age_precise] or
    [calculate_account_age_months], and what these make of NaT decides:
    the cleaning raises if they raise, otherwise the row stays exactly
    when the age they return is at least 13.  A FINAL_QUANTITY that is
    not a number (the token "zero" aside) is not coerced: the cleaning
    raises ValueError. *)
Theorem unparseable_fields `{Runtime} :
  (∀ rows d i r0 s,
     transactions_coerced (read_csv rows) = OK d →
     (i, r0) ∈ drop_duplicates (read_csv rows) →
     FINAL_SALE r0 = Str s → to_numeric s = None →
     ∃ r, coerce_transaction r0 = OK r ∧ FINAL_SALE r = NaN ∧ (i, r) ∈ d ∧
          ((i, r) ∈ remove_duplicate_missing_sales d ↔
           ¬ ∃ y, y ∈ d ∧ y ≠ (i, r) ∧ subset_no_sales y.2 = subset_no_sales r)) ∧
  (∀ (rows : list user_raw) i r0 s,
     (i, r0) ∈ drop_duplicates (read_csv rows) →
     BIRTH_DATE r0 = Some s → String.leb "1925-01-01" s = true →
     (∀ col, to_datetime col s = None) →
     (∃ r, (i, r) ∈ users_parsed (read_csv rows) ∧ BIRTH_DATE r = None) ∧
     match calculate_age_NaT with
     | Raise e => clean_users (read_csv rows) = Raise e
     | OK a => ∀ out, clean_users (read_csv rows) = OK out →
                      ((∃ u, (i, u) ∈ out) ↔ age_ge_13 a)
     end) ∧
  (∀ (rows : list user_raw) aged i (a : user_aged) s,
     users_aged (read_csv rows) = OK aged → (i, a) ∈ aged → age_ge_13 (AGE a) →
     CREATED_DATE a = Some s → (∀ col, to_datetime col s = None) →
     match calculate_account_age_months_NaT with
     | Raise e => clean_users (read_csv rows) = Raise e
     | OK m => ∀ out, clean_users (read_csv rows) = OK out →
                      ∃ u, (i, u) ∈ out ∧ CREATED_DATE u = None ∧
                           ACCOUNT_AGE_MONTHS u = m
     end) ∧
  (∀ rows i r0 s,
     (i, r0) ∈ drop_duplicates (read_csv rows) →
     FINAL_QUANTITY r0 = Str s → s ≠ "zero" → py_float s = None →
     clean_transactions (read_csv rows) = Raise ValueError).
Proof.
  split_and!.
  - intros rows d i r0 s Hd Hin Hsale Hparse.
    destruct (coerced_row_image _ _ _ _ Hd Hin) as (r & Hr & Hc).
    pose proof (coerce_transaction_OK _ _ Hc) as (_ & Hs & _).
    rewrite Hsale in Hs. simpl in Hs. rewrite Hparse in Hs.
    exists r. split_and!; [done..|].
    rewrite elem_of_remove_duplicate_missing_sales
      by (by eapply transactions_coerced_increasing).
    simpl. split.
    + intros [_ [Hna|Hno]]; [by destruct Hna|done].
    + intros Hno. split; [done|by right].
  - intros rows i r0 s Hin Hb Hge Hparse.
    destruct (unparseable_birth_date_is_NaT rows i r0 s Hin Hb Hge Hparse)
      as (r & Hr & HNaT).
    split; [by exists r|]. by apply (birth_date_NaT rows i r).
  - intros rows aged i a s Ha Hin Hage Hc Hparse.
    apply (created_date_NaT rows aged i a); [done..|].
    intros col. rewrite Hc. simpl. apply Hparse.
  - intros rows i r0 s Hin Hq Hs Hparse. unfold clean_transactions.
    rewrite transactions_coerced_eq.
    erewrite (assignM_Raise coerce_transaction _ (i, r0) ValueError); [done|done| |].
    + simpl. unfold coerce_transaction. rewrite Hq.
      rewrite clean_quantity_not_zero by congruence. simpl. by rewrite Hparse.
    + intros y e' _ He. by apply coerce_transaction_Raise in He.
Qed.

Lemma unparseable_fields_witness :
  (∃ d r,
     @transactions_coerced reference_runtime
       (read_csv [example_transaction (Str "1") (Str "n/a")]) = OK d ∧
     FINAL_SALE r = NaN ∧
     (0, r) ∈ remove_duplicate_missing_sales d) ∧
  @clean_users reference_runtime
    (read_csv [example_user "user-1" "unknown" NaN]) = Raise AssertionError ∧
  @clean_transactions reference_runtime
    (read_csv [example_transaction (Str "one") (Str "1.50")]) = Raise ValueError.
Proof.
  destruct (@unparseable_fields reference_runtime) as (Hsale & Hbirth & _ & Hquantity).
  split_and!.
  - assert (∃ r', @transactions_coerced reference_runtime
                    (read_csv [example_transaction (Str "1") (Str "n/a")])
                  = OK [(0, r')]) as [r' Hd].
    { eexists. vm_compute. reflexivity. }
    destruct (Hsale _ _ 0 (example_transaction (Str "1") (Str "n/a")) "n/a" Hd)
      as (r & _ & HNaN & Hin & Hiff).
    + apply (bool_decide_unpack _). vm_compute. reflexivity.
    + reflexivity.
    + reflexivity.
    + exists [(0, r')], r. split; [exact Hd|]. split; [exact HNaN|].
      apply Hiff. intros (y & Hy & Hne & _).
      apply list_elem_of_singleton in Hy, Hin. congruence.
  - destruct (Hbirth [example_user "user-1" "unknown" NaN] 0
                (example_user "user-1" "unknown" NaN) "unknown") as [_ Hfate].
    + apply (bool_decide_unpack _). vm_compute. reflexivity.
    + reflexivity.
    + reflexivity.
    + intros col. reflexivity.
    + exact Hfate.
  - apply (Hquantity _ 0 (example_transaction (Str "one") (Str "1.50")) "one").
    + apply (bool_decide_unpack _). vm_compute. reflexivity.
    + reflexivity.
    + discriminate.
    + reflexivity.
Defined.

(** Counterexample to C3 as stated, on a quantity: the script turns the token "zero"
    into a number, any other text that is not a number ("one") makes
    [astype(float)] raise, and no table is produced. *)
Lemma unparseable_quantity_raises :
  @clean_transactions reference_runtime
    (read_csv [example_transaction (Str "one") (Str "1.50")]) = Raise ValueError.
Proof. vm_compute. reflexivity. Qed.

(** ** Birth dates (C6) *)

(** C6, where the code departs from it.  "Remove birthdays prior to
    1925" compares the column as read, a text, with the text
    '1925-01-01', before the column is converted to dates.  A row is
    therefore kept whenever its text compares at or above '1925-01-01'
    and its age is at least 13, whatever date [to_datetime] then reads in
    the text: the date itself is never compared with 1925.  (The ages in
    the cleaned table are at least 13: [clean_users_row].) *)
Theorem birth_date_filter_compares_text `{Runtime} (r : user_raw) s c d cd :
  BIRTH_DATE r = Some s → String.leb "1925-01-01" s = true →
  to_datetime [Some s] s = Some d →
  (13 ≤ (relativedelta (now 0) d).1)%Z →
  CREATED_DATE r = Some c → to_datetime [Some c] c = Some cd →
  ∃ u, clean_users (read_csv [r]) = OK [(0, u)] ∧
       BIRTH_DATE u = Some d ∧ AGE u = Some (relativedelta (now 0) d).1.
Proof.
  intros Hb Hge Hd Hage Hc Hcd.
  assert (¬ birth_date_column_is_float (read_csv [r])) as Hf.
  { apply (birth_date_column_is_text _ (0, r) s); [apply list_elem_of_here|done]. }
  unfold clean_users. rewrite (users_aged_unfold _ Hf).
  unfold users_parsed, drop_duplicates, drop_duplicates_subset, read_csv, loc, assign.
  simpl. rewrite !filter_cons_True by (simpl; by rewrite Hb).
  simpl. rewrite Hb. simpl. rewrite Hd. simpl.
  rewrite filter_cons_True by done.
  simpl. rewrite Hc. simpl. rewrite Hcd. simpl.
  eexists. split; [reflexivity|]. split; reflexivity.
Qed.

Lemma birth_date_filter_compares_text_witness :
  BIRTH_DATE (example_user "user-1" "31/12/1900" (Str "female")) = Some "31/12/1900" ∧
  String.leb "1925-01-01" "31/12/1900" = true ∧
  @to_datetime reference_runtime [Some "31/12/1900"] "31/12/1900"
    = Some (mk_datetime 1900 12 31 0) ∧
  datetime_leb (mk_datetime 1925 1 1 0) (mk_datetime 1900 12 31 0) = false ∧
  ∃ u, @clean_users reference_runtime
         (read_csv [example_user "user-1" "31/12/1900" (Str "female")]) = OK [(0, u)] ∧
       BIRTH_DATE u = Some (mk_datetime 1900 12 31 0) ∧
       AGE u = Some 124%Z.
Proof.
  split; [reflexivity|]. split; [reflexivity|]. split; [reflexivity|].
  split; [reflexivity|].
  refine (@birth_date_filter_compares_text reference_runtime
            (example_user "user-1" "31/12/1900" (Str "female"))
            "31/12/1900" "2020-01-01 00:00:00.000 Z"
            (mk_datetime 1900 12 31 0) (mk_datetime 2020 1 1 0) _ _ _ _ _ _);
    try reflexivity.
  vm_compute. discriminate.
Defined.

(** ** Products: barcodes (C1, C5) *)

Section product_claims.
Context `{Runtime}.

Lemma astype_str_notna c : notna (astype_str c).
Proof. unfold notna. by destruct c. Qed.

Lemma products_prepared_rows (raw : frame product_row) i p :
  (i, p) ∈ products_prepared raw ↔
  ∃ r0, (i, r0) ∈ drop_duplicates raw ∧ CATEGORY_1 r0 ≠ Str "Needs Review" ∧
        p = set_BARCODE_products (astype_str (BARCODE_products r0)) r0.
Proof.
  unfold products_prepared. rewrite elem_of_assign.
  setoid_rewrite elem_of_loc. simpl. split.
  - intros (r0 & [Hc Hin] & ->). by exists r0.
  - intros (r0 & Hin & Hc & ->). by exists r0.
Qed.

Lemma products_prepared_increasing (rows : list product_row) :
  index_increasing (products_prepared (read_csv rows)).
Proof.
  unfold products_prepared. apply assign_index_increasing.
  apply loc_increasing, drop_duplicates_increasing, read_csv_increasing.
Qed.

(** [dropna] finds nothing to drop: [astype(str)] has already turned
    every missing barcode into the text 'nan'. *)
Lemma dropna_after_astype_str (raw : frame product_row) :
  loc (λ r, notna (BARCODE_products r)) (products_prepared raw) = products_prepared raw.
Proof.
  unfold loc. apply filter_all. intros [i p] Hin. simpl.
  apply products_prepared_rows in Hin as (r0 & _ & _ & ->). simpl.
  apply astype_str_notna.
Qed.

Lemma clean_products_eq (raw : frame product_row) :
  clean_products raw =
  keep_most_complete_duplicates (products_prepared raw) BARCODE_products.
Proof. unfold clean_products. by rewrite dropna_after_astype_str. Qed.

(** The part of C1 and C5 that holds under the contract of
    [sort_values]: the cleaned table has one row for each barcode of the
    prepared table, no two rows of it share a barcode, and the row kept
    for a barcode has the largest count of non-missing fields. *)
Lemma clean_products_one_row_per_barcode (rows : list product_row) :
  sort_values_contract →
  (∀ x, x ∈ products_prepared (read_csv rows) →
        ∃ y, y ∈ clean_products (read_csv rows) ∧
             BARCODE_products y.2 = BARCODE_products x.2) ∧
  (∀ x y, x ∈ clean_products (read_csv rows) → y ∈ clean_products (read_csv rows) →
          BARCODE_products x.2 = BARCODE_products y.2 → x = y) ∧
  (∀ x y, y ∈ clean_products (read_csv rows) →
          x ∈ products_prepared (read_csv rows) →
          BARCODE_products x.2 = BARCODE_products y.2 →
          non_missing_count x.2 ≤ non_missing_count y.2) ∧
  clean_products (read_csv rows) `sublist_of` products_prepared (read_csv rows).
Proof.
  intros Hsort. rewrite clean_products_eq.
  pose proof (products_prepared_increasing rows) as Hinc. split_and!.
  - intros x Hx. by apply keep_most_complete_duplicates_covers.
  - intros x y. by apply keep_most_complete_duplicates_unique.
  - intros x y. by apply keep_most_complete_duplicates_max.
  - by apply keep_most_complete_duplicates_sublist.
Qed.

(** With a stable sort the tie goes to the first row, as C5 has it. *)
Lemma clean_products_first_if_stable (rows : list product_row) x y :
  sort_values_contract → sort_values_stable →
  y ∈ clean_products (read_csv rows) → x ∈ products_prepared (read_csv rows) →
  BARCODE_products x.2 = BARCODE_products y.2 →
  non_missing_count x.2 = non_missing_count y.2 → y.1 ≤ x.1.
Proof.
  intros Hsort Hstable. rewrite clean_products_eq.
  apply keep_most_complete_duplicates_first; [done..|].
  apply products_prepared_increasing.
Qed.

Lemma sublist_pair_second {A} (l : list A) a b :
  l `sublist_of` [a; b] → b ∈ l → a ∉ l → l = [b].
Proof.
  intros Hsub Hb Ha.
  apply sublist_cons_r in Hsub as [Hsub|(l' & -> & Hsub)].
  - apply sublist_cons_r in Hsub as [Hsub|(l' & -> & Hsub)].
    + apply sublist_nil_r in Hsub. subst. by apply elem_of_nil in Hb.
    + apply sublist_nil_r in Hsub. by subst.
  - destruct Ha. apply list_elem_of_here.
Qed.

(** The example of the specification: of two rows with barcode "123",
    the one with more non-missing fields is retained, whatever the order
    in which [sort_values] leaves ties. *)
Lemma most_complete_of_two (r3 r5 : product_row) :
  sort_values_contract →
  BARCODE_products r3 = Str "123" → BARCODE_products r5 = Str "123" →
  CATEGORY_1 r3 ≠ Str "Needs Review" → CATEGORY_1 r5 ≠ Str "Needs Review" →
  non_missing_count r3 < non_missing_count r5 →
  clean_products (read_csv [r3; r5]) = [(1, r5)].
Proof.
  intros Hsort H3 H5 Hc3 Hc5 Hlt.
  assert (r3 ≠ r5) as Hne by (intros ->; lia).
  assert (products_prepared (read_csv [r3; r5]) = [(0, r3); (1, r5)]) as Hprep.
  { unfold products_prepared, drop_duplicates, drop_duplicates_subset, read_csv, loc, assign.
    simpl. rewrite decide_False by (rewrite list_elem_of_singleton; congruence).
    rewrite !filter_cons_True by done. simpl. unfold set_BARCODE_products.
    rewrite H3, H5. simpl. rewrite <- H3 at 1. rewrite <- H5.
    by destruct r3, r5. }
  destruct (clean_products_one_row_per_barcode [r3; r5] Hsort)
    as (Hcover & Huniq & Hmax & Hsub).
  rewrite Hprep in *.
  destruct (Hcover (1, r5)) as (y & Hy & Hby);
    [apply list_elem_of_further, list_elem_of_here|].
  assert (y = (1, r5)) as ->.
  { pose proof (sublist_subseteq _ _ Hsub _ Hy) as Hin.
    apply elem_of_cons in Hin as [->|Hin]; [|by apply list_elem_of_singleton in Hin].
    specialize (Hmax (1, r5) (0, r3) Hy). simpl in Hmax.
    assert (non_missing_count r5 ≤ non_missing_count r3); [|lia].
    apply Hmax; [apply list_elem_of_further, list_elem_of_here|congruence]. }
  apply (sublist_pair_second _ (0, r3) (1, r5)); [done..|].
  intros Hin. specialize (Huniq _ _ Hin Hy). simpl in Huniq.
  assert ((0, r3) = (1, r5)) as [=]. apply Huniq. congruence.
Qed.

End product_claims.

(** C1, where the code departs from it.  "Drop missing BARCODE rows"
    comes after [astype(str)], which has turned each missing barcode
    into the text 'nan': [dropna] drops nothing, and whenever the raw
    table has a row without a barcode (outside the 'Needs Review'
    placeholder) the cleaned table has a row whose barcode is 'nan', a
    value the script itself counts as missing. *)
Theorem missing_barcode_survives `{Runtime} (rows : list product_row) (r : product_row) :
  sort_values_contract →
  r ∈ rows → BARCODE_products r = NaN → CATEGORY_1 r ≠ Str "Needs Review" →
  ∃ x, x ∈ clean_products (read_csv rows) ∧
       BARCODE_products x.2 = Str "nan" ∧
       barcode_is_missing (BARCODE_products x.2).
Proof.
  intros Hsort Hr Hb Hc.
  apply list_elem_of_lookup in Hr as [i Hi]. apply elem_of_read_csv in Hi.
  destruct (drop_duplicates_subset_covers id (read_csv rows) (i, r) Hi)
    as ([j r'] & Hj & Heq). simpl in Heq. subst r'.
  destruct (clean_products_one_row_per_barcode rows Hsort) as (Hcover & _).
  destruct (Hcover (j, set_BARCODE_products (astype_str (BARCODE_products r)) r))
    as (x & Hx & Hbx).
  { apply products_prepared_rows. by exists r. }
  simpl in Hbx. rewrite Hb in Hbx. simpl in Hbx.
  exists x. split; [done|]. split; [done|]. rewrite Hbx.
  unfold barcode_is_missing. apply (bool_decide_unpack _). by vm_compute.
Qed.

Lemma missing_barcode_survives_witness :
  @sort_values_contract reference_runtime ∧
  example_product NaN (Str "DOVE") NaN
    ∈ [example_product (Str "111") NaN NaN; example_product NaN (Str "DOVE") NaN] ∧
  @clean_products reference_runtime
    (read_csv [example_product (Str "111") NaN NaN; example_product NaN (Str "DOVE") NaN])
  = [(0, example_product (Str "111") NaN NaN);
     (1, example_product (Str "nan") (Str "DOVE") NaN)] ∧
  ∃ x, x ∈ @clean_products reference_runtime
             (read_csv [example_product (Str "111") NaN NaN;
                        example_product NaN (Str "DOVE") NaN]) ∧
       BARCODE_products x.2 = Str "nan" ∧
       barcode_is_missing (BARCODE_products x.2).
Proof.
  split; [exact reference_sort_values_contract|].
  assert (example_product NaN (Str "DOVE") NaN
            ∈ [example_product (Str "111") NaN NaN; example_product NaN (Str "DOVE") NaN])
    as Hin by (apply (bool_decide_unpack _); vm_compute; reflexivity).
  split; [exact Hin|]. split; [vm_compute; reflexivity|].
  refine (@missing_barcode_survives reference_runtime _ _
            reference_sort_values_contract Hin _ _).
  - reflexivity.
  - discriminate.
Defined.

(** A consequence downstream: a transaction without a barcode has its
    barcode turned into 'nan' in the same way, and the second join matches
    it with that product. *)
Lemma missing_barcodes_are_joined :
  ∃ transaction,
    @clean_transactions reference_runtime
      (read_csv [set_BARCODE NaN (example_transaction (Str "1") (Str "1.50"))])
    = OK transaction ∧
    (λ m, (BARCODE (m_transaction m), product_col BRAND m)) <$>
      merged_data transaction []
        (@clean_products reference_runtime
           (read_csv [example_product (Str "111") NaN NaN;
                      example_product NaN (Str "DOVE") NaN]))
    = [(Str "nan", Str "DOVE")].
Proof. eexists. split; vm_compute; reflexivity. Qed.

(** C5, where the code departs from it.  Among the rows of a barcode
    with the largest count of non-missing fields, the row kept is the one
    [sort_values] puts first, and the default [kind='quicksort'] of
    [sort_values] does not keep equal counts in their original order.
    With numpy's scalar quicksort, of nine barcodes that each have two
    rows with three non-missing fields, seven keep their second row; and
    under any [sort_values] that meets its contract and leaves two equal
    counts in the opposite order, the second of two such rows is the one
    retained.  (One row per barcode, with the largest count:
    [clean_products_one_row_per_barcode]; and the first of these rows
    when the sort is stable: [clean_products_first_if_stable].) *)
Theorem tie_is_not_first_occurrence :
  (λ x : nat * product_row, (x.1, BARCODE_products x.2, BRAND x.2)) <$>
    @clean_products numpy_runtime (read_csv tied_products)
  = [(0, Str "101", Str "FIRST"); (3, Str "102", Str "SECOND");
     (5, Str "103", Str "SECOND"); (7, Str "104", Str "SECOND");
     (9, Str "105", Str "SECOND"); (11, Str "106", Str "SECOND");
     (13, Str "107", Str "SECOND"); (15, Str "108", Str "SECOND");
     (16, Str "109", Str "FIRST")] ∧
  Forall (λ r, non_missing_count r = 3) tied_products ∧
  @sort_values_contract ties_reversed_runtime ∧
  @clean_products ties_reversed_runtime
    (read_csv [example_product (Str "111") (Str "DOVE") NaN;
               example_product (Str "111") (Str "TRIDENT") NaN;
               example_product (Str "222") NaN NaN])
  = [(1, example_product (Str "111") (Str "TRIDENT") NaN);
     (2, example_product (Str "222") NaN NaN)].
Proof.
  split; [vm_compute; reflexivity|].
  split; [apply (bool_decide_unpack _); vm_compute; reflexivity|].
  split; [exact ties_reversed_sort_values_contract|].
  vm_compute; reflexivity.
Qed.

(** ** Query 3 (C7) *)

Section query.
Context `{Runtime}.
Hypothesis order_ok : order_by_contract.
Implicit Types rows : list merged_row.

Lemma elem_of_group_by_brand rows b t :
  (b, t) ∈ group_by_brand rows ↔
  (∃ m, m ∈ rows ∧ product_col BRAND m = b) ∧
  t = total_sales (filter (λ m, product_col BRAND m = b) rows).
Proof.
  unfold group_by_brand. rewrite list_elem_of_fmap. split.
  - intros (b0 & [= -> ->] & Hb). split; [|done].
    apply elem_of_remove_dups, list_elem_of_fmap in Hb as (m & -> & Hm). by exists m.
  - intros [(m & Hm & <-) ->]. eexists. split; [reflexivity|].
    apply elem_of_remove_dups. by apply list_elem_of_fmap_2.
Qed.

Lemma group_by_brand_nil rows : group_by_brand rows = [] ↔ rows = [].
Proof.
  split; [|by intros ->].
  destruct rows as [|m rows]; [done|]. intros Hnil.
  assert ((product_col BRAND m,
           total_sales (filter (λ m', product_col BRAND m' = product_col BRAND m)
                          (m :: rows))) ∈ group_by_brand (m :: rows)) as Hin.
  { apply elem_of_group_by_brand. split; [|done]. exists m.
    split; [apply list_elem_of_here|done]. }
  rewrite Hnil in Hin. by apply elem_of_nil in Hin.
Qed.

Lemma order_by_desc_nil l : order_by_desc l = [] ↔ l = [].
Proof.
  destruct (order_ok l) as [Hp _]. split.
  - intros Hnil. rewrite Hnil in Hp. symmetry in Hp. by apply Permutation_nil_r in Hp.
  - intros ->. by apply Permutation_nil_r in Hp.
Qed.

Lemma order_by_desc_head l x rest y :
  order_by_desc l = x :: rest → y ∈ l → (y.2 ≤ x.2)%Qc.
Proof.
  intros Heq Hy. destruct (order_ok l) as [Hp Hs].
  apply Sorted_StronglySorted in Hs; [|intros a b c ??; by eapply Qcle_trans].
  rewrite <- Hp, Heq in Hy. rewrite Heq in Hs.
  apply StronglySorted_inv in Hs as [_ Hall]. rewrite Forall_forall in Hall.
  apply elem_of_cons in Hy as [->|Hy]; [apply Qcle_refl|by apply Hall].
Qed.

End query.

(** C7, as the code has it.  Query 3 returns one row when some row of the
    joined table has category-2 or category-3 equal to "Dips & Salsa", a
    brand and a sale amount, and no row otherwise.  The row returned
    names a brand of those rows; its total is SQLite's [SUM] of the sale
    amounts of those rows for that brand, taken in the order of the
    table (a sum of doubles, which rounding may set off the exact sum),
    and no brand of those rows has a larger total. *)
Theorem leading_dips_salsa_brand `{Runtime} (merged_df : list merged_row) :
  order_by_contract →
  length (get_leading_dips_salsa_brand merged_df) =
    (if decide (filter dips_salsa_where merged_df = []) then 0 else 1) ∧
  ∀ b t, (b, t) ∈ get_leading_dips_salsa_brand merged_df →
    b ≠ NaN ∧
    (∃ m, m ∈ merged_df ∧ dips_salsa_where m ∧ product_col BRAND m = b) ∧
    t = total_sales (filter (λ m, product_col BRAND m = b)
                       (filter dips_salsa_where merged_df)) ∧
    ∀ m', m' ∈ merged_df → dips_salsa_where m' →
      (total_sales (filter (λ m, product_col BRAND m = product_col BRAND m')
                      (filter dips_salsa_where merged_df)) ≤ t)%Qc.
Proof.
  intros Horder. unfold get_leading_dips_salsa_brand.
  set (matching := filter dips_salsa_where merged_df).
  destruct (order_by_desc (group_by_brand matching)) as [|x rest] eqn:Hsorted.
  - apply (order_by_desc_nil Horder), group_by_brand_nil in Hsorted.
    rewrite decide_True by done. split; [done|].
    intros b t Hin. by apply elem_of_nil in Hin.
  - assert (matching ≠ []) as Hne.
    { intros Hnil. apply group_by_brand_nil in Hnil.
      apply (order_by_desc_nil Horder) in Hnil. congruence. }
    rewrite decide_False by done. split; [done|].
    intros b t Hin. simpl in Hin. rewrite take_0 in Hin.
    apply list_elem_of_singleton in Hin. subst x.
    assert ((b, t) ∈ group_by_brand matching) as Hgroup.
    { destruct (Horder (group_by_brand matching)) as [Hp _].
      rewrite <- Hp, Hsorted. apply list_elem_of_here. }
    apply elem_of_group_by_brand in Hgroup as [(m & Hm & Hb) Ht].
    apply list_elem_of_filter in Hm as [Hwhere Hm].
    split_and!.
    + rewrite <- Hb. by destruct Hwhere as (_ & Hbrand & _).
    + by exists m.
    + done.
    + intros m' Hm' Hwhere'.
      apply (order_by_desc_head Horder _ _ _
               (product_col BRAND m',
                total_sales (filter (λ m0, product_col BRAND m0 = product_col BRAND m')
                               matching)) Hsorted).
      apply elem_of_group_by_brand. split; [|done]. exists m'.
      split; [|done]. by apply list_elem_of_filter.
Qed.

Lemma leading_dips_salsa_brand_witness :
  @order_by_contract reference_runtime ∧
  (λ x : cell * Qc, (x.1, this x.2)) <$>
    @get_leading_dips_salsa_brand reference_runtime
      [example_merged (Str "TOSTITOS") (Str "Dips & Salsa") (Num (qc 5 2));
       example_merged (Str "FRITOS") (Str "Dips & Salsa") (Num (qc 3 1));
       example_merged (Str "TOSTITOS") (Str "Dips & Salsa") (Num (qc 3 2));
       example_merged (Str "TOSTITOS") (Str "Dips & Salsa") NaN;
       example_merged (Str "DOVE") (Str "Bath & Body") (Num (qc 9 1))]
  = [(Str "TOSTITOS", (4 # 1)%Q)] ∧
  length (@get_leading_dips_salsa_brand reference_runtime
      [example_merged (Str "TOSTITOS") (Str "Dips & Salsa") (Num (qc 5 2));
       example_merged (Str "FRITOS") (Str "Dips & Salsa") (Num (qc 3 1));
       example_merged (Str "TOSTITOS") (Str "Dips & Salsa") (Num (qc 3 2));
       example_merged (Str "TOSTITOS") (Str "Dips & Salsa") NaN;
       example_merged (Str "DOVE") (Str "Bath & Body") (Num (qc 9 1))]) = 1.
Proof.
  split; [exact reference_order_by_contract|]. split; [vm_compute; reflexivity|].
  destruct (@leading_dips_salsa_brand reference_runtime
      [example_merged (Str "TOSTITOS") (Str "Dips & Salsa") (Num (qc 5 2));
       example_merged (Str "FRITOS") (Str "Dips & Salsa") (Num (qc 3 1));
       example_merged (Str "TOSTITOS") (Str "Dips & Salsa") (Num (qc 3 2));
       example_merged (Str "TOSTITOS") (Str "Dips & Salsa") NaN;
       example_merged (Str "DOVE") (Str "Bath & Body") (Num (qc 9 1))]
      reference_order_by_contract) as [Hlen _].
  rewrite Hlen. vm_compute. reflexivity.
Defined.

(** Counterexample to C7 as stated: a joined table without a Dips & Salsa row makes
    the query return no row. *)
Lemma no_dips_salsa_no_row :
  @get_leading_dips_salsa_brand reference_runtime
    (merged_data
       (read_csv [set_BARCODE (Str "123.0")
                    (example_transaction (Num (qc 1 1)) (Num (qc 9 1)))])
       (read_csv [example_user_clean "user-1"])
       (read_csv [example_product (Str "123.0") (Str "DOVE") (Str "Bath & Body")]))
  = [] ∧
  length (merged_data
       (read_csv [set_BARCODE (Str "123.0")
                    (example_transaction (Num (qc 1 1)) (Num (qc 9 1)))])
       (read_csv [example_user_clean "user-1"])
       (read_csv [example_product (Str "123.0") (Str "DOVE") (Str "Bath & Body")])) = 1.
Proof. split; vm_compute; reflexivity. Qed.

(** * Further properties

    What the remainder of the script shows: the two top-five queries,
    the joins without the uniqueness assumption, the counts reported on
    the duplicated barcodes, and what the three cleaned tables keep of
    the tables read. *)

(** ** The top rows of a grouped query *)

Lemma StronglySorted_take {A} (R : relation A) n (l : list A) :
  StronglySorted R l → StronglySorted R (take n l).
Proof.
  intros Hs. rewrite <- (take_drop n l) in Hs. by apply StronglySorted_app_1_l in Hs.
Qed.

(** A row past the first [n] of a sorted list is dominated by each of
    the first [n]. *)
Lemma take_sorted_dominates {A} (R : relation A) n (l : list A) x y :
  StronglySorted R l → x ∈ take n l → y ∈ l → y ∉ take n l → R x y.
Proof.
  intros Hs Hx Hy Hny.
  assert (y ∈ take n l ++ drop n l) as Hy' by (by rewrite take_drop).
  apply elem_of_app in Hy' as [Hy'|Hy']; [done|].
  rewrite <- (take_drop n l) in Hs.
  by apply (StronglySorted_app_1_elem_of R _ _ x y Hs).
Qed.

Section top_n.
Context {V : Type} (ge : relation V).
Hypothesis ge_trans : Transitive ge.
Context (order : list (cell * V) → list (cell * V)).
Hypothesis order_ok : ∀ l, order l ≡ₚ l ∧ Sorted (λ x y, ge x.2 y.2) (order l).
Context (aggregate : list merged_row → V).
Implicit Types rows : list merged_row.

Lemma elem_of_group_by_brand_with rows b t :
  (b, t) ∈ group_by_brand_with aggregate rows ↔
  (∃ m, m ∈ rows ∧ product_col BRAND m = b) ∧
  t = aggregate (filter (λ m, product_col BRAND m = b) rows).
Proof.
  unfold group_by_brand_with. rewrite list_elem_of_fmap. split.
  - intros (b0 & [= -> ->] & Hb). split; [|done].
    apply elem_of_remove_dups, list_elem_of_fmap in Hb as (m & -> & Hm). by exists m.
  - intros [(m & Hm & <-) ->]. eexists. split; [reflexivity|].
    apply elem_of_remove_dups. by apply list_elem_of_fmap_2.
Qed.

Lemma group_by_brand_with_brands rows :
  (group_by_brand_with aggregate rows).*1 = remove_dups (product_col BRAND <$> rows).
Proof.
  unfold group_by_brand_with. rewrite <- list_fmap_compose. apply list_fmap_id.
Qed.

Lemma order_StronglySorted l : StronglySorted (λ x y, ge x.2 y.2) (order l).
Proof.
  destruct (order_ok l) as [_ Hs]. apply Sorted_StronglySorted; [|done].
  intros x y z. apply ge_trans.
Qed.

(** [SELECT BRAND, aggregate ... GROUP BY BRAND ORDER BY aggregate DESC
    LIMIT n]. *)
Lemma top_n_spec n rows :
  length (take n (order (group_by_brand_with aggregate rows)))
    = n `min` length (remove_dups (product_col BRAND <$> rows)) ∧
  NoDup (take n (order (group_by_brand_with aggregate rows))).*1 ∧
  (∀ b t, (b, t) ∈ take n (order (group_by_brand_with aggregate rows)) →
     (∃ m, m ∈ rows ∧ product_col BRAND m = b) ∧
     t = aggregate (filter (λ m, product_col BRAND m = b) rows)) ∧
  Sorted (λ x y, ge x.2 y.2) (take n (order (group_by_brand_with aggregate rows))) ∧
  (∀ m b t, m ∈ rows →
     product_col BRAND m ∉ (take n (order (group_by_brand_with aggregate rows))).*1 →
     (b, t) ∈ take n (order (group_by_brand_with aggregate rows)) →
     ge t (aggregate (filter (λ m', product_col BRAND m' = product_col BRAND m) rows))).
Proof.
  set (groups := group_by_brand_with aggregate rows).
  destruct (order_ok groups) as [Hp _].
  pose proof (order_StronglySorted groups) as Hs.
  split_and!.
  - rewrite length_take, Hp. unfold groups, group_by_brand_with.
    by rewrite length_fmap.
  - rewrite fmap_take.
    eapply sublist_NoDup; [|apply sublist_take].
    rewrite Hp. unfold groups. rewrite group_by_brand_with_brands.
    apply NoDup_remove_dups.
  - intros b t Hin.
    apply (sublist_subseteq _ _ (sublist_take _ _)) in Hin.
    rewrite Hp in Hin. by apply elem_of_group_by_brand_with in Hin.
  - apply StronglySorted_Sorted. by apply StronglySorted_take.
  - intros m b t Hm Hout Hin.
    apply (take_sorted_dominates (λ x y, ge x.2 y.2) n (order groups) (b, t)
             (product_col BRAND m,
              aggregate (filter (λ m', product_col BRAND m' = product_col BRAND m) rows)));
      [done|done| |].
    + rewrite Hp. apply elem_of_group_by_brand_with. split; [|done]. by exists m.
    + intros Hin'. apply Hout.
      by apply (list_elem_of_fmap_2 fst) in Hin'.
Qed.

End top_n.

(** ** Queries 1 and 2 *)

#[local] Instance count_order_ge_total : Total count_order_ge.
Proof. intros x y. unfold count_order_ge. lia. Qed.

Lemma reference_order_by_count_contract : @order_by_count_contract reference_count_order.
Proof.
  intros l. simpl. split.
  - apply merge_sort_Permutation.
  - apply (Sorted_merge_sort count_order_ge).
Qed.

(** X1.  Query 1 returns one row for each brand of the rows of the
    joined table whose age is at least 21 and whose brand is not missing,
    five of them at most; the count of a brand is the number of distinct
    non-missing receipt identifiers among these rows of the brand.  The
    rows come in descending order of the count, and no brand that is left
    out has a larger count than a brand that is returned. *)
Theorem top_5_brands_by_receipts `{CountOrder} (merged_df : list merged_row) :
  order_by_count_contract →
  length (get_top_5_brands_by_receipts_users_over_21 merged_df)
    = 5 `min` length (remove_dups (product_col BRAND <$>
                                      filter users_over_21_where merged_df)) ∧
  NoDup (get_top_5_brands_by_receipts_users_over_21 merged_df).*1 ∧
  (∀ b n, (b, n) ∈ get_top_5_brands_by_receipts_users_over_21 merged_df →
     b ≠ NaN ∧
     (∃ m, m ∈ merged_df ∧ users_over_21_where m ∧ product_col BRAND m = b) ∧
     n = count_distinct_receipt_id
           (filter (λ m, product_col BRAND m = b)
              (filter users_over_21_where merged_df))) ∧
  Sorted (λ x y, y.2 ≤ x.2) (get_top_5_brands_by_receipts_users_over_21 merged_df) ∧
  (∀ m b n, m ∈ merged_df → users_over_21_where m →
     product_col BRAND m ∉ (get_top_5_brands_by_receipts_users_over_21 merged_df).*1 →
     (b, n) ∈ get_top_5_brands_by_receipts_users_over_21 merged_df →
     count_distinct_receipt_id
       (filter (λ m', product_col BRAND m' = product_col BRAND m)
          (filter users_over_21_where merged_df)) ≤ n).
Proof.
  intros Horder. unfold get_top_5_brands_by_receipts_users_over_21.
  destruct (top_n_spec (λ a b : nat, b ≤ a) (λ x y z Hxy Hyz, Nat.le_trans _ _ _ Hyz Hxy)
              order_by_count_desc Horder count_distinct_receipt_id 5
              (filter users_over_21_where merged_df))
    as (Hlen & Hnd & Hrows & Hsorted & Htop).
  split_and!; [done|done| |done|].
  - intros b n Hin. destruct (Hrows b n Hin) as [(m & Hm & Hb) Hn].
    apply list_elem_of_filter in Hm as [Hwhere Hm].
    split_and!; [|by exists m|done].
    rewrite <- Hb. by destruct Hwhere as [_ Hbrand].
  - intros m b n Hm Hwhere Hout Hin. apply (Htop m b n); [|done..].
    by apply list_elem_of_filter.
Qed.

(** X2.  Query 2 returns one row for each brand of the rows of the
    joined table whose account age is at least 6 months and whose brand
    and sale amount are not missing, five of them at most; the total of a
    brand is SQLite's [SUM] of the sale amounts of these rows of the
    brand, taken in the order of the table (a sum of doubles, which
    rounding may set off the exact sum).  The rows come in descending
    order of the total, and no brand that is left out has a larger total
    than a brand that is returned. *)
Theorem top_5_brands_by_sales `{Runtime} (merged_df : list merged_row) :
  order_by_contract →
  length (get_top_5_brands_by_sales_account_over_6_months merged_df)
    = 5 `min` length (remove_dups (product_col BRAND <$>
                                      filter account_over_6_months_where merged_df)) ∧
  NoDup (get_top_5_brands_by_sales_account_over_6_months merged_df).*1 ∧
  (∀ b t, (b, t) ∈ get_top_5_brands_by_sales_account_over_6_months merged_df →
     b ≠ NaN ∧
     (∃ m, m ∈ merged_df ∧ account_over_6_months_where m ∧ product_col BRAND m = b) ∧
     t = total_sales
           (filter (λ m, product_col BRAND m = b)
              (filter account_over_6_months_where merged_df))) ∧
  Sorted (λ x y, (y.2 ≤ x.2)%Qc)
    (get_top_5_brands_by_sales_account_over_6_months merged_df) ∧
  (∀ m b t, m ∈ merged_df → account_over_6_months_where m →
     product_col BRAND m ∉ (get_top_5_brands_by_sales_account_over_6_months merged_df).*1 →
     (b, t) ∈ get_top_5_brands_by_sales_account_over_6_months merged_df →
     (total_sales
        (filter (λ m', product_col BRAND m' = product_col BRAND m)
           (filter account_over_6_months_where merged_df)) ≤ t)%Qc).
Proof.
  intros Horder. unfold get_top_5_brands_by_sales_account_over_6_months.
  change group_by_brand with (group_by_brand_with total_sales).
  destruct (top_n_spec (λ a b : Qc, (b ≤ a)%Qc) (λ x y z Hxy Hyz, Qcle_trans _ _ _ Hyz Hxy)
              order_by_desc Horder total_sales 5
              (filter account_over_6_months_where merged_df))
    as (Hlen & Hnd & Hrows & Hsorted & Htop).
  split_and!; [done|done| |done|].
  - intros b t Hin. destruct (Hrows b t Hin) as [(m & Hm & Hb) Ht].
    apply list_elem_of_filter in Hm as [Hwhere Hm].
    split_and!; [|by exists m|done].
    rewrite <- Hb. by destruct Hwhere as (_ & Hbrand & _).
  - intros m b t Hm Hwhere Hout Hin. apply (Htop m b t); [|done..].
    by apply list_elem_of_filter.
Qed.

Lemma top_5_brands_by_receipts_witness :
  @order_by_count_contract reference_count_order ∧
  @get_top_5_brands_by_receipts_users_over_21 reference_count_order example_joined
  = [(Str "DOVE", 2); (Str "CVS", 2); (Str "TOSTITOS", 1); (Str "FRITOS", 1);
     (Str "NERDS CANDY", 1)] ∧
  length (@get_top_5_brands_by_receipts_users_over_21 reference_count_order example_joined)
    = 5 `min` length (remove_dups (product_col BRAND <$>
                                      filter users_over_21_where example_joined)).
Proof.
  split; [exact reference_order_by_count_contract|]. split; [vm_compute; reflexivity|].
  exact (proj1 (@top_5_brands_by_receipts reference_count_order example_joined
                  reference_order_by_count_contract)).
Defined.

Lemma top_5_brands_by_sales_witness :
  @order_by_contract reference_runtime ∧
  (λ x : cell * Qc, (x.1, this x.2)) <$>
    @get_top_5_brands_by_sales_account_over_6_months reference_runtime example_joined
  = [(Str "TRIDENT", (9 # 1)%Q); (Str "DOVE", (7 # 1)%Q); (Str "TOSTITOS", (4 # 1)%Q);
     (Str "CVS", (3 # 1)%Q); (Str "COORS LIGHT", (2 # 1)%Q)] ∧
  length (@get_top_5_brands_by_sales_account_over_6_months reference_runtime example_joined)
    = 5 `min` length (remove_dups (product_col BRAND <$>
                                      filter account_over_6_months_where example_joined)).
Proof.
  split; [exact reference_order_by_contract|]. split; [vm_compute; reflexivity|].
  exact (proj1 (@top_5_brands_by_sales reference_runtime example_joined
                  reference_order_by_contract)).
Defined.

(** ** The joins *)

Section merge.
Context {L R K : Type} `{EqDecision K} (left_on : L → K) (right_on : R → K).
Implicit Types (left : list L) (right : list R).

(** The rows of a left join. *)
Lemma elem_of_merge_left left right l o :
  (l, o) ∈ merge_left left_on right_on left right ↔
  l ∈ left ∧
  match o with
  | Some r => r ∈ right ∧ right_on r = left_on l
  | None => ∀ r, r ∈ right → right_on r ≠ left_on l
  end.
Proof.
  unfold merge_left. rewrite list_elem_of_bind. split.
  - intros (l0 & Hin & Hl0).
    destruct (filter (λ r, right_on r = left_on l0) right) as [|a ms] eqn:Hf.
    + apply list_elem_of_singleton in Hin as [= -> ->]. split; [done|].
      intros r Hr Heq.
      assert (r ∈ filter (λ r, right_on r = left_on l0) right) as Hrf
        by (by apply list_elem_of_filter).
      rewrite Hf in Hrf. by apply elem_of_nil in Hrf.
    + apply list_elem_of_fmap in Hin as (r & [= -> ->] & Hr). split; [done|].
      rewrite <- Hf in Hr. apply list_elem_of_filter in Hr. tauto.
  - intros [Hl Ho]. exists l. split; [|done].
    destruct (filter (λ r, right_on r = left_on l) right) as [|a ms] eqn:Hf.
    + destruct o as [r|]; [|apply list_elem_of_here].
      destruct Ho as [Hr Heq].
      assert (r ∈ filter (λ r, right_on r = left_on l) right) as Hrf
        by (by apply list_elem_of_filter).
      rewrite Hf in Hrf. by apply elem_of_nil in Hrf.
    + destruct o as [r|].
      * destruct Ho as [Hr Heq].
        apply (list_elem_of_fmap_2 (λ r, (l, Some r))). rewrite <- Hf.
        by apply list_elem_of_filter.
      * assert (a ∈ filter (λ r, right_on r = left_on l) right) as Haf
          by (rewrite Hf; apply list_elem_of_here).
        apply list_elem_of_filter in Haf as [Heq Ha]. by destruct (Ho a Ha).
Qed.

(** The left rows of a left join: each left row, in order, once when no
    right row matches it and once per matching right row otherwise. *)
Lemma merge_left_fst left right :
  (merge_left left_on right_on left right).*1 =
  left ≫= λ l, replicate (1 `max` length (filter (λ r, right_on r = left_on l) right)) l.
Proof.
  unfold merge_left. induction left as [|l left IH]; [done|].
  rewrite !bind_cons, fmap_app, IH. f_equal.
  destruct (filter (λ r, right_on r = left_on l) right) as [|a ms]; [done|].
  rewrite <- list_fmap_compose.
  rewrite (const_fmap _ (a :: ms) l) by done.
  f_equal.
Qed.

End merge.

Lemma fmap_bind_list {A B C} (g : B → C) (f : A → list B) (l : list A) :
  g <$> (l ≫= f) = l ≫= λ x, g <$> f x.
Proof.
  induction l as [|x l IH]; [done|]. by rewrite !bind_cons, fmap_app, IH.
Qed.

Lemma bind_bind_list {A B C} (f : A → list B) (g : B → list C) (l : list A) :
  (l ≫= f) ≫= g = l ≫= λ x, f x ≫= g.
Proof.
  induction l as [|x l IH]; [done|]. by rewrite !bind_cons, bind_app, IH.
Qed.

Lemma replicate_bind_replicate {A} (k : A → nat) n (x : A) :
  replicate n x ≫= (λ y, replicate (k y) y) = replicate (n * k x) x.
Proof.
  induction n as [|n IH]; [done|].
  rewrite replicate_S, bind_cons, IH. simpl. by rewrite replicate_add.
Qed.

Lemma length_bind_replicate {A} (k : A → nat) (l : list A) :
  length (l ≫= λ x, replicate (k x) x) = sum_list (k <$> l).
Proof.
  induction l as [|x l IH]; [done|].
  rewrite bind_cons, length_app, length_replicate, IH. done.
Qed.

(** X3.  The rows of the joined table are exactly these: a cleaned
    transaction, with a cleaned user whose ID is its USER_ID, or no user
    when no cleaned user has that ID, and with a cleaned product whose
    barcode is its BARCODE, or no product when no cleaned product has
    that barcode. *)
Theorem merged_data_rows (transaction : frame transaction_row)
    (user : frame user_clean) (products : frame product_row) (m : merged_row) :
  m ∈ merged_data transaction user products ↔
  m_transaction m ∈ transaction.*2 ∧
  match m_user m with
  | Some u => u ∈ user.*2 ∧ ID u = USER_ID (m_transaction m)
  | None => ∀ u, u ∈ user.*2 → ID u ≠ USER_ID (m_transaction m)
  end ∧
  match m_product m with
  | Some p => p ∈ products.*2 ∧ BARCODE_products p = BARCODE (m_transaction m)
  | None => ∀ p, p ∈ products.*2 → BARCODE_products p ≠ BARCODE (m_transaction m)
  end.
Proof.
  unfold merged_data. destruct m as [t ou op]. simpl.
  rewrite list_elem_of_fmap. split.
  - intros ([[t' ou'] op'] & [= -> -> ->] & Hin).
    apply elem_of_merge_left in Hin as [Hin Hp]. simpl in Hp.
    apply elem_of_merge_left in Hin as [Ht Hu]. done.
  - intros (Ht & Hu & Hp). exists (t, ou, op). split; [done|].
    apply elem_of_merge_left. split; [|done].
    by apply elem_of_merge_left.
Qed.

(** X4.  The joined table holds the cleaned transactions in their
    order, each one as many times as the number of cleaned users with
    its USER_ID (once if there is none) times the number of cleaned
    products with its BARCODE (once if there is none); its length is the
    sum of these products. *)
Theorem merged_data_fan_out (transaction : frame transaction_row)
    (user : frame user_clean) (products : frame product_row) :
  m_transaction <$> merged_data transaction user products =
    (transaction.*2 ≫= λ t,
       replicate
         ((1 `max` length (filter (λ u, ID u = USER_ID t) user.*2)) *
          (1 `max` length (filter (λ p, BARCODE_products p = BARCODE t) products.*2))) t) ∧
  length (merged_data transaction user products) =
    sum_list ((λ t,
       (1 `max` length (filter (λ u, ID u = USER_ID t) user.*2)) *
       (1 `max` length (filter (λ p, BARCODE_products p = BARCODE t) products.*2)))
      <$> transaction.*2).
Proof.
  assert (m_transaction <$> merged_data transaction user products =
    (transaction.*2 ≫= λ t,
       replicate
         ((1 `max` length (filter (λ u, ID u = USER_ID t) user.*2)) *
          (1 `max` length (filter (λ p, BARCODE_products p = BARCODE t) products.*2))) t))
    as Hrows.
  { unfold merged_data. rewrite <- list_fmap_compose.
    change (m_transaction ∘ _)
      with (@fst transaction_row (option user_clean) ∘ @fst _ (option product_row)).
    rewrite (list_fmap_compose fst fst).
    rewrite merge_left_fst, fmap_bind_list.
    etrans; [apply list_bind_ext; [intros x; apply fmap_replicate|done]|].
    change (merge_left USER_ID ID transaction.*2 user.*2 ≫= _) with
      (merge_left USER_ID ID transaction.*2 user.*2 ≫=
         (λ t, replicate
                 (1 `max` length (filter (λ p, BARCODE_products p = BARCODE t)
                                    products.*2)) t) ∘ fst).
    rewrite <- list_fmap_bind, merge_left_fst, bind_bind_list.
    apply list_bind_ext; [|done]. intros t.
    apply (replicate_bind_replicate
      (λ t, 1 `max` length (filter (λ p, BARCODE_products p = BARCODE t) products.*2))). }
  split; [done|].
  rewrite <- (length_fmap m_transaction), Hrows.
  apply (length_bind_replicate (λ t,
    (1 `max` length (filter (λ u, ID u = USER_ID t) user.*2)) *
    (1 `max` length (filter (λ p, BARCODE_products p = BARCODE t) products.*2)))).
Qed.

(** ** Transactions, once more *)

Lemma filter_sublist_mono {A} (P : A → Prop) `{∀ x, Decision (P x)} (l1 l2 : list A) :
  l1 `sublist_of` l2 → filter P l1 `sublist_of` filter P l2.
Proof.
  induction 1 as [|x l1 l2 Hsub IH|x l1 l2 Hsub IH]; [done| |].
  - rewrite !filter_cons. case_decide; [by apply sublist_skip|done].
  - rewrite filter_cons. case_decide; [by apply sublist_cons|done].
Qed.

(** A row that has a duplicate within a selection of the frame has one
    within the frame. *)
Lemma duplicated_sublist {R K} `{EqDecision K} (key : R → K) (l df : frame R) x :
  l `sublist_of` df → duplicated key l x → duplicated key df x.
Proof.
  unfold duplicated. intros Hsub Hd.
  pose proof (sublist_length _ _
    (filter_sublist_mono (λ y : nat * R, key y.2 = key x.2) _ _ Hsub)).
  lia.
Qed.

(** X5.  [remove_duplicate_missing_sales] is idempotent on a frame
    whose labels increase: applied to its own result it removes
    nothing. *)
Theorem remove_duplicate_missing_sales_idempotent (df : frame transaction_row) :
  index_increasing df →
  remove_duplicate_missing_sales (remove_duplicate_missing_sales df)
  = remove_duplicate_missing_sales df.
Proof.
  intros Hs.
  pose proof (remove_duplicate_missing_sales_sublist df Hs) as Hsub.
  pose proof (index_increasing_sublist _ _ Hsub Hs) as Hs'.
  rewrite (remove_duplicate_missing_sales_eq (remove_duplicate_missing_sales df) Hs').
  apply filter_all. intros x Hx.
  destruct (decide (duplicated subset_no_sales (remove_duplicate_missing_sales df) x))
    as [Hd|Hd]; [right|by left].
  split; [done|].
  apply elem_of_remove_duplicate_missing_sales in Hx; [|done].
  destruct Hx as [Hx [Hna|Hno]]; [done|].
  destruct Hno. apply (duplicated_sublist _ _ df) in Hd; [|done].
  apply duplicated_iff in Hd; [done| |done]. by apply index_increasing_NoDup.
Qed.

Lemma remove_duplicate_missing_sales_idempotent_witness :
  index_increasing
    (read_csv [example_transaction (Num (qc 1 1)) NaN;
               example_transaction (Num (qc 1 1)) (Num (qc 3 2));
               example_transaction (Num (qc 2 1)) NaN]) ∧
  remove_duplicate_missing_sales
    (read_csv [example_transaction (Num (qc 1 1)) NaN;
               example_transaction (Num (qc 1 1)) (Num (qc 3 2));
               example_transaction (Num (qc 2 1)) NaN])
  = [(1, example_transaction (Num (qc 1 1)) (Num (qc 3 2)));
     (2, example_transaction (Num (qc 2 1)) NaN)] ∧
  remove_duplicate_missing_sales
    (remove_duplicate_missing_sales
       (read_csv [example_transaction (Num (qc 1 1)) NaN;
                  example_transaction (Num (qc 1 1)) (Num (qc 3 2));
                  example_transaction (Num (qc 2 1)) NaN]))
  = remove_duplicate_missing_sales
      (read_csv [example_transaction (Num (qc 1 1)) NaN;
                 example_transaction (Num (qc 1 1)) (Num (qc 3 2));
                 example_transaction (Num (qc 2 1)) NaN]).
Proof.
  pose proof (read_csv_increasing
    [example_transaction (Num (qc 1 1)) NaN;
     example_transaction (Num (qc 1 1)) (Num (qc 3 2));
     example_transaction (Num (qc 2 1)) NaN]) as Hs.
  split; [exact Hs|]. split; [vm_compute; reflexivity|].
  exact (remove_duplicate_missing_sales_idempotent _ Hs).
Defined.

(** X6.  No cleaned quantity equals 276, and the three steps on
    FINAL_QUANTITY leave a cleaned quantity as it is. *)
Theorem clean_quantity_idempotent `{Runtime} (c v : cell) :
  clean_quantity c = OK v →
  v ≠ Num (qc 276 1) ∧ clean_quantity v = OK v.
Proof.
  intros Hc.
  assert (v ≠ Num (qc 276 1)) as Hv.
  { unfold clean_quantity in Hc.
    destruct (astype_float _) as [f|e]; [|done]. injection Hc as <-.
    unfold replace. case_decide as Hf; [by intros [=]|].
    by rewrite list_elem_of_singleton in Hf. }
  split; [done|].
  assert (v ≠ Str "zero") as Hz by (by eapply clean_quantity_not_Str).
  rewrite clean_quantity_not_zero by done.
  destruct v as [|s|q]; simpl.
  - done.
  - by destruct (clean_quantity_not_Str _ _ Hc s).
  - by rewrite decide_False.
Qed.

Lemma clean_quantity_idempotent_witness :
  @clean_quantity reference_runtime (Str "276") = OK (Num (qc 276 100)) ∧
  Num (qc 276 100) ≠ Num (qc 276 1) ∧
  @clean_quantity reference_runtime (Num (qc 276 100)) = OK (Num (qc 276 100)).
Proof.
  assert (@clean_quantity reference_runtime (Str "276") = OK (Num (qc 276 100))) as Hc
    by reflexivity.
  split; [exact Hc|].
  exact (@clean_quantity_idempotent reference_runtime _ _ Hc).
Defined.

(** The conversion raises what one of its cells raises. *)
Lemma assignM_Raise_inv {R T} (f : R → result T) (df : frame R) e :
  assignM f df = Raise e → ∃ x, x ∈ df ∧ f x.2 = Raise e.
Proof.
  induction df as [|a df IH]; [done|].
  rewrite assignM_cons. destruct (f a.2) as [t|e'] eqn:Ha.
  - destruct (assignM f df) as [out|e']; [done|]. intros [= ->].
    destruct IH as (x & Hx & Hf); [done|]. exists x.
    split; [by apply list_elem_of_further|done].
  - intros [= ->]. exists a. split; [apply list_elem_of_here|done].
Qed.

(** X7.  A cleaned transaction row is the raw row with the same label
    with its columns converted: FINAL_SALE is a number or missing, never
    a text; BARCODE is a text, never missing (a missing barcode is the
    text 'nan'); the receipt, the user and the other columns are those of
    the raw row. *)
Theorem cleaned_transaction_columns `{Runtime} (rows : list transaction_row)
    (out : frame transaction_row) (i : nat) (r : transaction_row) :
  clean_transactions (read_csv rows) = OK out → (i, r) ∈ out →
  ∃ r0, rows !! i = Some r0 ∧
        FINAL_SALE r = to_numeric_coerce (FINAL_SALE r0) ∧
        (∀ s, FINAL_SALE r ≠ Str s) ∧
        BARCODE r = astype_str (BARCODE r0) ∧
        (∃ s, BARCODE r = Str s) ∧
        RECEIPT_ID r = RECEIPT_ID r0 ∧ USER_ID r = USER_ID r0 ∧
        txn_other r = txn_other r0.
Proof.
  intros Hclean Hin. unfold clean_transactions in Hclean.
  destruct (transactions_coerced (read_csv rows)) as [d|e] eqn:Hd; [|done].
  injection Hclean as <-.
  pose proof (transactions_coerced_increasing _ _ Hd) as Hinc.
  apply (sublist_subseteq _ _ (remove_duplicate_missing_sales_sublist d Hinc)) in Hin.
  destruct (coerced_row_origin _ _ _ _ Hd Hin) as (r0 & _ & Hr0 & Hc).
  apply coerce_transaction_OK in Hc as (_ & Hsale & Hbar & Hrest).
  exists r0. split_and!; [done|done| |done| |tauto..].
  - rewrite Hsale. intros s. destruct (FINAL_SALE r0) as [|s'|q]; simpl; [done| |done].
    by destruct (to_numeric s').
  - rewrite Hbar. destruct (BARCODE r0); simpl; eauto.
Qed.

Lemma cleaned_transaction_columns_witness :
  ∃ r,
    @clean_transactions reference_runtime
      (read_csv [set_BARCODE NaN (example_transaction (Str "1") (Str "n/a"))])
    = OK [(0, r)] ∧
    FINAL_SALE r = NaN ∧ BARCODE r = Str "nan" ∧ RECEIPT_ID r = Str "receipt-1".
Proof.
  assert (∃ r, @clean_transactions reference_runtime
                 (read_csv [set_BARCODE NaN (example_transaction (Str "1") (Str "n/a"))])
               = OK [(0, r)]) as [r Hr].
  { eexists. vm_compute. reflexivity. }
  exists r. split; [exact Hr|].
  destruct (@cleaned_transaction_columns reference_runtime _ _ 0 r Hr)
    as (r0 & Hr0 & Hsale & _ & Hbar & _ & Hrec & _).
  { apply list_elem_of_here. }
  injection Hr0 as <-. split; [exact Hsale|]. split; [exact Hbar|exact Hrec].
Defined.

(** X8.  Cleaning the transactions raises nothing but ValueError, and
    raises it exactly when some FINAL_QUANTITY is a text other than
    'zero' that [float] does not read. *)
Theorem clean_transactions_raises `{Runtime} (rows : list transaction_row) :
  py_float "0" = Some (qc 0 1) →
  match clean_transactions (read_csv rows) with
  | OK _ =>
      ∀ r s, r ∈ rows → FINAL_QUANTITY r = Str s → s = "zero" ∨ is_Some (py_float s)
  | Raise e =>
      e = ValueError ∧
      ∃ r s, r ∈ rows ∧ FINAL_QUANTITY r = Str s ∧ s ≠ "zero" ∧ py_float s = None
  end.
Proof.
  intros Hzero. unfold clean_transactions.
  destruct (transactions_coerced (read_csv rows)) as [d|e] eqn:Hd.
  - intros r s Hr Hq. apply list_elem_of_lookup in Hr as [i Hi].
    apply elem_of_read_csv in Hi.
    destruct (drop_duplicates_subset_covers id (read_csv rows) (i, r) Hi)
      as ([j r'] & Hj & Heq). simpl in Heq. subst r'.
    destruct (coerced_row_image _ _ _ _ Hd Hj) as (t & _ & Hc).
    apply coerce_transaction_OK in Hc as [Hc _]. rewrite Hq in Hc.
    destruct (decide (s = "zero")) as [|Hs]; [by left|right].
    rewrite clean_quantity_not_zero in Hc by congruence. simpl in Hc.
    by destruct (py_float s).
  - rewrite transactions_coerced_eq in Hd.
    apply assignM_Raise_inv in Hd as ([i r] & Hin & Hc). simpl in Hc.
    split; [by eapply coerce_transaction_Raise|].
    apply (sublist_subseteq _ _ (drop_duplicates_subset_sublist id (read_csv rows))),
      elem_of_read_csv, list_elem_of_lookup_2 in Hin.
    unfold coerce_transaction in Hc.
    destruct (clean_quantity (FINAL_QUANTITY r)) as [q|e'] eqn:Hq; [done|].
    destruct (FINAL_QUANTITY r) as [|s|q] eqn:Hcell.
    + by vm_compute in Hq.
    + exists r, s. destruct (decide (s = "zero")) as [->|Hs].
      * unfold clean_quantity, replace in Hq.
        rewrite decide_True in Hq by (by apply list_elem_of_singleton).
        simpl in Hq. by rewrite Hzero in Hq.
      * rewrite clean_quantity_not_zero in Hq by congruence. simpl in Hq.
        split_and!; [done..|]. by destruct (py_float s).
    + rewrite clean_quantity_not_zero in Hq by done. done.
Qed.

Lemma clean_transactions_raises_witness :
  @py_float reference_runtime "0" = Some (qc 0 1) ∧
  @clean_transactions reference_runtime
    (read_csv [example_transaction (Str "one") (Str "1.50")]) = Raise ValueError ∧
  ∃ r s, r ∈ [example_transaction (Str "one") (Str "1.50")] ∧
         FINAL_QUANTITY r = Str s ∧ s ≠ "zero" ∧ @py_float reference_runtime s = None.
Proof.
  assert (@py_float reference_runtime "0" = Some (qc 0 1)) as Hzero by reflexivity.
  split; [exact Hzero|].
  pose proof (@clean_transactions_raises reference_runtime
                [example_transaction (Str "one") (Str "1.50")] Hzero) as Hraise.
  assert (@clean_transactions reference_runtime
            (read_csv [example_transaction (Str "one") (Str "1.50")]) = Raise ValueError)
    as Heq by (vm_compute; reflexivity).
  rewrite Heq in Hraise. split; [exact Heq|]. exact (proj2 Hraise).
Defined.

(** ** Products, once more *)

(** No row is duplicated when the keys differ. *)
Lemma no_duplicated_rows {R K} `{EqDecision K} (key : R → K) (df : frame R) :
  NoDup (key <$> df.*2) → filter (duplicated key df) df = [].
Proof.
  intros Hnd. apply elem_of_nil_inv. intros x Hx.
  apply list_elem_of_filter in Hx as [Hd _]. unfold duplicated in Hd.
  rewrite <- list_fmap_compose in Hnd.
  pose proof (filter_unique_key_length (key ∘ snd) df (key x.2) Hnd) as Hle.
  simpl in Hle. lia.
Qed.

Section products_again.
Context `{Runtime} {K : Type} `{EqDecision K} (key : product_row → K).
Hypothesis sort_ok : sort_values_contract.
Implicit Types df : frame product_row.

Lemma keep_most_complete_duplicates_keys_NoDup df :
  index_increasing df →
  NoDup (key <$> (keep_most_complete_duplicates df key).*2).
Proof.
  intros Hs. rewrite <- list_fmap_compose. apply NoDup_fmap_2_strong.
  - intros x y Hx Hy Heq. by apply (keep_most_complete_duplicates_unique key sort_ok df).
  - eapply sublist_NoDup; [|by apply keep_most_complete_duplicates_sublist].
    by apply index_increasing_NoDup.
Qed.

End products_again.

(** X9.  When no two rows of the table have the same value in the
    duplicate column, [keep_most_complete_duplicates] returns the table
    as it is, whatever [sort_values] does. *)
Theorem keep_most_complete_duplicates_without_duplicates `{Runtime} {K} `{EqDecision K}
    (df : frame product_row) (duplicate_column : product_row → K) :
  NoDup (duplicate_column <$> df.*2) →
  keep_most_complete_duplicates df duplicate_column = df.
Proof.
  intros Hnd. unfold keep_most_complete_duplicates.
  rewrite decide_True; [done|]. by apply no_duplicated_rows.
Qed.

Lemma keep_most_complete_duplicates_without_duplicates_witness :
  NoDup (BARCODE_products <$>
           (read_csv [example_product (Str "111") NaN NaN;
                      example_product (Str "222") (Str "DOVE") NaN]).*2) ∧
  @keep_most_complete_duplicates ties_reversed_runtime _ _
    (read_csv [example_product (Str "111") NaN NaN;
               example_product (Str "222") (Str "DOVE") NaN]) BARCODE_products
  = read_csv [example_product (Str "111") NaN NaN;
              example_product (Str "222") (Str "DOVE") NaN].
Proof.
  assert (NoDup (BARCODE_products <$>
                   (read_csv [example_product (Str "111") NaN NaN;
                              example_product (Str "222") (Str "DOVE") NaN]).*2)) as Hnd.
  { apply (bool_decide_unpack _). vm_compute. reflexivity. }
  split; [exact Hnd|].
  exact (@keep_most_complete_duplicates_without_duplicates ties_reversed_runtime _ _ _ _ Hnd).
Defined.

(** X10.  [keep_most_complete_duplicates] is idempotent on a frame
    whose labels increase, for every [sort_values] that meets its
    contract: its result has no duplicates left. *)
Theorem keep_most_complete_duplicates_idempotent `{Runtime} {K} `{EqDecision K}
    (df : frame product_row) (duplicate_column : product_row → K) :
  sort_values_contract → index_increasing df →
  keep_most_complete_duplicates (keep_most_complete_duplicates df duplicate_column)
    duplicate_column
  = keep_most_complete_duplicates df duplicate_column.
Proof.
  intros Hsort Hs. unfold keep_most_complete_duplicates at 1.
  rewrite decide_True; [done|].
  by apply no_duplicated_rows, keep_most_complete_duplicates_keys_NoDup.
Qed.

Lemma keep_most_complete_duplicates_idempotent_witness :
  @sort_values_contract reference_runtime ∧
  index_increasing
    (read_csv [example_product (Str "111") NaN NaN;
               example_product (Str "222") NaN NaN;
               example_product (Str "111") (Str "DOVE") NaN]) ∧
  @keep_most_complete_duplicates reference_runtime _ _
    (read_csv [example_product (Str "111") NaN NaN;
               example_product (Str "222") NaN NaN;
               example_product (Str "111") (Str "DOVE") NaN]) BARCODE_products
  = [(1, example_product (Str "222") NaN NaN);
     (2, example_product (Str "111") (Str "DOVE") NaN)] ∧
  @keep_most_complete_duplicates reference_runtime _ _
    (@keep_most_complete_duplicates reference_runtime _ _
       (read_csv [example_product (Str "111") NaN NaN;
                  example_product (Str "222") NaN NaN;
                  example_product (Str "111") (Str "DOVE") NaN]) BARCODE_products)
    BARCODE_products
  = @keep_most_complete_duplicates reference_runtime _ _
      (read_csv [example_product (Str "111") NaN NaN;
                 example_product (Str "222") NaN NaN;
                 example_product (Str "111") (Str "DOVE") NaN]) BARCODE_products.
Proof.
  pose proof (read_csv_increasing
    [example_product (Str "111") NaN NaN;
     example_product (Str "222") NaN NaN;
     example_product (Str "111") (Str "DOVE") NaN]) as Hs.
  split; [exact reference_sort_values_contract|]. split; [exact Hs|].
  split; [vm_compute; reflexivity|].
  exact (@keep_most_complete_duplicates_idempotent reference_runtime _ _ _ _
           reference_sort_values_contract Hs).
Defined.

(** X11.  A cleaned product row is the raw row with the same label
    with its barcode turned into a text (never missing: a missing
    barcode is the text 'nan'), its other columns as read; its
    CATEGORY_1 is not the placeholder 'Needs Review'. *)
Theorem cleaned_product_columns `{Runtime} (rows : list product_row)
    (i : nat) (p : product_row) :
  sort_values_contract →
  (i, p) ∈ clean_products (read_csv rows) →
  ∃ r0, rows !! i = Some r0 ∧
        p = set_BARCODE_products (astype_str (BARCODE_products r0)) r0 ∧
        (∃ s, BARCODE_products p = Str s) ∧
        CATEGORY_1 p ≠ Str "Needs Review".
Proof.
  intros Hsort Hin. rewrite clean_products_eq in Hin.
  apply (sublist_subseteq _ _
           (keep_most_complete_duplicates_sublist BARCODE_products Hsort _
              (products_prepared_increasing rows))) in Hin.
  apply products_prepared_rows in Hin as (r0 & Hr0 & Hcat & ->).
  exists r0. split_and!; [|done| |done].
  - apply elem_of_read_csv.
    by apply (sublist_subseteq _ _ (drop_duplicates_subset_sublist id (read_csv rows))).
  - simpl. destruct (BARCODE_products r0); simpl; eauto.
Qed.

Lemma cleaned_product_columns_witness :
  @sort_values_contract reference_runtime ∧
  @clean_products reference_runtime
    (read_csv [mk_product (Str "Needs Review") NaN NaN NaN NaN NaN (Str "111");
               example_product (Num (qc 222 1)) (Str "DOVE") NaN])
  = [(1, example_product (Str "222.0") (Str "DOVE") NaN)] ∧
  ∃ r0, [mk_product (Str "Needs Review") NaN NaN NaN NaN NaN (Str "111");
         example_product (Num (qc 222 1)) (Str "DOVE") NaN] !! 1 = Some r0 ∧
        example_product (Str "222.0") (Str "DOVE") NaN
        = set_BARCODE_products (@astype_str reference_runtime (BARCODE_products r0)) r0 ∧
        (∃ s, BARCODE_products (example_product (Str "222.0") (Str "DOVE") NaN) = Str s) ∧
        CATEGORY_1 (example_product (Str "222.0") (Str "DOVE") NaN) ≠ Str "Needs Review".
Proof.
  split; [exact reference_sort_values_contract|].
  assert (@clean_products reference_runtime
            (read_csv [mk_product (Str "Needs Review") NaN NaN NaN NaN NaN (Str "111");
                       example_product (Num (qc 222 1)) (Str "DOVE") NaN])
          = [(1, example_product (Str "222.0") (Str "DOVE") NaN)]) as Heq
    by (vm_compute; reflexivity).
  split; [exact Heq|].
  apply (@cleaned_product_columns reference_runtime _ 1 _ reference_sort_values_contract).
  rewrite Heq. apply list_elem_of_here.
Defined.

(** X12.  For every [sort_values] that meets its contract, no two rows
    of the cleaned products table have the same barcode, and each raw
    row outside the 'Needs Review' placeholder has its barcode, as a
    text, on a cleaned row that has at least as many non-missing
    fields. *)
Theorem one_product_per_barcode `{Runtime} (rows : list product_row) :
  sort_values_contract →
  NoDup (BARCODE_products <$> (clean_products (read_csv rows)).*2) ∧
  ∀ r, r ∈ rows → CATEGORY_1 r ≠ Str "Needs Review" →
    ∃ y, y ∈ clean_products (read_csv rows) ∧
         BARCODE_products y.2 = astype_str (BARCODE_products r) ∧
         non_missing_count (set_BARCODE_products (astype_str (BARCODE_products r)) r)
           ≤ non_missing_count y.2.
Proof.
  intros Hsort. rewrite clean_products_eq.
  pose proof (products_prepared_increasing rows) as Hinc. split.
  - by apply keep_most_complete_duplicates_keys_NoDup.
  - intros r Hr Hcat.
    apply list_elem_of_lookup in Hr as [i Hi]. apply elem_of_read_csv in Hi.
    destruct (drop_duplicates_subset_covers id (read_csv rows) (i, r) Hi)
      as ([j r'] & Hj & Heq). simpl in Heq. subst r'.
    assert ((j, set_BARCODE_products (astype_str (BARCODE_products r)) r)
              ∈ products_prepared (read_csv rows)) as Hprep.
    { apply products_prepared_rows. by exists r. }
    destruct (keep_most_complete_duplicates_covers BARCODE_products Hsort _ _ Hinc Hprep)
      as (y & Hy & Hby).
    exists y. split_and!; [done..|].
    by apply (keep_most_complete_duplicates_max BARCODE_products Hsort
                (products_prepared (read_csv rows))
                (j, set_BARCODE_products (astype_str (BARCODE_products r)) r) y).
Qed.

Lemma one_product_per_barcode_witness :
  @sort_values_contract ties_reversed_runtime ∧
  @clean_products ties_reversed_runtime
    (read_csv [example_product (Str "111") NaN NaN;
               example_product (Str "111") (Str "DOVE") (Str "Bath & Body");
               example_product NaN (Str "DOVE") NaN;
               example_product NaN NaN NaN])
  = [(1, example_product (Str "111") (Str "DOVE") (Str "Bath & Body"));
     (2, example_product (Str "nan") (Str "DOVE") NaN)] ∧
  NoDup (BARCODE_products <$>
           (@clean_products ties_reversed_runtime
              (read_csv [example_product (Str "111") NaN NaN;
                         example_product (Str "111") (Str "DOVE") (Str "Bath & Body");
                         example_product NaN (Str "DOVE") NaN;
                         example_product NaN NaN NaN])).*2).
Proof.
  split; [exact ties_reversed_sort_values_contract|]. split; [vm_compute; reflexivity|].
  exact (proj1 (@one_product_per_barcode ties_reversed_runtime _
                  ties_reversed_sort_values_contract)).
Defined.

(** X13.  If [sort_values] is stable, the cleaned products table holds
    exactly the prepared rows that no row with the same barcode beats: a
    row is retained when every row of its barcode has fewer non-missing
    fields, or as many and a label that is not smaller. *)
Theorem clean_products_if_stable `{Runtime} (rows : list product_row)
    (y : nat * product_row) :
  sort_values_contract → sort_values_stable →
  y ∈ clean_products (read_csv rows) ↔
  y ∈ products_prepared (read_csv rows) ∧
  ∀ x, x ∈ products_prepared (read_csv rows) →
       BARCODE_products x.2 = BARCODE_products y.2 →
       non_missing_count x.2 < non_missing_count y.2 ∨
       (non_missing_count x.2 = non_missing_count y.2 ∧ y.1 ≤ x.1).
Proof.
  intros Hsort Hstable. rewrite clean_products_eq.
  pose proof (products_prepared_increasing rows) as Hinc.
  set (prepared := products_prepared (read_csv rows)) in *.
  split.
  - intros Hy. split.
    + by apply (sublist_subseteq _ _
                  (keep_most_complete_duplicates_sublist BARCODE_products Hsort _ Hinc)).
    + intros x Hx Hkey.
      pose proof (keep_most_complete_duplicates_max BARCODE_products Hsort
                    prepared x y Hinc Hy Hx Hkey) as Hmax.
      destruct (decide (non_missing_count x.2 = non_missing_count y.2)) as [Heq|Hne];
        [right|left; lia].
      split; [done|].
      by apply (keep_most_complete_duplicates_first BARCODE_products Hsort Hstable
                  prepared x y).
  - intros [Hy Hbest].
    destruct (keep_most_complete_duplicates_covers BARCODE_products Hsort _ _ Hinc Hy)
      as (y' & Hy' & Hkey).
    pose proof (sublist_subseteq _ _
      (keep_most_complete_duplicates_sublist BARCODE_products Hsort _ Hinc) _ Hy') as Hin'.
    pose proof (keep_most_complete_duplicates_max BARCODE_products Hsort
                  prepared y y' Hinc Hy' Hy (eq_sym Hkey)) as Hmax.
    destruct (Hbest y' Hin' Hkey) as [Hlt|[Heq Hle]]; [lia|].
    pose proof (keep_most_complete_duplicates_first BARCODE_products Hsort Hstable
                  prepared y y' Hinc Hy' Hy (eq_sym Hkey) (eq_sym Heq)) as Hfirst.
    assert (y = y') as ->; [|done].
    apply (index_increasing_inj prepared); [done..|lia].
Qed.

Lemma clean_products_if_stable_witness :
  @sort_values_contract stable_runtime ∧
  @sort_values_stable stable_runtime ∧
  @clean_products stable_runtime
    (read_csv [example_product (Str "111") (Str "DOVE") NaN;
               example_product (Str "111") (Str "TRIDENT") NaN;
               example_product (Str "222") NaN NaN])
  = [(0, example_product (Str "111") (Str "DOVE") NaN);
     (2, example_product (Str "222") NaN NaN)] ∧
  ((0, example_product (Str "111") (Str "DOVE") NaN)
     ∈ @clean_products stable_runtime
         (read_csv [example_product (Str "111") (Str "DOVE") NaN;
                    example_product (Str "111") (Str "TRIDENT") NaN;
                    example_product (Str "222") NaN NaN]) ↔
   (0, example_product (Str "111") (Str "DOVE") NaN)
     ∈ @products_prepared stable_runtime
         (read_csv [example_product (Str "111") (Str "DOVE") NaN;
                    example_product (Str "111") (Str "TRIDENT") NaN;
                    example_product (Str "222") NaN NaN]) ∧
   ∀ x, x ∈ @products_prepared stable_runtime
              (read_csv [example_product (Str "111") (Str "DOVE") NaN;
                         example_product (Str "111") (Str "TRIDENT") NaN;
                         example_product (Str "222") NaN NaN]) →
        BARCODE_products x.2 = Str "111" →
        non_missing_count x.2 < 3 ∨ (non_missing_count x.2 = 3 ∧ 0 ≤ x.1)).
Proof.
  split; [exact stable_sort_values_contract|]. split; [exact stable_sort_values_stable|].
  split; [vm_compute; reflexivity|].
  exact (@clean_products_if_stable stable_runtime
           [example_product (Str "111") (Str "DOVE") NaN;
            example_product (Str "111") (Str "TRIDENT") NaN;
            example_product (Str "222") NaN NaN]
           (0, example_product (Str "111") (Str "DOVE") NaN)
           stable_sort_values_contract stable_sort_values_stable).
Defined.

(** ** The duplicated barcodes, counted *)

Section counting.
Context {A : Type} `{EqDecision A}.
Implicit Types l : list A.

Lemma length_remove_dups_Permutation l1 l2 :
  (∀ x, x ∈ l1 ↔ x ∈ l2) → length (remove_dups l1) = length (remove_dups l2).
Proof.
  intros Hiff. apply Permutation_length, NoDup_Permutation; [apply NoDup_remove_dups..|].
  intros x. by rewrite !elem_of_remove_dups.
Qed.

Lemma length_remove_dups_NoDup l : NoDup l → length (remove_dups l) = length l.
Proof.
  intros Hnd. apply Permutation_length, NoDup_Permutation;
    [apply NoDup_remove_dups|done|].
  intros x. by rewrite elem_of_remove_dups.
Qed.

Lemma length_remove_dups_split l k :
  k ∈ l → length (remove_dups l) = S (length (remove_dups (filter (λ x, x ≠ k) l))).
Proof.
  intros Hk.
  change (S (length (remove_dups (filter (λ x, x ≠ k) l))))
    with (length (k :: remove_dups (filter (λ x, x ≠ k) l))).
  apply Permutation_length, NoDup_Permutation.
  - apply NoDup_remove_dups.
  - constructor; [|apply NoDup_remove_dups].
    rewrite elem_of_remove_dups, list_elem_of_filter. tauto.
  - intros x. rewrite elem_of_cons, !elem_of_remove_dups, list_elem_of_filter.
    destruct (decide (x = k)) as [->|]; tauto.
Qed.

(** A list in which every value occurs at least twice has at most half
    as many distinct values as elements. *)
Lemma twice_distinct_le l :
  (∀ k, k ∈ l → 1 < length (filter (λ x, x = k) l)) →
  2 * length (remove_dups l) ≤ length l.
Proof.
  remember (length l) as n eqn:Hn. revert l Hn.
  induction n as [n IH] using lt_wf_ind. intros l Hn Htwice.
  destruct l as [|k l']; [simpl; lia|].
  set (l := k :: l') in *.
  assert (k ∈ l) as Hk by apply list_elem_of_here.
  pose proof (Htwice k Hk) as Hcount.
  pose proof (filter_app_complement (λ x, x = k) l) as Hp.
  apply Permutation_length in Hp. rewrite length_app in Hp.
  rewrite (length_remove_dups_split l k Hk).
  assert (2 * length (remove_dups (filter (λ x, x ≠ k) l))
          ≤ length (filter (λ x, x ≠ k) l)) as Hrest; [|lia].
  apply (IH (length (filter (λ x, x ≠ k) l))); [lia|done|].
  intros k' Hk'. apply list_elem_of_filter in Hk' as [Hne Hk'].
  rewrite list_filter_filter_l by (by intros x ->).
  by apply Htwice.
Qed.

Lemma length_filter_fmap {B} (f : B → A) (P : A → Prop) `{∀ x, Decision (P x)}
    (l : list B) :
  length (filter P (f <$> l)) = length (filter (λ x, P (f x)) l).
Proof.
  induction l as [|x l IH]; [done|].
  rewrite fmap_cons, !filter_cons. case_decide; simpl; by rewrite IH.
Qed.

End counting.

(** Of the rows selected by [P], those that satisfy [Q] too. *)
Lemma length_filter_and {A} (P Q : A → Prop)
    `{∀ x, Decision (P x), ∀ x, Decision (Q x)} (l : list A) :
  length (filter (λ x, P x ∧ Q x) l) ≤ length (filter P l) ∧
  (length (filter (λ x, P x ∧ Q x) l) = length (filter P l) ↔
   ∀ x, x ∈ l → P x → Q x).
Proof.
  induction l as [|a l [IHle IHeq]].
  - split; [done|]. split; [|done]. intros _ x Hx. by apply elem_of_nil in Hx.
  - rewrite !filter_cons.
    destruct (decide (P a)) as [HP|HP], (decide (Q a)) as [HQ|HQ].
    + rewrite decide_True by done. simpl. split; [lia|].
      split.
      * intros Heq x Hx HPx. apply elem_of_cons in Hx as [->|Hx]; [done|].
        apply IHeq; [lia|done..].
      * intros Hall. f_equal. apply IHeq. intros x Hx. apply Hall.
        by apply list_elem_of_further.
    + rewrite decide_False by tauto. simpl. split; [lia|].
      split; [lia|]. intros Hall. destruct HQ. apply Hall; [apply list_elem_of_here|done].
    + rewrite decide_False by tauto. split; [done|].
      split.
      * intros Heq x Hx HPx. apply elem_of_cons in Hx as [->|Hx]; [done|].
        by apply IHeq.
      * intros Hall. apply IHeq. intros x Hx. apply Hall. by apply list_elem_of_further.
    + rewrite decide_False by tauto. split; [done|].
      split.
      * intros Heq x Hx HPx. apply elem_of_cons in Hx as [->|Hx]; [done|].
        by apply IHeq.
      * intros Hall. apply IHeq. intros x Hx. apply Hall. by apply list_elem_of_further.
Qed.

(** The rows kept by [drop_duplicates(subset=key)] are as many as the
    distinct keys. *)
Lemma length_drop_duplicates_subset {R K} `{EqDecision K} (key : R → K) (df : frame R) :
  length (drop_duplicates_subset key df)
  = length (remove_dups ((λ x, key x.2) <$> df)).
Proof.
  rewrite <- (length_fmap (λ x, key x.2) (drop_duplicates_subset key df)).
  rewrite <- (length_remove_dups_NoDup _ (drop_duplicates_subset_keys_NoDup key df)).
  apply length_remove_dups_Permutation. intros k. rewrite !list_elem_of_fmap. split.
  - intros (x & -> & Hx). exists x. split; [done|].
    by apply (sublist_subseteq _ _ (drop_duplicates_subset_sublist key df)).
  - intros (x & -> & Hx).
    destruct (drop_duplicates_subset_covers key df x Hx) as (y & Hy & Heq).
    by exists y.
Qed.

Section duplicate_products.
Context `{Runtime}.

Lemma products_prepared_barcode_notna (raw : frame product_row) x :
  x ∈ products_prepared raw → notna (BARCODE_products x.2).
Proof.
  destruct x as [i p]. intros Hin.
  apply products_prepared_rows in Hin as (r0 & _ & _ & ->). apply astype_str_notna.
Qed.

Lemma duplicate_count_eq (raw : frame product_row) :
  duplicate_count raw
  = length (remove_dups ((λ x, BARCODE_products x.2) <$> duplicate_products_df raw)).
Proof.
  unfold duplicate_count, nunique. f_equal. f_equal. apply filter_all.
  intros k Hk. apply list_elem_of_fmap in Hk as (x & -> & Hx).
  unfold duplicate_products_df, get_duplicate_barcode_products in Hx.
  apply list_elem_of_filter in Hx as [_ Hx].
  by apply (products_prepared_barcode_notna raw).
Qed.

Lemma elem_of_duplicate_products_df (rows : list product_row) x :
  x ∈ duplicate_products_df (read_csv rows) ↔
  x ∈ products_prepared (read_csv rows) ∧
  ∃ y, y ∈ products_prepared (read_csv rows) ∧ y ≠ x ∧
       BARCODE_products y.2 = BARCODE_products x.2.
Proof.
  unfold duplicate_products_df, get_duplicate_barcode_products.
  rewrite list_elem_of_filter.
  pose proof (index_increasing_NoDup _ (products_prepared_increasing rows)) as Hnd.
  split.
  - intros [Hd Hx]. split; [done|]. by apply duplicated_iff in Hd.
  - intros [Hx Hy]. split; [|done]. by apply duplicated_iff.
Qed.

End duplicate_products.

(** X14.  The table of duplicated barcodes holds exactly the prepared
    product rows whose barcode is also the barcode of another prepared
    row.  Each barcode in it is on two rows at least, so the table has
    at least twice as many rows as [duplicate_count] and never exactly
    one row. *)
Theorem duplicate_products_df_rows `{Runtime} (rows : list product_row) :
  (∀ x, x ∈ duplicate_products_df (read_csv rows) ↔
        x ∈ products_prepared (read_csv rows) ∧
        ∃ y, y ∈ products_prepared (read_csv rows) ∧ y ≠ x ∧
             BARCODE_products y.2 = BARCODE_products x.2) ∧
  2 * duplicate_count (read_csv rows) ≤ length (duplicate_products_df (read_csv rows)) ∧
  length (duplicate_products_df (read_csv rows)) ≠ 1.
Proof.
  split_and!.
  - apply elem_of_duplicate_products_df.
  - rewrite duplicate_count_eq.
    rewrite <- (length_fmap (λ x : nat * product_row, BARCODE_products x.2)
                  (duplicate_products_df (read_csv rows))).
    apply twice_distinct_le. intros k Hk.
    apply list_elem_of_fmap in Hk as (x & -> & Hx).
    rewrite (length_filter_fmap (λ y : nat * product_row, BARCODE_products y.2)
               (λ k, k = BARCODE_products x.2)).
    unfold duplicate_products_df, get_duplicate_barcode_products in *.
    apply list_elem_of_filter in Hx as [Hd Hx].
    rewrite list_filter_filter_l; [exact Hd|].
    intros y Heq. unfold duplicated in *. by rewrite Heq.
  - intros Hlen.
    destruct (duplicate_products_df (read_csv rows)) as [|x [|??]] eqn:Hdf; [done| |done].
    assert (x ∈ duplicate_products_df (read_csv rows)) as Hx
      by (rewrite Hdf; apply list_elem_of_here).
    pose proof Hx as Hx'.
    apply elem_of_duplicate_products_df in Hx' as [Hin (y & Hy & Hne & Heq)].
    assert (y ∈ duplicate_products_df (read_csv rows)) as Hy'.
    { apply elem_of_duplicate_products_df. split; [done|]. by exists x. }
    rewrite Hdf in Hy'. by apply list_elem_of_singleton in Hy'.
Qed.

(** X15.  For every [sort_values] that meets its contract, cleaning
    the products removes from the prepared table as many rows as the
    table of duplicated barcodes has beyond one per barcode: the cleaned
    table and the table of duplicated barcodes have together as many rows
    as the prepared table plus [duplicate_count]. *)
Theorem clean_products_row_count `{Runtime} (rows : list product_row) :
  sort_values_contract →
  length (clean_products (read_csv rows))
    + length (duplicate_products_df (read_csv rows))
  = length (products_prepared (read_csv rows)) + duplicate_count (read_csv rows).
Proof.
  intros Hsort. rewrite clean_products_eq, duplicate_count_eq.
  unfold duplicate_products_df, get_duplicate_barcode_products.
  set (prepared := products_prepared (read_csv rows)).
  unfold keep_most_complete_duplicates. case_decide as Hempty.
  - rewrite Hempty. simpl. lia.
  - unfold sort_index. rewrite merge_sort_Permutation, length_app.
    unfold most_complete_rows. rewrite length_drop_duplicates_subset.
    rewrite (length_remove_dups_Permutation
               ((λ x : nat * product_row, BARCODE_products x.2) <$>
                  sort_values non_missing_count
                    (filter (duplicated BARCODE_products prepared) prepared))
               ((λ x : nat * product_row, BARCODE_products x.2) <$>
                  filter (duplicated BARCODE_products prepared) prepared)).
    + pose proof (filter_app_complement (duplicated BARCODE_products prepared) prepared)
        as Hp.
      apply Permutation_length in Hp. rewrite length_app in Hp. lia.
    + intros k. destruct (Hsort non_missing_count
                            (filter (duplicated BARCODE_products prepared) prepared))
        as [Hp _].
      by rewrite Hp.
Qed.

Lemma clean_products_row_count_witness :
  @sort_values_contract reference_runtime ∧
  length (@clean_products reference_runtime (read_csv tied_products)) = 9 ∧
  length (@duplicate_products_df reference_runtime (read_csv tied_products)) = 18 ∧
  length (@products_prepared reference_runtime (read_csv tied_products)) = 18 ∧
  @duplicate_count reference_runtime (read_csv tied_products) = 9 ∧
  length (@clean_products reference_runtime (read_csv tied_products))
    + length (@duplicate_products_df reference_runtime (read_csv tied_products))
  = length (@products_prepared reference_runtime (read_csv tied_products))
    + @duplicate_count reference_runtime (read_csv tied_products).
Proof.
  split; [exact reference_sort_values_contract|].
  split; [vm_compute; reflexivity|]. split; [vm_compute; reflexivity|].
  split; [vm_compute; reflexivity|]. split; [vm_compute; reflexivity|].
  exact (@clean_products_row_count reference_runtime tied_products
           reference_sort_values_contract).
Defined.

(** X16.  [missing_count] counts a prepared product row whose barcode
    is one of 'nan', 'N/A' and the empty text only when another prepared
    row has the same barcode: it is at most the number of prepared rows
    with such a barcode, and equal to it exactly when each of these rows
    shares its barcode with another row. *)
Theorem missing_count_counts_shared_barcodes `{Runtime} (rows : list product_row) :
  missing_count (read_csv rows)
    ≤ length (filter (λ x, barcode_is_missing (BARCODE_products x.2))
                (products_prepared (read_csv rows))) ∧
  (missing_count (read_csv rows)
     = length (filter (λ x, barcode_is_missing (BARCODE_products x.2))
                 (products_prepared (read_csv rows))) ↔
   ∀ x, x ∈ products_prepared (read_csv rows) →
        barcode_is_missing (BARCODE_products x.2) →
        ∃ y, y ∈ products_prepared (read_csv rows) ∧ y ≠ x ∧
             BARCODE_products y.2 = BARCODE_products x.2).
Proof.
  unfold missing_count, duplicate_products_df, get_duplicate_barcode_products.
  set (prepared := products_prepared (read_csv rows)).
  rewrite list_filter_filter.
  destruct (length_filter_and
              (λ x : nat * product_row, barcode_is_missing (BARCODE_products x.2))
              (duplicated BARCODE_products prepared) prepared) as [Hle Heq].
  split; [done|]. rewrite Heq.
  pose proof (index_increasing_NoDup _ (products_prepared_increasing rows)) as Hnd.
  split.
  - intros Hall x Hx Hm. apply (duplicated_iff BARCODE_products prepared x Hnd Hx).
    by apply Hall.
  - intros Hall x Hx Hm. apply (duplicated_iff BARCODE_products prepared x Hnd Hx).
    by apply Hall.
Qed.

(** ** Users, once more *)

Lemma applyM_Raise_inv {R T} (f : nat → R → result T) k (df : frame R) e :
  applyM f k df = Raise e → ∃ x j, x ∈ df ∧ f j x.2 = Raise e.
Proof.
  revert k. induction df as [|a df IH]; intros k; simpl; [done|].
  destruct (f k a.2) as [t|e'] eqn:Ha.
  - destruct (applyM f (S k) df) as [out|e'] eqn:Hrest; [done|]. intros [= ->].
    destruct (IH _ Hrest) as (x & j & Hx & Hf). exists x, j.
    split; [by apply list_elem_of_further|done].
  - intros [= ->]. exists a, k. split; [apply list_elem_of_here|done].
Qed.

Lemma applyM_increasing {R T} (f : nat → R → result T) k (df : frame R) out :
  applyM f k df = OK out → index_increasing df → index_increasing out.
Proof.
  intros Ha. apply applyM_OK in Ha.
  by apply (Forall2_same_index_increasing (λ x y, ∃ j, f j x = OK y)).
Qed.

(** X17.  A cleaned user row is the raw row with the same label: the
    same ID and other columns, the gender normalised, both dates read by
    [to_datetime]; the raw birth date is a text that compares at or
    above '1925-01-01'; AGE is what [calculate_age_precise] returns for
    the birth date at some reading of the clock and is at least 13;
    ACCOUNT_AGE_MONTHS is what [calculate_account_age_months] returns for
    the creation date at some reading of the clock. *)
Theorem cleaned_user_columns `{Runtime} (rows : list user_raw)
    (out : frame user_clean) (i : nat) (u : user_clean) :
  clean_users (read_csv rows) = OK out → (i, u) ∈ out →
  ∃ r0 bcol ccol ka km,
    rows !! i = Some r0 ∧
    ID u = ID r0 ∧ user_other u = user_other r0 ∧
    GENDER u = normalize_gender (GENDER r0) ∧
    birth_date_ge_1925 (BIRTH_DATE r0) ∧
    BIRTH_DATE u = to_datetime_coerce bcol (BIRTH_DATE r0) ∧
    CREATED_DATE u = to_datetime_coerce ccol (CREATED_DATE r0) ∧
    calculate_age_precise ka (BIRTH_DATE u) = OK (AGE u) ∧
    age_ge_13 (AGE u) ∧
    calculate_account_age_months km (CREATED_DATE u) = OK (ACCOUNT_AGE_MONTHS u).
Proof.
  intros Hc Hin. pose proof Hc as Hc'. unfold clean_users in Hc'.
  destruct (users_aged (read_csv rows)) as [aged|e] eqn:Ha; [|done]. clear Hc'.
  destruct (clean_users_rows _ _ _ Ha Hc) as [ccol [Hback _]].
  destruct (Hback _ _ Hin) as (x & Hx & km & m & Hm & ->). simpl.
  apply elem_of_loc in Hx as [Hage Hx]. simpl in Hage.
  destruct (users_aged_rows _ _ Ha) as [Hback' _].
  destruct (Hback' _ _ Hx) as (r & Hr & ka & a & Hcalc & ->). simpl in *.
  destruct (users_parsed_rows (read_csv rows)) as [bcol Hparsed].
  apply Hparsed in Hr as (r0 & Hr0 & Hb & ->). simpl in *.
  exists r0, bcol, ccol, ka, km. split_and!; [|done..].
  apply elem_of_read_csv.
  by apply (sublist_subseteq _ _ (drop_duplicates_subset_sublist id (read_csv rows))).
Qed.

Lemma cleaned_user_columns_witness :
  ∃ u,
    @clean_users reference_runtime
      (read_csv [example_user "user-1" "1990-05-17 00:00:00.000 Z" (Str "Non-Binary")])
    = OK [(0, u)] ∧
    GENDER u = Str "non_binary" ∧
    BIRTH_DATE u = Some (mk_datetime 1990 5 17 0) ∧
    AGE u = Some 34%Z ∧ ACCOUNT_AGE_MONTHS u = Some 62%Z ∧
    ∃ r0 bcol ccol ka km,
      [example_user "user-1" "1990-05-17 00:00:00.000 Z" (Str "Non-Binary")] !! 0
        = Some r0 ∧
      ID u = ID r0 ∧ user_other u = user_other r0 ∧
      GENDER u = normalize_gender (GENDER r0) ∧
      birth_date_ge_1925 (BIRTH_DATE r0) ∧
      BIRTH_DATE u = @to_datetime_coerce reference_runtime bcol (BIRTH_DATE r0) ∧
      CREATED_DATE u = @to_datetime_coerce reference_runtime ccol (CREATED_DATE r0) ∧
      @calculate_age_precise reference_runtime ka (BIRTH_DATE u) = OK (AGE u) ∧
      age_ge_13 (AGE u) ∧
      @calculate_account_age_months reference_runtime km (CREATED_DATE u)
        = OK (ACCOUNT_AGE_MONTHS u).
Proof.
  assert (∃ u, @clean_users reference_runtime
                 (read_csv [example_user "user-1" "1990-05-17 00:00:00.000 Z"
                              (Str "Non-Binary")])
               = OK [(0, u)] ∧
               GENDER u = Str "non_binary" ∧
               BIRTH_DATE u = Some (mk_datetime 1990 5 17 0) ∧
               AGE u = Some 34%Z ∧ ACCOUNT_AGE_MONTHS u = Some 62%Z)
    as (u & Hu & Hg & Hb & Ha & Hm).
  { eexists. split; [vm_compute; reflexivity|]. repeat split. }
  exists u. split; [exact Hu|]. split; [exact Hg|]. split; [exact Hb|].
  split; [exact Ha|]. split; [exact Hm|].
  apply (@cleaned_user_columns reference_runtime _ _ 0 u Hu). apply list_elem_of_here.
Defined.

Lemma users_parsed_nil `{Runtime} (rows : list user_raw) :
  users_parsed (read_csv rows) = [] ↔
  ∀ r, r ∈ rows → ¬ birth_date_ge_1925 (BIRTH_DATE r).
Proof.
  destruct (users_parsed_rows (read_csv rows)) as [bcol Hparsed]. split.
  - intros Hnil r Hr Hb.
    apply list_elem_of_lookup in Hr as [i Hi]. apply elem_of_read_csv in Hi.
    destruct (drop_duplicates_subset_covers id (read_csv rows) (i, r) Hi)
      as ([j r'] & Hj & Heq). simpl in Heq. subst r'.
    assert ((j, mk_user (ID r) (CREATED_DATE r) (to_datetime_coerce bcol (BIRTH_DATE r))
                  (normalize_gender (GENDER r)) (user_other r) () ())
              ∈ users_parsed (read_csv rows)) as Hin
      by (apply Hparsed; by exists r).
    rewrite Hnil in Hin. by apply elem_of_nil in Hin.
  - intros Hall. apply elem_of_nil_inv. intros [i r] Hin.
    apply Hparsed in Hin as (r0 & Hr0 & Hb & _).
    apply (sublist_subseteq _ _ (drop_duplicates_subset_sublist id (read_csv rows))),
      elem_of_read_csv, list_elem_of_lookup_2 in Hr0.
    by apply (Hall r0).
Qed.

(** X18.  Cleaning the users raises TypeError when no row of the table
    has a BIRTH_DATE text that compares at or above '1925-01-01' (line
    102 on a column without any text, line 127 on a frame without rows).
    It raises nothing else than that and what [calculate_age_precise] or
    [calculate_account_age_months] raises on NaT, these only when a
    birth date that passed the 1925 filter, or a creation date, is
    missing or cannot be read. *)
Theorem clean_users_raises `{Runtime} (rows : list user_raw) :
  ((∀ r, r ∈ rows → ¬ birth_date_ge_1925 (BIRTH_DATE r)) →
   clean_users (read_csv rows) = Raise TypeError) ∧
  ∀ e, clean_users (read_csv rows) = Raise e →
    (e = TypeError ∧ ∀ r, r ∈ rows → ¬ birth_date_ge_1925 (BIRTH_DATE r)) ∨
    (calculate_age_NaT = Raise e ∧
     ∃ r bcol, r ∈ rows ∧ birth_date_ge_1925 (BIRTH_DATE r) ∧
               to_datetime_coerce bcol (BIRTH_DATE r) = None) ∨
    (calculate_account_age_months_NaT = Raise e ∧
     ∃ r ccol, r ∈ rows ∧ to_datetime_coerce ccol (CREATED_DATE r) = None).
Proof.
  destruct (users_parsed_rows (read_csv rows)) as [bcol Hparsed]. split.
  - intros Hall. apply users_parsed_nil in Hall. unfold clean_users, users_aged.
    case_decide; [done|]. by rewrite Hall.
  - intros e Hc. pose proof Hc as Hc'. unfold clean_users in Hc'.
    destruct (users_aged (read_csv rows)) as [aged|e'] eqn:Ha.
    + destruct aged as [|a0 aged'].
      * left. injection Hc' as <-. split; [done|]. apply users_parsed_nil.
        apply elem_of_nil_inv. intros [i r] Hin.
        destruct (users_aged_rows _ _ Ha) as [_ Hfwd].
        destruct (Hfwd _ _ Hin) as (y & Hy & _). by apply elem_of_nil in Hy.
      * right. right. clear Hc'.
        rewrite (clean_users_unfold _ _ Ha) in Hc by done.
        apply applyM_Raise_inv in Hc as ([i x] & j & Hx & Hf). simpl in Hf.
        apply elem_of_assign in Hx as (y & Hy & ->). simpl in Hf.
        apply elem_of_loc in Hy as [_ Hy].
        destruct (users_aged_rows _ _ Ha) as [Hback _].
        destruct (Hback _ _ Hy) as (r & Hr & _ & a & _ & ->). simpl in Hf.
        apply Hparsed in Hr as (r0 & Hr0 & _ & ->). simpl in Hf.
        apply (sublist_subseteq _ _ (drop_duplicates_subset_sublist id (read_csv rows))),
          elem_of_read_csv, list_elem_of_lookup_2 in Hr0.
        match type of Hf with
        | context [to_datetime_coerce ?col _] => set (ccol := col) in *
        end.
        destruct (to_datetime_coerce ccol (CREATED_DATE r0)) as [d|] eqn:Hd; [done|].
        simpl in Hf. destruct calculate_account_age_months_NaT as [m|e'']; [done|].
        injection Hf as ->. split; [done|]. by exists r0, ccol.
    + injection Hc' as ->. unfold users_aged in Ha. case_decide as Hfloat.
      * left. injection Ha as <-. split; [done|]. intros r Hr Hb.
        destruct Hfloat as [_ Hnone]. rewrite Forall_forall in Hnone.
        apply list_elem_of_lookup in Hr as [i Hi]. apply elem_of_read_csv in Hi.
        specialize (Hnone _ Hi). simpl in Hnone. by rewrite Hnone in Hb.
      * right. left.
        apply applyM_Raise_inv in Ha as ([i x] & j & Hx & Hf). simpl in Hf.
        apply Hparsed in Hx as (r0 & Hr0 & Hb & ->). simpl in Hf.
        apply (sublist_subseteq _ _ (drop_duplicates_subset_sublist id (read_csv rows))),
          elem_of_read_csv, list_elem_of_lookup_2 in Hr0.
        destruct (to_datetime_coerce bcol (BIRTH_DATE r0)) as [d|] eqn:Hd; [done|].
        simpl in Hf. destruct calculate_age_NaT as [a|e'']; [done|].
        injection Hf as ->. split; [done|]. by exists r0, bcol.
Qed.

Lemma clean_users_raises_witness :
  @clean_users reference_runtime (read_csv []) = Raise TypeError ∧
  @clean_users reference_runtime (read_csv [example_user "user-1" "1900-12-31" NaN])
  = Raise TypeError ∧
  @clean_users reference_runtime (read_csv [example_user "user-1" "unknown" NaN])
  = Raise AssertionError ∧
  ((AssertionError = TypeError ∧
    ∀ r, r ∈ [example_user "user-1" "unknown" NaN] →
         ¬ birth_date_ge_1925 (BIRTH_DATE r)) ∨
   (@calculate_age_NaT reference_runtime = Raise AssertionError ∧
    ∃ r bcol, r ∈ [example_user "user-1" "unknown" NaN] ∧
              birth_date_ge_1925 (BIRTH_DATE r) ∧
              @to_datetime_coerce reference_runtime bcol (BIRTH_DATE r) = None) ∨
   (@calculate_account_age_months_NaT reference_runtime = Raise AssertionError ∧
    ∃ r ccol, r ∈ [example_user "user-1" "unknown" NaN] ∧
              @to_datetime_coerce reference_runtime ccol (CREATED_DATE r) = None)).
Proof.
  assert (@clean_users reference_runtime (read_csv [example_user "user-1" "unknown" NaN])
          = Raise AssertionError) as Hc by (vm_compute; reflexivity).
  split; [|split; [|split; [exact Hc|]]].
  - apply (proj1 (@clean_users_raises reference_runtime [])).
    intros r Hr. by apply elem_of_nil in Hr.
  - apply (proj1 (@clean_users_raises reference_runtime
                    [example_user "user-1" "1900-12-31" NaN])).
    intros r Hr. apply list_elem_of_singleton in Hr as ->. simpl. discriminate.
  - exact (proj2 (@clean_users_raises reference_runtime _) _ Hc).
Defined.

(** ** The order of the cleaned tables *)

(** X19.  In each of the three cleaned tables the labels of the rows
    strictly increase: the rows that survive come in the order of the
    file, and no row of the file comes twice. *)
Theorem cleaned_tables_keep_the_order `{Runtime} :
  sort_values_contract →
  (∀ (rows : list user_raw) out,
     clean_users (read_csv rows) = OK out → index_increasing out) ∧
  (∀ (rows : list transaction_row) out,
     clean_transactions (read_csv rows) = OK out → index_increasing out) ∧
  (∀ rows : list product_row, index_increasing (clean_products (read_csv rows))).
Proof.
  intros Hsort. split_and!.
  - intros rows out Hc. pose proof Hc as Hc'. unfold clean_users in Hc'.
    destruct (users_aged (read_csv rows)) as [aged|e] eqn:Ha; [|done]. clear Hc'.
    rewrite (clean_users_unfold _ _ Ha (clean_users_OK _ _ _ Ha Hc)) in Hc.
    apply applyM_increasing in Hc; [done|].
    apply assign_index_increasing, loc_increasing.
    rewrite (users_aged_unfold _ (users_aged_OK _ _ Ha)) in Ha.
    apply applyM_increasing in Ha; [done|]. apply users_parsed_increasing.
  - intros rows out Hc. unfold clean_transactions in Hc.
    destruct (transactions_coerced (read_csv rows)) as [d|e] eqn:Hd; [|done].
    injection Hc as <-.
    pose proof (transactions_coerced_increasing _ _ Hd) as Hinc.
    by apply (index_increasing_sublist _ _ (remove_duplicate_missing_sales_sublist d Hinc)).
  - intros rows. rewrite clean_products_eq.
    pose proof (products_prepared_increasing rows) as Hinc.
    by apply (index_increasing_sublist _ _
                (keep_most_complete_duplicates_sublist BARCODE_products Hsort _ Hinc)).
Qed.

Lemma cleaned_tables_keep_the_order_witness :
  @sort_values_contract ties_reversed_runtime ∧
  (@clean_products ties_reversed_runtime
     (read_csv [example_product (Str "111") (Str "DOVE") NaN;
                example_product (Str "111") (Str "TRIDENT") NaN;
                example_product (Str "222") NaN NaN])).*1 = [1; 2] ∧
  index_increasing
    (@clean_products ties_reversed_runtime
       (read_csv [example_product (Str "111") (Str "DOVE") NaN;
                  example_product (Str "111") (Str "TRIDENT") NaN;
                  example_product (Str "222") NaN NaN])).
Proof.
  split; [exact ties_reversed_sort_values_contract|]. split; [vm_compute; reflexivity|].
  destruct (@cleaned_tables_keep_the_order ties_reversed_runtime
              ties_reversed_sort_values_contract) as (_ & _ & Hproducts).
  exact (Hproducts _).
Defined.

(** ** From the products to the report *)

Lemma merged_data_rows_product (transaction : frame transaction_row)
    (user : frame user_clean) (products : frame product_row) (m : merged_row) :
  m ∈ merged_data transaction user products →
  match m_product m with
  | Some p => m_transaction m ∈ transaction.*2 ∧ p ∈ products.*2 ∧
              BARCODE_products p = BARCODE (m_transaction m)
  | None => True
  end.
Proof.
  unfold merged_data. rewrite list_elem_of_fmap.
  intros ([[t ou] op] & -> & Hin). simpl.
  apply elem_of_merge_left in Hin as [Hin Hp]. simpl in Hp.
  apply elem_of_merge_left in Hin as [Ht _].
  destruct op as [p|]; [|done]. tauto.
Qed.

(** X20.  Every brand that one of the three queries reports on the
    joined table is the brand, not missing, of a cleaned product whose
    barcode is the BARCODE of a cleaned transaction. *)
Theorem reported_brands_are_product_brands `{Runtime} `{CountOrder}
    (transaction : frame transaction_row) (user : frame user_clean)
    (products : frame product_row) (b : cell) :
  order_by_contract → order_by_count_contract →
  b ∈ (get_top_5_brands_by_receipts_users_over_21
         (merged_data transaction user products)).*1 ∨
  b ∈ (get_top_5_brands_by_sales_account_over_6_months
         (merged_data transaction user products)).*1 ∨
  b ∈ (get_leading_dips_salsa_brand (merged_data transaction user products)).*1 →
  b ≠ NaN ∧
  ∃ t p, t ∈ transaction.*2 ∧ p ∈ products.*2 ∧
         BARCODE_products p = BARCODE t ∧ BRAND p = b.
Proof.
  intros Horder Hcount Hb.
  assert (∃ m, m ∈ merged_data transaction user products ∧
               product_col BRAND m = b ∧ b ≠ NaN) as (m & Hm & Hbrand & Hne).
  { destruct Hb as [Hb|[Hb|Hb]]; apply list_elem_of_fmap in Hb as ([b' v] & -> & Hin);
      simpl.
    - unfold get_top_5_brands_by_receipts_users_over_21 in Hin.
      destruct (top_n_spec (λ a b : nat, b ≤ a)
                  (λ x y z Hxy Hyz, Nat.le_trans _ _ _ Hyz Hxy)
                  order_by_count_desc Hcount count_distinct_receipt_id 5
                  (filter users_over_21_where (merged_data transaction user products)))
        as (_ & _ & Hrows & _).
      destruct (Hrows _ _ Hin) as [(m & Hm & Hbrand) _].
      apply list_elem_of_filter in Hm as [[_ Hne] Hm]. exists m.
      split_and!; [done..|]. by rewrite <- Hbrand.
    - unfold get_top_5_brands_by_sales_account_over_6_months in Hin.
      change group_by_brand with (group_by_brand_with total_sales) in Hin.
      destruct (top_n_spec (λ a b : Qc, (b ≤ a)%Qc)
                  (λ x y z Hxy Hyz, Qcle_trans _ _ _ Hyz Hxy)
                  order_by_desc Horder total_sales 5
                  (filter account_over_6_months_where
                     (merged_data transaction user products)))
        as (_ & _ & Hrows & _).
      destruct (Hrows _ _ Hin) as [(m & Hm & Hbrand) _].
      apply list_elem_of_filter in Hm as [(_ & Hne & _) Hm]. exists m.
      split_and!; [done..|]. by rewrite <- Hbrand.
    - unfold get_leading_dips_salsa_brand in Hin.
      change group_by_brand with (group_by_brand_with total_sales) in Hin.
      destruct (top_n_spec (λ a b : Qc, (b ≤ a)%Qc)
                  (λ x y z Hxy Hyz, Qcle_trans _ _ _ Hyz Hxy)
                  order_by_desc Horder total_sales 1
                  (filter dips_salsa_where (merged_data transaction user products)))
        as (_ & _ & Hrows & _).
      destruct (Hrows _ _ Hin) as [(m & Hm & Hbrand) _].
      apply list_elem_of_filter in Hm as [(_ & Hne & _) Hm]. exists m.
      split_and!; [done..|]. by rewrite <- Hbrand. }
  split; [done|].
  apply merged_data_rows_product in Hm.
  unfold product_col in Hbrand.
  destruct (m_product m) as [p|]; simpl in Hbrand; [|congruence].
  destruct Hm as (Ht & Hp & Hkey). by exists (m_transaction m), p.
Qed.

Lemma reported_brands_are_product_brands_witness :
  @order_by_contract reference_runtime ∧
  @order_by_count_contract reference_count_order ∧
  Str "TOSTITOS"
    ∈ (@get_leading_dips_salsa_brand reference_runtime
         (merged_data
            (read_csv [set_BARCODE (Str "123.0")
                         (example_transaction (Num (qc 1 1)) (Num (qc 5 2)))])
            (read_csv [example_user_clean "user-1"])
            (read_csv [example_product (Str "123.0") (Str "TOSTITOS")
                         (Str "Dips & Salsa")]))).*1 ∧
  Str "TOSTITOS" ≠ NaN ∧
  ∃ t p,
    t ∈ (read_csv [set_BARCODE (Str "123.0")
                     (example_transaction (Num (qc 1 1)) (Num (qc 5 2)))]).*2 ∧
    p ∈ (read_csv [example_product (Str "123.0") (Str "TOSTITOS")
                     (Str "Dips & Salsa")]).*2 ∧
    BARCODE_products p = BARCODE t ∧ BRAND p = Str "TOSTITOS".
Proof.
  split; [exact reference_order_by_contract|].
  split; [exact reference_order_by_count_contract|].
  assert (Str "TOSTITOS"
    ∈ (@get_leading_dips_salsa_brand reference_runtime
         (merged_data
            (read_csv [set_BARCODE (Str "123.0")
                         (example_transaction (Num (qc 1 1)) (Num (qc 5 2)))])
            (read_csv [example_user_clean "user-1"])
            (read_csv [example_product (Str "123.0") (Str "TOSTITOS")
                         (Str "Dips & Salsa")]))).*1) as Hin.
  { apply (bool_decide_unpack _). vm_compute. reflexivity. }
  split; [exact Hin|].
  exact (@reported_brands_are_product_brands reference_runtime reference_count_order
           _ _ _ _ reference_order_by_contract reference_order_by_count_contract
           (or_intror (or_intror Hin))).
Defined.

(** ** Missing barcodes in the join *)

Lemma clean_transactions_row_origin `{Runtime} (rows : list transaction_row)
    (out : frame transaction_row) (i : nat) (r : transaction_row) :
  clean_transactions (read_csv rows) = OK out → (i, r) ∈ out →
  ∃ r0, rows !! i = Some r0 ∧ coerce_transaction r0 = OK r.
Proof.
  intros Hclean Hin. unfold clean_transactions in Hclean.
  destruct (transactions_coerced (read_csv rows)) as [d|e] eqn:Hd; [|done].
  injection Hclean as <-.
  pose proof (transactions_coerced_increasing _ _ Hd) as Hinc.
  apply (sublist_subseteq _ _ (remove_duplicate_missing_sales_sublist d Hinc)) in Hin.
  destruct (coerced_row_origin _ _ _ _ Hd Hin) as (r0 & _ & Hr0 & Hc). by exists r0.
Qed.

Lemma merged_data_rows_no_product (transaction : frame transaction_row)
    (user : frame user_clean) (products : frame product_row) (m : merged_row) :
  m ∈ merged_data transaction user products → m_product m = None →
  ∀ p, p ∈ products.*2 → BARCODE_products p ≠ BARCODE (m_transaction m).
Proof.
  unfold merged_data. rewrite list_elem_of_fmap.
  intros ([[t ou] op] & -> & Hin). simpl. intros ->.
  by apply elem_of_merge_left in Hin as [_ Hp].
Qed.

(** X21.  When the raw products table has a row without a barcode
    (outside the 'Needs Review' placeholder), every cleaned transaction
    whose raw row has no barcode is joined with a product: both barcodes
    have become the text 'nan', on which the second join matches them. *)
Theorem missing_barcodes_meet_in_the_join `{Runtime}
    (trows : list transaction_row) (out : frame transaction_row)
    (user : frame user_clean) (prows : list product_row) (r : product_row)
    (i : nat) (r0 : transaction_row) (m : merged_row) :
  sort_values_contract →
  r ∈ prows → BARCODE_products r = NaN → CATEGORY_1 r ≠ Str "Needs Review" →
  clean_transactions (read_csv trows) = OK out →
  trows !! i = Some r0 → BARCODE r0 = NaN →
  m ∈ merged_data out user (clean_products (read_csv prows)) →
  (i, m_transaction m) ∈ out →
  BARCODE (m_transaction m) = Str "nan" ∧
  ∃ p, m_product m = Some p ∧ BARCODE_products p = Str "nan" ∧
       p ∈ (clean_products (read_csv prows)).*2.
Proof.
  intros Hsort Hr Hb Hcat Hclean Hi Hb0 Hm Hin.
  assert (BARCODE (m_transaction m) = Str "nan") as Hnan.
  { destruct (clean_transactions_row_origin _ _ _ _ Hclean Hin) as (r0' & Hi' & Hc).
    rewrite Hi in Hi'. injection Hi' as <-.
    apply coerce_transaction_OK in Hc as (_ & _ & Hbar & _).
    by rewrite Hbar, Hb0. }
  split; [done|].
  assert (∃ x, x ∈ clean_products (read_csv prows) ∧ BARCODE_products x.2 = Str "nan")
    as (x & Hx & Hbx).
  { apply list_elem_of_lookup in Hr as [j Hj]. apply elem_of_read_csv in Hj.
    destruct (drop_duplicates_subset_covers id (read_csv prows) (j, r) Hj)
      as ([k r'] & Hk & Heq). simpl in Heq. subst r'.
    destruct (clean_products_one_row_per_barcode prows Hsort) as (Hcover & _).
    destruct (Hcover (k, set_BARCODE_products (astype_str (BARCODE_products r)) r))
      as (x & Hx & Hbx).
    { apply products_prepared_rows. by exists r. }
    simpl in Hbx. rewrite Hb in Hbx. by exists x. }
  destruct (m_product m) as [p|] eqn:Hp.
  - exists p. pose proof (merged_data_rows_product _ _ _ _ Hm) as Hrow.
    rewrite Hp in Hrow. destruct Hrow as (_ & Hpin & Hkey).
    split_and!; [done| |done]. by rewrite Hkey.
  - destruct (merged_data_rows_no_product _ _ _ _ Hm Hp x.2).
    + by apply (list_elem_of_fmap_2 snd).
    + by rewrite Hbx.
Qed.

Lemma missing_barcodes_meet_in_the_join_witness :
  @sort_values_contract reference_runtime ∧
  @clean_transactions reference_runtime (read_csv [example_no_barcode])
  = OK [(0, example_no_barcode_cleaned)] ∧
  merged_data [(0, example_no_barcode_cleaned)] []
    (@clean_products reference_runtime (read_csv example_no_barcode_products))
  = [mk_merged example_no_barcode_cleaned None
       (Some (example_product (Str "nan") (Str "DOVE") NaN))] ∧
  BARCODE example_no_barcode_cleaned = Str "nan" ∧
  ∃ p, Some (example_product (Str "nan") (Str "DOVE") NaN) = Some p ∧
       BARCODE_products p = Str "nan" ∧
       p ∈ (@clean_products reference_runtime (read_csv example_no_barcode_products)).*2.
Proof.
  assert (@clean_transactions reference_runtime (read_csv [example_no_barcode])
          = OK [(0, example_no_barcode_cleaned)]) as Hclean by (vm_compute; reflexivity).
  assert (merged_data [(0, example_no_barcode_cleaned)] []
            (@clean_products reference_runtime (read_csv example_no_barcode_products))
          = [mk_merged example_no_barcode_cleaned None
               (Some (example_product (Str "nan") (Str "DOVE") NaN))]) as Hmerged
    by (vm_compute; reflexivity).
  split; [exact reference_sort_values_contract|].
  split; [exact Hclean|]. split; [exact Hmerged|].
  refine (@missing_barcodes_meet_in_the_join reference_runtime
            [example_no_barcode] [(0, example_no_barcode_cleaned)] []
            example_no_barcode_products (example_product NaN (Str "DOVE") NaN)
            0 example_no_barcode
            (mk_merged example_no_barcode_cleaned None
               (Some (example_product (Str "nan") (Str "DOVE") NaN)))
            reference_sort_values_contract _ eq_refl _ Hclean eq_refl eq_refl _ _).
  - apply list_elem_of_further, list_elem_of_here.
  - discriminate.
  - rewrite Hmerged. apply list_elem_of_here.
  - apply list_elem_of_here.
Defined.

(** ** What is left of the duplicates and of the genders *)

(** X22.  In the result of [remove_duplicate_missing_sales] (on a
    frame whose labels increase), two different rows that agree on every
    column but FINAL_SALE both have a sale amount: a row without one has
    no such companion left. *)
Theorem missing_sales_have_no_companion (df : frame transaction_row)
    (x y : nat * transaction_row) :
  index_increasing df →
  x ∈ remove_duplicate_missing_sales df → y ∈ remove_duplicate_missing_sales df →
  x ≠ y → subset_no_sales x.2 = subset_no_sales y.2 →
  notna (FINAL_SALE x.2) ∧ notna (FINAL_SALE y.2).
Proof.
  intros Hs Hx Hy Hne Hkey.
  apply elem_of_remove_duplicate_missing_sales in Hx as [Hx Hcx]; [|done].
  apply elem_of_remove_duplicate_missing_sales in Hy as [Hy Hcy]; [|done].
  split.
  - destruct Hcx as [?|Hno]; [done|]. destruct Hno. by exists y.
  - destruct Hcy as [?|Hno]; [done|]. destruct Hno. by exists x.
Qed.

Lemma missing_sales_have_no_companion_witness :
  index_increasing
    (read_csv [example_transaction (Num (qc 1 1)) NaN;
               example_transaction (Num (qc 1 1)) (Num (qc 3 2));
               example_transaction (Num (qc 1 1)) (Num (qc 5 2))]) ∧
  remove_duplicate_missing_sales
    (read_csv [example_transaction (Num (qc 1 1)) NaN;
               example_transaction (Num (qc 1 1)) (Num (qc 3 2));
               example_transaction (Num (qc 1 1)) (Num (qc 5 2))])
  = [(1, example_transaction (Num (qc 1 1)) (Num (qc 3 2)));
     (2, example_transaction (Num (qc 1 1)) (Num (qc 5 2)))] ∧
  notna (Num (qc 3 2)) ∧ notna (Num (qc 5 2)).
Proof.
  pose proof (read_csv_increasing
    [example_transaction (Num (qc 1 1)) NaN;
     example_transaction (Num (qc 1 1)) (Num (qc 3 2));
     example_transaction (Num (qc 1 1)) (Num (qc 5 2))]) as Hs.
  assert (remove_duplicate_missing_sales
            (read_csv [example_transaction (Num (qc 1 1)) NaN;
                       example_transaction (Num (qc 1 1)) (Num (qc 3 2));
                       example_transaction (Num (qc 1 1)) (Num (qc 5 2))])
          = [(1, example_transaction (Num (qc 1 1)) (Num (qc 3 2)));
             (2, example_transaction (Num (qc 1 1)) (Num (qc 5 2)))]) as Heq
    by (vm_compute; reflexivity).
  split; [exact Hs|]. split; [exact Heq|].
  refine (missing_sales_have_no_companion _
            (1, example_transaction (Num (qc 1 1)) (Num (qc 3 2)))
            (2, example_transaction (Num (qc 1 1)) (Num (qc 5 2))) Hs _ _ _ eq_refl).
  - rewrite Heq. apply list_elem_of_here.
  - rewrite Heq. apply list_elem_of_further, list_elem_of_here.
  - discriminate.
Defined.

Lemma normalize_gender_range (g : cell) :
  (normalize_gender g ∉ texts_to_replace_missing) ∧
  normalize_gender g ≠ Str "Non-Binary".
Proof.
  unfold normalize_gender, replace.
  destruct (decide (g ∈ texts_to_replace_missing)) as [Hm|Hm].
  - split; [apply (bool_decide_unpack _); by vm_compute|by vm_compute].
  - destruct (decide (g ∈ texts_to_replace_non_binary)) as [Hn|Hn].
    + split; [apply (bool_decide_unpack _); by vm_compute|by vm_compute].
    + split; [done|]. intros ->. apply Hn.
      apply list_elem_of_further, list_elem_of_here.
Qed.

(** X23.  No row of the cleaned users table has a GENDER among the six
    texts that the script groups as missing, nor the spelling
    'Non-Binary'. *)
Theorem cleaned_genders_are_normalised `{Runtime} (rows : list user_raw)
    (out : frame user_clean) (i : nat) (u : user_clean) :
  clean_users (read_csv rows) = OK out → (i, u) ∈ out →
  (GENDER u ∉ texts_to_replace_missing) ∧ GENDER u ≠ Str "Non-Binary".
Proof.
  intros Hc Hin.
  destruct (clean_users_row rows out i u Hc Hin) as (_ & r0 & col & _ & _ & _ & Hg & _).
  rewrite Hg. apply normalize_gender_range.
Qed.

Lemma cleaned_genders_are_normalised_witness :
  ∃ u,
    @clean_users reference_runtime
      (read_csv [example_user "user-1" "1990-05-17 00:00:00.000 Z" (Str "not_listed")])
    = OK [(0, u)] ∧
    GENDER u = NaN ∧
    (GENDER u ∉ texts_to_replace_missing) ∧ GENDER u ≠ Str "Non-Binary".
Proof.
  assert (∃ u, @clean_users reference_runtime
                 (read_csv [example_user "user-1" "1990-05-17 00:00:00.000 Z"
                              (Str "not_listed")])
               = OK [(0, u)] ∧ GENDER u = NaN) as (u & Hu & Hg).
  { eexists. split; [vm_compute; reflexivity|]. reflexivity. }
  exists u. split; [exact Hu|]. split; [exact Hg|].
  apply (@cleaned_genders_are_normalised reference_runtime _ _ 0 u Hu).
  apply list_elem_of_here.
Defined.
